(** * Open Screen Protocol agent: endpoint tables, SPAKE2 consumer, ByteView

    A shallow embedding of
      - [platform/base/byte_view.h]            (class ByteView),
      - [osp/impl/quic/quic_client.cc]         (class QuicClient),
      - [osp/impl/quic/quic_server.h], [.cc]   (class QuicServer, in the
        revision that defines Start/Stop/Suspend/Resume itself),
      - [osp/impl/quic/quic_service_common.h], [.cc]
                                               (QuicProtocolConnection,
        ServiceConnectionDelegate),
      - [osp/public/authentication_base.cc] and
        [osp/public/authentication_bob.cc]     (SPAKE2 consumer),
      - [osp/impl/quic/quic_connection_factory_impl.cc]
                                               (QuicConnectionFactoryImpl),
      - [tools/cddl/codegen.cc]                (the CborEncodeBuffer it
        writes into the generated sources),
    followed by the properties proved about them.

    Conventions.  A [uint64_t] or [size_t] is a [Z] whose wrap-around is
    written out with [wrap64].  A [std::map] is an association list kept
    in key order, so that a range-for over it visits entries as the C++
    does.  An [assert] or [OSP_CHECK] that fails is the result [None].
    Calls that leave the class (observer, request callbacks, QUIC
    connection, connection factory, alarm) are appended to a trace, and the
    calls the QUIC layer makes back into an endpoint are separate steps of
    a run.  An entry erased from a table is gone; what the destructors of
    the QUIC objects it owned do is not part of the model. *)

From Stdlib Require Import ZArith List String Ascii Bool Lia Sorted Permutation.
From Stdlib Require Import Strings.Byte.
Import ListNotations.
Local Open Scope Z_scope.

(* ================================================================== *)
(** * Part I.  Definitions                                             *)
(* ================================================================== *)

(** ** Fixed-width unsigned integers *)

Definition two64 : Z := 2 ^ 64.

(** Reduction of an arithmetic result to [uint64_t] / [size_t]. *)
Definition wrap64 (x : Z) : Z := x mod two64.

(** [x++] on a [uint64_t]: the new value of [x]. *)
Definition incr64 (x : Z) : Z := wrap64 (x + 1).

Definition is_uint64 (x : Z) : Prop := 0 <= x < two64.

(** ** Ordered keys and [std::map] *)

Class Key (K : Type) := {
  key_eqb : K -> K -> bool;
  key_ltb : K -> K -> bool;
  key_eqb_spec : forall a b, reflect (a = b) (key_eqb a b)
}.

#[export] Instance Key_Z : Key Z :=
  {| key_eqb := Z.eqb; key_ltb := Z.ltb; key_eqb_spec := Z.eqb_spec |}.

#[export] Instance Key_string : Key string :=
  {| key_eqb := String.eqb; key_ltb := String.ltb;
     key_eqb_spec := String.eqb_spec |}.

Module StdMap.
Section Ops.
Context {K V : Type} `{Key K}.

(** [std::map<K, V>]: the entries in iteration order. *)
Definition t := list (K * V).

(** [m.find(k)], as the mapped value when the iterator is not [end()]. *)
Fixpoint find (k : K) (m : list (K * V)) : option V :=
  match m with
  | [] => None
  | (k', v) :: m' => if key_eqb k k' then Some v else find k m'
  end.

(** [m.erase(it)] for the iterator of key [k]. *)
Fixpoint erase (k : K) (m : list (K * V)) : list (K * V) :=
  match m with
  | [] => []
  | (k', v) :: m' =>
      if key_eqb k k' then erase k m' else (k', v) :: erase k m'
  end.

(** Insertion of a new entry at its position in key order. *)
Fixpoint insert_sorted (k : K) (v : V) (m : list (K * V)) : list (K * V) :=
  match m with
  | [] => [(k, v)]
  | (k', v') :: m' =>
      if key_ltb k k' then (k, v) :: (k', v') :: m'
      else (k', v') :: insert_sorted k v m'
  end.

(** Overwriting the mapped value of the entry of key [k]. *)
Fixpoint replace (k : K) (v : V) (m : list (K * V)) : list (K * V) :=
  match m with
  | [] => []
  | (k', v') :: m' =>
      if key_eqb k k' then (k', v) :: m' else (k', v') :: replace k v m'
  end.

(** [m.emplace(k, v)] / [m.insert({k, v})]: no effect when [k] is
    present. *)
Definition emplace (k : K) (v : V) (m : list (K * V)) : list (K * V) :=
  match find k m with
  | Some _ => m
  | None => insert_sorted k v m
  end.

(** [m[k] = v], and a write through the iterator [m.find(k)]. *)
Definition assign (k : K) (v : V) (m : list (K * V)) : list (K * V) :=
  match find k m with
  | Some _ => replace k v m
  | None => insert_sorted k v m
  end.

Definition keys (m : list (K * V)) : list K := map fst m.
End Ops.
End StdMap.

(** ** [ByteView] (platform/base/byte_view.h) *)

Module ByteView.

(** [data_] is the address of the first byte, [count_] the length. *)
Record t := mk { data_ : Z; count_ : Z }.

(** The default-constructed view: [nullptr], 0. *)
Definition empty_view : t := mk 0 0.

Definition data (v : t) : Z := data_ v.
Definition size (v : t) : Z := count_ v.
Definition empty (v : t) : bool := count_ v =? 0.

(** [first(count)]: [assert(count <= count_)]. *)
Definition first (v : t) (count : Z) : option t :=
  if count <=? count_ v then Some (mk (data_ v) count) else None.

(** [last(count)]: [assert(count <= count_); assert(count != 0)]. *)
Definition last (v : t) (count : Z) : option t :=
  if count <=? count_ v then
    if negb (count =? 0)
    then Some (mk (data_ v + (count_ v - count)) count)
    else None
  else None.

(** [remove_prefix(count)]: [assert(count_ >= count)]. *)
Definition remove_prefix (v : t) (count : Z) : option t :=
  if count_ v >=? count
  then Some (mk (data_ v + count) (count_ v - count))
  else None.

(** [remove_suffix(count)]: [assert(count_ >= count)]. *)
Definition remove_suffix (v : t) (count : Z) : option t :=
  if count_ v >=? count then Some (mk (data_ v) (count_ v - count))
  else None.

(** [subspan(offset, count)]: [assert(offset + count < count_)], the sum
    being taken in [size_t]. *)
Definition subspan (v : t) (offset count : Z) : option t :=
  if wrap64 (offset + count) <? count_ v
  then Some (mk (data_ v + offset) count)
  else None.

End ByteView.

(** ** Streams and connection records (osp/impl/quic/quic_service_common) *)

(** [QuicProtocolConnection]: the pair (instance id, protocol connection
    id) that [ProtocolConnection] stores; the id is the QUIC stream id. *)
Record ProtocolConnection := mkPC {
  pc_instance_id : Z;
  pc_id : Z
}.

(** Modelled from the spec: the QUIC session behind [QuicConnection] is the
    external QUIC library; what this development needs of it is that "each
    call to new outgoing stream allocates a fresh protocol-connection id
    (= QUIC stream id)".  [conn_handle] names the session in traces. *)
Record QuicConnection := mkConn {
  conn_handle : Z;
  conn_next_stream_id : Z
}.

(** Modelled from the spec: [QuicConnection::MakeOutgoingStream], returning
    the id of the new stream. *)
Definition MakeOutgoingStream (c : QuicConnection) : Z * QuicConnection :=
  (conn_next_stream_id c,
   mkConn (conn_handle c) (incr64 (conn_next_stream_id c))).

(** [ServiceStreamPair]; [stream] is named by its stream id and a null
    [protocol_connection] is [None]. *)
Record ServiceStreamPair := mkPair {
  stream : Z;
  protocol_connection_id : Z;
  protocol_connection : option ProtocolConnection
}.

(** [ServiceConnectionDelegate], the per-connection stream manager.  Its
    [instance_id_] member is written and read only by its own QUIC
    callbacks and is left out. *)
Record ServiceConnectionDelegate := mkDelegate {
  instance_name_ : string;
  streams_ : list (Z * ServiceStreamPair);
  closed_streams_ : list ServiceStreamPair
}.

Definition AddStreamPair (d : ServiceConnectionDelegate)
    (stream_pair : ServiceStreamPair) : ServiceConnectionDelegate :=
  mkDelegate (instance_name_ d)
             (StdMap.emplace (stream stream_pair) stream_pair (streams_ d))
             (closed_streams_ d).

Definition DropProtocolConnection (d : ServiceConnectionDelegate)
    (stream_id : Z) : ServiceConnectionDelegate :=
  match StdMap.find stream_id (streams_ d) with
  | None => d
  | Some sp =>
      mkDelegate (instance_name_ d)
        (StdMap.assign stream_id
           (mkPair (stream sp) (protocol_connection_id sp) None) (streams_ d))
        (closed_streams_ d)
  end.

Definition DestroyClosedStreams (d : ServiceConnectionDelegate)
    : ServiceConnectionDelegate :=
  mkDelegate (instance_name_ d) (streams_ d) [].

Definition has_streams (d : ServiceConnectionDelegate) : bool :=
  match streams_ d with [] => false | _ :: _ => true end.

(** [ServiceConnectionData]: the owning pair of a connection and its
    delegate. *)
Record ServiceConnectionData := mkData {
  connection : QuicConnection;
  delegate : ServiceConnectionDelegate
}.

(** [QuicProtocolConnection::FromExisting]: opens an outgoing stream on the
    connection and registers the stream pair with the delegate.  The
    connection and the delegate are the two objects owned by one
    [ServiceConnectionData], which is returned updated. *)
Definition FromExisting (d : ServiceConnectionData) (instance_id : Z)
    : ProtocolConnection * ServiceConnectionData :=
  let '(stream_id, conn') := MakeOutgoingStream (connection d) in
  let pc := mkPC instance_id stream_id in
  (pc, mkData conn' (AddStreamPair (delegate d)
                       (mkPair stream_id (pc_id pc) (Some pc)))).

(** Modelled from the spec: [InstanceRequestIds] (declared in
    osp/public/instance_request_ids.h, absent here), the "per-instance
    monotonic request-id generator", as the table of the next request id of
    each instance.  Only its two reset operations are called by the
    endpoints. *)
Record InstanceRequestIds := mkIds {
  request_ids_by_instance_id_ : list (Z * Z)
}.

Definition ResetRequestId (ids : InstanceRequestIds) (instance_id : Z)
    : InstanceRequestIds :=
  mkIds (StdMap.erase instance_id (request_ids_by_instance_id_ ids)).

Definition Reset (ids : InstanceRequestIds) : InstanceRequestIds :=
  mkIds [].

(** ** Calls that leave the endpoint *)

(** A [ConnectionRequestCallback*] is named by an integer. *)
Inductive Event :=
| OnConnectionOpened (callback request_id : Z) (pc : ProtocolConnection)
| OnConnectionFailed (callback request_id : Z)
| ConnectionClose (conn : Z)
| OnRunning
| OnStopped
| OnSuspended
| OnIncomingConnection (pc : ProtocolConnection)
| SetServerDelegate (present : bool)
| ScheduleCleanup
| OnStreamData (instance_id protocol_connection_id : Z) (bytes : list Z).

(** ** [QuicClient] (osp/impl/quic/quic_client.cc) *)

Module QuicClient.

(** [ProtocolConnectionClient::State]. *)
Inductive State := kStopped | kStarting | kRunning | kStopping.

Definition State_eqb (a b : State) : bool :=
  match a, b with
  | kStopped, kStopped | kStarting, kStarting
  | kRunning, kRunning | kStopping, kStopping => true
  | _, _ => false
  end.

(** [InstanceInfo]: what discovery published for an instance.  The two
    endpoints only select the address handed to the connection factory. *)
Record InstanceInfo := mkInfo {
  fingerprint : string;
  v4_endpoint : Z;
  v6_endpoint : Z
}.

(** [ServiceInfo], as far as [OnReceiverAdded] and its siblings read it. *)
Record ServiceInfo := mkServiceInfo {
  instance_id : string;
  info : InstanceInfo
}.

(** [PendingConnectionData]: a connection awaiting its handshake and the
    (request id, callback) pairs waiting on it. *)
Record PendingConnectionData := mkPending {
  data : ServiceConnectionData;
  callbacks : list (Z * Z)
}.

Record t := mk {
  state_ : State;
  instance_infos_ : list (string * InstanceInfo);
  instance_map_ : list (string * Z);
  next_instance_number_ : Z;
  next_request_id_ : Z;
  pending_connections_ : list (string * PendingConnectionData);
  connections_ : list (Z * ServiceConnectionData);
  delete_connections_ : list Z;
  instance_request_ids_ : InstanceRequestIds;
  trace : list Event
}.

(** A freshly constructed client.  The class declaration is in
    quic_client.h; both counters start at 1, the value [CloseAllConnections]
    resets the instance counter to and the first request id that is valid
    ("the request id of a valid ConnectRequest should be greater than
    0"). *)
Definition init : t :=
  mk kStopped [] [] 1 1 [] [] [] (mkIds []) [].

Definition set_state (s : State) (c : t) : t :=
  mk s (instance_infos_ c) (instance_map_ c) (next_instance_number_ c)
     (next_request_id_ c) (pending_connections_ c) (connections_ c)
     (delete_connections_ c) (instance_request_ids_ c) (trace c).

Definition set_instance_infos (x : list (string * InstanceInfo)) (c : t) : t :=
  mk (state_ c) x (instance_map_ c) (next_instance_number_ c)
     (next_request_id_ c) (pending_connections_ c) (connections_ c)
     (delete_connections_ c) (instance_request_ids_ c) (trace c).

Definition set_instance_map (x : list (string * Z)) (c : t) : t :=
  mk (state_ c) (instance_infos_ c) x (next_instance_number_ c)
     (next_request_id_ c) (pending_connections_ c) (connections_ c)
     (delete_connections_ c) (instance_request_ids_ c) (trace c).

Definition set_next_instance_number (x : Z) (c : t) : t :=
  mk (state_ c) (instance_infos_ c) (instance_map_ c) x
     (next_request_id_ c) (pending_connections_ c) (connections_ c)
     (delete_connections_ c) (instance_request_ids_ c) (trace c).

Definition set_next_request_id (x : Z) (c : t) : t :=
  mk (state_ c) (instance_infos_ c) (instance_map_ c)
     (next_instance_number_ c) x (pending_connections_ c) (connections_ c)
     (delete_connections_ c) (instance_request_ids_ c) (trace c).

Definition set_pending_connections
    (x : list (string * PendingConnectionData)) (c : t) : t :=
  mk (state_ c) (instance_infos_ c) (instance_map_ c)
     (next_instance_number_ c) (next_request_id_ c) x (connections_ c)
     (delete_connections_ c) (instance_request_ids_ c) (trace c).

Definition set_connections (x : list (Z * ServiceConnectionData)) (c : t) : t :=
  mk (state_ c) (instance_infos_ c) (instance_map_ c)
     (next_instance_number_ c) (next_request_id_ c) (pending_connections_ c)
     x (delete_connections_ c) (instance_request_ids_ c) (trace c).

Definition set_delete_connections (x : list Z) (c : t) : t :=
  mk (state_ c) (instance_infos_ c) (instance_map_ c)
     (next_instance_number_ c) (next_request_id_ c) (pending_connections_ c)
     (connections_ c) x (instance_request_ids_ c) (trace c).

Definition set_instance_request_ids (x : InstanceRequestIds) (c : t) : t :=
  mk (state_ c) (instance_infos_ c) (instance_map_ c)
     (next_instance_number_ c) (next_request_id_ c) (pending_connections_ c)
     (connections_ c) (delete_connections_ c) x (trace c).

(** Appends calls to the trace, in the order they are made. *)
Definition emit (evs : list Event) (c : t) : t :=
  mk (state_ c) (instance_infos_ c) (instance_map_ c)
     (next_instance_number_ c) (next_request_id_ c) (pending_connections_ c)
     (connections_ c) (delete_connections_ c) (instance_request_ids_ c)
     (trace c ++ evs).

(** First loop of [Cleanup]: every delegate drops its closed streams, and a
    connection left without streams is closed. *)
Definition cleanup_entry (entry : Z * ServiceConnectionData)
    : Z * ServiceConnectionData :=
  (fst entry,
   mkData (connection (snd entry)) (DestroyClosedStreams (delegate (snd entry)))).

Definition cleanup_closes (entry : Z * ServiceConnectionData) : list Event :=
  if has_streams (DestroyClosedStreams (delegate (snd entry)))
  then []
  else [ConnectionClose (conn_handle (connection (snd entry)))].

(** Second loop of [Cleanup]: the queued instance numbers are erased. *)
Definition erase_all (ids : list Z) (m : list (Z * ServiceConnectionData))
    : list (Z * ServiceConnectionData) :=
  fold_left (fun acc instance_number => StdMap.erase instance_number acc) ids m.

Definition Cleanup (c : t) : t :=
  let c1 := emit (flat_map cleanup_closes (connections_ c))
                 (set_connections (map cleanup_entry (connections_ c)) c) in
  let c2 := set_connections
              (erase_all (delete_connections_ c1) (connections_ c1)) c1 in
  let c3 := set_delete_connections [] c2 in
  match state_ c3 with
  | kStopped => c3
  | _ => emit [ScheduleCleanup] c3
  end.

(** The calls made for one pending entry by [CloseAllConnections]. *)
Definition close_pending (entry : string * PendingConnectionData)
    : list Event :=
  ConnectionClose (conn_handle (connection (data (snd entry))))
  :: map (fun item => OnConnectionFailed (snd item) (fst item))
         (callbacks (snd entry)).

Definition close_established (entry : Z * ServiceConnectionData) : Event :=
  ConnectionClose (conn_handle (connection (snd entry))).

Definition CloseAllConnections (c : t) : t :=
  let c1 := emit (flat_map close_pending (pending_connections_ c)) c in
  let c2 := set_pending_connections [] c1 in
  let c3 := emit (map close_established (connections_ c2)) c2 in
  let c4 := set_connections [] c3 in
  let c5 := set_instance_map [] c4 in
  let c6 := set_next_instance_number 1 c5 in
  set_instance_request_ids (Reset (instance_request_ids_ c6)) c6.

Definition Start (c : t) : bool * t :=
  match state_ c with
  | kRunning => (false, c)
  | _ => (true, emit [OnRunning] (Cleanup (set_state kRunning c)))
  end.

Definition Stop (c : t) : bool * t :=
  match state_ c with
  | kStopped => (false, c)
  | _ =>
      (true,
       emit [OnStopped] (Cleanup (set_state kStopped (CloseAllConnections c))))
  end.

(** [CreateProtocolConnection]; a null result is [None]. *)
Definition CreateProtocolConnection (instance_number : Z) (c : t)
    : option ProtocolConnection * t :=
  match state_ c with
  | kRunning =>
      match StdMap.find instance_number (connections_ c) with
      | None => (None, c)
      | Some d =>
          let '(pc, d') := FromExisting d instance_number in
          (Some pc,
           set_connections (StdMap.assign instance_number d' (connections_ c)) c)
      end
  | _ => (None, c)
  end.

(** [StartConnectionRequest].  [factory_result] is what
    [connection_factory_->Connect] returns for this call; the result is the
    request id, 0 on failure.  [emplace] gives the entry of the name, the
    new one unless the name has one, and the waiter is appended to it. *)
Definition StartConnectionRequest (instance_id : string) (request_callback : Z)
    (factory_result : option QuicConnection) (c : t) : Z * t :=
  match StdMap.find instance_id (instance_infos_ c) with
  | None => (0, emit [OnConnectionFailed request_callback 0] c)
  | Some _ =>
      match factory_result with
      | None => (0, emit [OnConnectionFailed request_callback 0] c)
      | Some conn =>
          let request_id := next_request_id_ c in
          let entry :=
            match StdMap.find instance_id (pending_connections_ c) with
            | Some existing => existing
            | None => mkPending (mkData conn (mkDelegate instance_id [] [])) []
            end in
          let entry' :=
            mkPending (data entry)
                      (callbacks entry ++ [(request_id, request_callback)]) in
          (request_id,
           set_next_request_id (incr64 request_id)
             (set_pending_connections
                (StdMap.assign instance_id entry' (pending_connections_ c)) c))
      end
  end.

(** [CreatePendingConnection]; the second component is the request id
    written to [request], when one is. *)
Definition CreatePendingConnection (instance_id : string)
    (request_callback : Z) (factory_result : option QuicConnection) (c : t)
    : bool * option Z * t :=
  match StdMap.find instance_id (pending_connections_ c) with
  | None =>
      let '(request_id, c') :=
        StartConnectionRequest instance_id request_callback factory_result c in
      if request_id =? 0 then (false, None, c')
      else (true, Some request_id, c')
  | Some pending =>
      let request_id := next_request_id_ c in
      let pending' :=
        mkPending (data pending)
                  (callbacks pending ++ [(request_id, request_callback)]) in
      (true, Some request_id,
       set_pending_connections
         (StdMap.assign instance_id pending' (pending_connections_ c))
         (set_next_request_id (incr64 request_id) c))
  end.

(** [Connect].  The result is [None] when [OSP_CHECK(immediate_result)]
    fails. *)
Definition Connect (instance_id : string) (request_callback : Z)
    (factory_result : option QuicConnection) (c : t)
    : option (bool * option Z * t) :=
  match state_ c with
  | kRunning =>
      match StdMap.find instance_id (instance_map_ c) with
      | Some instance_number =>
          match CreateProtocolConnection instance_number c with
          | (None, _) => None
          | (Some immediate_result, c1) =>
              let request_id := next_request_id_ c1 in
              Some (true, Some request_id,
                    emit [OnConnectionOpened request_callback request_id
                            immediate_result]
                         (set_next_request_id (incr64 request_id) c1))
          end
      | None =>
          Some (CreatePendingConnection instance_id request_callback
                  factory_result c)
      end
  | _ => Some (false, None, emit [OnConnectionFailed request_callback 0] c)
  end.

(** The loop of [OnCryptoHandshakeComplete] over the waiters: one
    [FromExisting] and one [OnConnectionOpened] per waiter, in order. *)
Fixpoint open_waiters (waiters : list (Z * Z)) (d : ServiceConnectionData)
    (instance_number : Z) : list Event * ServiceConnectionData :=
  match waiters with
  | [] => ([], d)
  | request :: rest =>
      let '(pc, d1) := FromExisting d instance_number in
      let '(evs, d2) := open_waiters rest d1 instance_number in
      (OnConnectionOpened (snd request) (fst request) pc :: evs, d2)
  end.

(** [OnCryptoHandshakeComplete] for the delegate whose [instance_id()] is
    [instance_id]; the result is the issued instance number, 0 when no
    pending entry exists.  The record is emplaced first and the loop then
    acts on the emplaced connection and delegate, so the table holds the
    record as the loop leaves it. *)
Definition OnCryptoHandshakeComplete (instance_id : string) (c : t) : Z * t :=
  match StdMap.find instance_id (pending_connections_ c) with
  | None => (0, c)
  | Some pending_entry =>
      let instance_number := next_instance_number_ c in
      let '(evs, connection_data) :=
        open_waiters (callbacks pending_entry) (data pending_entry)
                     instance_number in
      let c1 := set_next_instance_number (incr64 instance_number) c in
      let c2 := set_instance_map
                  (StdMap.assign instance_id instance_number (instance_map_ c1))
                  c1 in
      let c3 := set_connections
                  (StdMap.emplace instance_number connection_data
                     (connections_ c2)) c2 in
      let c4 := emit evs c3 in
      (instance_number,
       set_pending_connections
         (StdMap.erase instance_id (pending_connections_ c4)) c4)
  end.

(** [OnConnectionDestroyed]; [has_stream] is [connection->stream() != 0]. *)
Definition OnConnectionDestroyed (pc : ProtocolConnection) (has_stream : bool)
    (c : t) : t :=
  if has_stream then
    match StdMap.find (pc_instance_id pc) (connections_ c) with
    | None => c
    | Some d =>
        set_connections
          (StdMap.assign (pc_instance_id pc)
             (mkData (connection d) (DropProtocolConnection (delegate d) (pc_id pc)))
             (connections_ c)) c
    end
  else c.

(** [OnIncomingStream]: the connection is reset at once, which runs the
    destructor of a protocol connection that has a stream. *)
Definition OnIncomingStream (pc : ProtocolConnection) (c : t) : t :=
  OnConnectionDestroyed pc true c.

Definition OnConnectionClosed (instance_number : Z) (c : t) : t :=
  match StdMap.find instance_number (connections_ c) with
  | None => c
  | Some _ =>
      set_instance_request_ids
        (ResetRequestId (instance_request_ids_ c) instance_number)
        (set_delete_connections (delete_connections_ c ++ [instance_number]) c)
  end.

Definition OnDataReceived (instance_number protocol_connection_id : Z)
    (bytes : list Z) (c : t) : t :=
  emit [OnStreamData instance_number protocol_connection_id bytes] c.

Definition OnReceiverAdded (i : ServiceInfo) (c : t) : t :=
  set_instance_infos
    (StdMap.emplace (instance_id i) (info i) (instance_infos_ c)) c.

Definition OnReceiverChanged (i : ServiceInfo) (c : t) : t :=
  set_instance_infos
    (StdMap.assign (instance_id i) (info i) (instance_infos_ c)) c.

Definition OnReceiverRemoved (i : ServiceInfo) (c : t) : t :=
  set_instance_infos (StdMap.erase (instance_id i) (instance_infos_ c)) c.

Definition OnAllReceiversRemoved (c : t) : t := set_instance_infos [] c.

(** [std::remove_if] followed by [erase] on the callbacks vector. *)
Definition remove_request (request_id : Z) (waiters : list (Z * Z))
    : list (Z * Z) :=
  filter (fun callback => negb (request_id =? fst callback)) waiters.

(** The loop of [CancelConnectRequest] from the entry at the head of
    [entries] on: the entries as the loop leaves them. *)
Fixpoint cancel_loop (request_id : Z)
    (entries : list (string * PendingConnectionData))
    : list (string * PendingConnectionData) :=
  match entries with
  | [] => []
  | (name, pending) :: rest =>
      let size_before_delete := List.length (callbacks pending) in
      let waiters := remove_request request_id (callbacks pending) in
      match waiters with
      | [] => rest
      | _ :: _ =>
          if (List.length waiters <? size_before_delete)%nat
          then (name, mkPending (data pending) waiters) :: rest
          else (name, mkPending (data pending) waiters)
               :: cancel_loop request_id rest
      end
  end.

Definition CancelConnectRequest (request_id : Z) (c : t) : t :=
  set_pending_connections (cancel_loop request_id (pending_connections_ c)) c.

(** ** Runs of the client *)

(** One call into the client, from the embedder, the discovery listener,
    the QUIC layer or the cleanup alarm. *)
Inductive Op :=
| OpStart
| OpStop
| OpCleanup
| OpConnect (instance_id : string) (request_callback : Z)
            (factory_result : option QuicConnection)
| OpCreateProtocolConnection (instance_number : Z)
| OpOnConnectionDestroyed (pc : ProtocolConnection) (has_stream : bool)
| OpOnCryptoHandshakeComplete (instance_id : string)
| OpOnIncomingStream (pc : ProtocolConnection)
| OpOnConnectionClosed (instance_number : Z)
| OpOnDataReceived (instance_number protocol_connection_id : Z)
                   (bytes : list Z)
| OpOnReceiverAdded (i : ServiceInfo)
| OpOnReceiverChanged (i : ServiceInfo)
| OpOnReceiverRemoved (i : ServiceInfo)
| OpOnAllReceiversRemoved
| OpCancelConnectRequest (request_id : Z).

(** The state after one call; [None] when an [OSP_CHECK] aborts. *)
Definition step (o : Op) (c : t) : option t :=
  match o with
  | OpStart => Some (snd (Start c))
  | OpStop => Some (snd (Stop c))
  | OpCleanup => Some (Cleanup c)
  | OpConnect name cb fr =>
      match Connect name cb fr c with
      | None => None
      | Some (_, _, c') => Some c'
      end
  | OpCreateProtocolConnection n => Some (snd (CreateProtocolConnection n c))
  | OpOnConnectionDestroyed pc hs => Some (OnConnectionDestroyed pc hs c)
  | OpOnCryptoHandshakeComplete name =>
      Some (snd (OnCryptoHandshakeComplete name c))
  | OpOnIncomingStream pc => Some (OnIncomingStream pc c)
  | OpOnConnectionClosed n => Some (OnConnectionClosed n c)
  | OpOnDataReceived n p b => Some (OnDataReceived n p b c)
  | OpOnReceiverAdded i => Some (OnReceiverAdded i c)
  | OpOnReceiverChanged i => Some (OnReceiverChanged i c)
  | OpOnReceiverRemoved i => Some (OnReceiverRemoved i c)
  | OpOnAllReceiversRemoved => Some (OnAllReceiversRemoved c)
  | OpCancelConnectRequest r => Some (CancelConnectRequest r c)
  end.

Fixpoint run (ops : list Op) (c : t) : option t :=
  match ops with
  | [] => Some c
  | o :: rest =>
      match step o c with
      | None => None
      | Some c' => run rest c'
      end
  end.

(** The instance number a call issues: the result of a handshake
    completion that found its pending entry. *)
Definition issued (o : Op) (c : t) : list Z :=
  match o with
  | OpOnCryptoHandshakeComplete name =>
      match StdMap.find name (pending_connections_ c) with
      | None => []
      | Some _ => [fst (OnCryptoHandshakeComplete name c)]
      end
  | _ => []
  end.

(** The instance numbers issued along a run, in order of issue. *)
Fixpoint issued_ids (ops : list Op) (c : t) : list Z :=
  match ops with
  | [] => []
  | o :: rest =>
      issued o c ++
      match step o c with
      | None => []
      | Some c' => issued_ids rest c'
      end
  end.

End QuicClient.

(** ** [QuicServer] (the revision of osp/impl/quic/quic_server.cc that
    defines [Start], [Stop], [Suspend] and [Resume] itself, with the
    members declared in quic_server.h) *)

Module QuicServer.

(** The endpoint state of a server, which adds [kSuspended]. *)
Inductive State := kStopped | kStarting | kRunning | kStopping | kSuspended.

Record t := mk {
  state_ : State;
  pending_connection_delegate_ : option ServiceConnectionDelegate;
  instance_map_ : list (string * Z);
  next_instance_id_ : Z;
  pending_connections_ : list (string * ServiceConnectionData);
  connections_ : list (Z * ServiceConnectionData);
  delete_connections_ : list Z;
  instance_request_ids_ : InstanceRequestIds;
  trace : list Event
}.

(** A freshly constructed server: [state_] starts as [kStopped] and
    [next_instance_id_] as [1u]. *)
Definition init : t := mk kStopped None [] 1 [] [] [] (mkIds []) [].

Definition set_state (s : State) (c : t) : t :=
  mk s (pending_connection_delegate_ c) (instance_map_ c)
     (next_instance_id_ c) (pending_connections_ c) (connections_ c)
     (delete_connections_ c) (instance_request_ids_ c) (trace c).

Definition emit (evs : list Event) (c : t) : t :=
  mk (state_ c) (pending_connection_delegate_ c) (instance_map_ c)
     (next_instance_id_ c) (pending_connections_ c) (connections_ c)
     (delete_connections_ c) (instance_request_ids_ c) (trace c ++ evs).

Definition set_connections (x : list (Z * ServiceConnectionData)) (c : t) : t :=
  mk (state_ c) (pending_connection_delegate_ c) (instance_map_ c)
     (next_instance_id_ c) (pending_connections_ c) x
     (delete_connections_ c) (instance_request_ids_ c) (trace c).

Definition destroy_closed (entry : Z * ServiceConnectionData)
    : Z * ServiceConnectionData :=
  (fst entry,
   mkData (connection (snd entry)) (DestroyClosedStreams (delegate (snd entry)))).

Definition erase_all (ids : list Z) (m : list (Z * ServiceConnectionData))
    : list (Z * ServiceConnectionData) :=
  fold_left (fun acc instance_id => StdMap.erase instance_id acc) ids m.

Definition Cleanup (c : t) : t :=
  let conns := erase_all (delete_connections_ c)
                         (map destroy_closed (connections_ c)) in
  let c1 := mk (state_ c) (pending_connection_delegate_ c) (instance_map_ c)
               (next_instance_id_ c) (pending_connections_ c) conns
               [] (instance_request_ids_ c) (trace c) in
  match state_ c1 with
  | kStopped => c1
  | _ => emit [ScheduleCleanup] c1
  end.

Definition close_entry {K : Type} (entry : K * ServiceConnectionData) : Event :=
  ConnectionClose (conn_handle (connection (snd entry))).

Definition CloseAllConnections (c : t) : t :=
  mk (state_ c) (pending_connection_delegate_ c) [] 1 [] []
     (delete_connections_ c) (Reset (instance_request_ids_ c))
     (trace c ++ map close_entry (pending_connections_ c)
              ++ map close_entry (connections_ c)).

Definition Start (c : t) : bool * t :=
  match state_ c with
  | kStopped =>
      (true,
       emit [OnRunning]
         (Cleanup (emit [SetServerDelegate true] (set_state kRunning c))))
  | _ => (false, c)
  end.

Definition Stop (c : t) : bool * t :=
  match state_ c with
  | kRunning | kSuspended =>
      (true,
       emit [OnStopped]
         (Cleanup (set_state kStopped
                     (CloseAllConnections (emit [SetServerDelegate false] c)))))
  | _ => (false, c)
  end.

Definition Suspend (c : t) : bool * t :=
  match state_ c with
  | kRunning => (true, emit [OnSuspended] (set_state kSuspended c))
  | _ => (false, c)
  end.

Definition Resume (c : t) : bool * t :=
  match state_ c with
  | kSuspended => (true, emit [OnRunning] (set_state kRunning c))
  | _ => (false, c)
  end.

Definition CreateProtocolConnection (instance_id : Z) (c : t)
    : option ProtocolConnection * t :=
  match state_ c with
  | kRunning =>
      match StdMap.find instance_id (connections_ c) with
      | None => (None, c)
      | Some d =>
          let '(pc, d') := FromExisting d instance_id in
          (Some pc,
           set_connections (StdMap.assign instance_id d' (connections_ c)) c)
      end
  | _ => (None, c)
  end.

(** [OnCryptoHandshakeComplete]; [None] when
    [OSP_CHECK_EQ(state_, State::kRunning)] fails. *)
Definition OnCryptoHandshakeComplete (instance_name : string) (c : t)
    : option (Z * t) :=
  match state_ c with
  | kRunning =>
      match StdMap.find instance_name (pending_connections_ c) with
      | None => Some (0, c)
      | Some connection_data =>
          let instance_id := next_instance_id_ c in
          Some (instance_id,
                mk (state_ c) (pending_connection_delegate_ c)
                   (StdMap.assign instance_name instance_id (instance_map_ c))
                   (incr64 instance_id)
                   (StdMap.erase instance_name (pending_connections_ c))
                   (StdMap.emplace instance_id connection_data (connections_ c))
                   (delete_connections_ c) (instance_request_ids_ c) (trace c))
      end
  | _ => None
  end.

Definition OnIncomingStream (pc : ProtocolConnection) (c : t) : option t :=
  match state_ c with
  | kRunning => Some (emit [OnIncomingConnection pc] c)
  | _ => None
  end.

Definition OnConnectionClosed (instance_id : Z) (c : t) : option t :=
  match state_ c with
  | kRunning =>
      match StdMap.find instance_id (connections_ c) with
      | None => Some c
      | Some _ =>
          Some (mk (state_ c) (pending_connection_delegate_ c)
                   (instance_map_ c) (next_instance_id_ c)
                   (pending_connections_ c) (connections_ c)
                   (delete_connections_ c ++ [instance_id])
                   (ResetRequestId (instance_request_ids_ c) instance_id)
                   (trace c))
      end
  | _ => None
  end.

(** [NextConnectionDelegate]; [source] is [source.ToString()]. *)
Definition NextConnectionDelegate (source : string) (c : t) : option t :=
  match state_ c, pending_connection_delegate_ c with
  | kRunning, None =>
      Some (mk (state_ c) (Some (mkDelegate source [] [])) (instance_map_ c)
               (next_instance_id_ c) (pending_connections_ c) (connections_ c)
               (delete_connections_ c) (instance_request_ids_ c) (trace c))
  | _, _ => None
  end.

(** [OnIncomingConnection]; a null [pending_connection_delegate_] is
    dereferenced by the source and gives [None] here. *)
Definition OnIncomingConnection (conn : QuicConnection) (c : t) : option t :=
  match state_ c, pending_connection_delegate_ c with
  | kRunning, Some d =>
      Some (mk (state_ c) None (instance_map_ c) (next_instance_id_ c)
               (StdMap.emplace (instance_name_ d) (mkData conn d)
                  (pending_connections_ c))
               (connections_ c) (delete_connections_ c)
               (instance_request_ids_ c) (trace c))
  | _, _ => None
  end.

(** [OnConnectionDestroyed]; [has_stream] is [connection->stream() != 0]. *)
Definition OnConnectionDestroyed (pc : ProtocolConnection) (has_stream : bool)
    (c : t) : t :=
  if has_stream then
    match StdMap.find (pc_instance_id pc) (connections_ c) with
    | None => c
    | Some d =>
        set_connections
          (StdMap.assign (pc_instance_id pc)
             (mkData (connection d)
                     (DropProtocolConnection (delegate d) (pc_id pc)))
             (connections_ c)) c
    end
  else c.

(** [OnDataReceived]; [None] when [OSP_CHECK_EQ(state_, State::kRunning)]
    fails. *)
Definition OnDataReceived (instance_id protocol_connection_id : Z)
    (bytes : list Z) (c : t) : option t :=
  match state_ c with
  | kRunning =>
      Some (emit [OnStreamData instance_id protocol_connection_id bytes] c)
  | _ => None
  end.

End QuicServer.

(** ** SPAKE2 authentication (osp/public/authentication_base.cc,
    osp/public/authentication_bob.cc) *)

Module Authentication.

(** [std::array<uint8_t, 64>]. *)
Definition array64 : Type := { l : list byte | List.length l = 64%nat }.

Definition bytes_of (a : array64) : list byte := proj1_sig a.

(** The value-initialised array of [shared_key = {}]. *)
Definition zero64 : array64 := exist _ (repeat x00 64) eq_refl.

(** [Error::Code], the codes the authentication uses. *)
Inductive ErrorCode :=
| kNoActiveConnection
| kCborIncompleteMessage
| kCborParsing
| kInvalidAnswer.

(** [Error]: a code and a message; an [Error] made from a code alone has
    the empty message. *)
Record Error := mkError { code : ErrorCode; message : string }.

(** [ErrorOr<size_t>]. *)
Inductive ErrorOr := Value (n : Z) | Failure (c : ErrorCode).

Inductive AuthSpake2PskStatus := kPskNeedsPresentation | kPskShown | kPskInput.

Inductive AuthStatusResult := kAuthenticated | kProofInvalid | kUnknownError.

Record AuthInitiationToken := mkToken { has_token : bool; token : string }.

Record AuthSpake2Handshake := mkHandshake {
  initiation_token : AuthInitiationToken;
  psk_status : AuthSpake2PskStatus;
  public_value : list byte
}.

(** [confirmation_value] is a [std::array<uint8_t, 64>]: the consumer
    initialises the member from the array that [ComputeSharedKey] returns,
    and the message schema gives it as a byte string of size 64. *)
Record AuthSpake2Confirmation := mkConfirmation {
  confirmation_value : array64
}.

Record AuthStatus := mkStatus { result : AuthStatusResult }.

(** [msgs::Type]: the three authentication messages, and any other tag. *)
Inductive Type_ :=
| kAuthSpake2Handshake
| kAuthSpake2Confirmation
| kAuthStatus
| kOtherType (tag : Z).

(** [NID_X9_62_prime256v1], the OpenSSL identifier of NIST P-256. *)
Definition NID_X9_62_prime256v1 : Z := 415.

(** What the authentication code calls outside this repository's sources:
    the generated CBOR decoders of osp/msgs (each returns the [ssize_t]
    result and the decoded message) and the generated [operator<<] of
    [AuthStatusResult], [base64::Decode] of util/base64, and
    the OpenSSL primitives, each on the curve named by its first argument.
    [ECDH_compute_key nid out_len pub priv] gives the [int] result and the
    contents of the output buffer; [SHA512] is the digest of the bytes fed
    to [SHA512_Update] between [SHA512_Init] and [SHA512_Final]. *)
Class Externals := {
  point : Type;
  kParserEOF : Z;
  DecodeAuthSpake2Handshake : list byte -> Z * AuthSpake2Handshake;
  DecodeAuthSpake2Confirmation : list byte -> Z * AuthSpake2Confirmation;
  DecodeAuthStatus : list byte -> Z * AuthStatus;
  AuthStatusResult_text : AuthStatusResult -> string;
  base64_Decode : string -> list byte;
  EC_KEY_set_private_key : Z -> Z -> bool;
  EC_POINT_mul : Z -> Z -> option point;
  i2o_ECPublicKey : Z -> point -> list byte;
  o2i_ECPublicKey : Z -> list byte -> option point;
  ECDH_compute_key : Z -> Z -> point -> Z -> Z * list byte;
  SHA512 : list byte -> array64
}.

(** Calls that leave the authentication object: the delegate and the
    messages written to the sender connection. *)
Inductive Event :=
| OnAuthenticationSucceed (instance_id : Z)
| OnAuthenticationFailed (instance_id : Z) (error : Error)
| WriteHandshake (m : AuthSpake2Handshake)
| WriteConfirmation (m : AuthSpake2Confirmation)
| WriteStatus (m : AuthStatus).

(** [AuthenticationData]. *)
Record AuthenticationData := mkAuthData {
  sender : option ProtocolConnection;
  receiver : option ProtocolConnection;
  auth_token : string;
  password : string;
  shared_key : array64
}.

(** [AuthenticationBob] with the members of [AuthenticationBase]. *)
Record t := mk {
  instance_id_ : Z;
  fingerprint_ : string;
  auth_data_ : AuthenticationData;
  trace : list Event
}.

Definition emit (evs : list Event) (a : t) : t :=
  mk (instance_id_ a) (fingerprint_ a) (auth_data_ a) (trace a ++ evs).

Definition set_shared_key (k : array64) (a : t) : t :=
  mk (instance_id_ a) (fingerprint_ a)
     (mkAuthData (sender (auth_data_ a)) (receiver (auth_data_ a))
                 (auth_token (auth_data_ a)) (password (auth_data_ a)) k)
     (trace a).

(** [BN_bin2bn]: the big-endian value of a byte string. *)
Definition BN_bin2bn (bytes : list byte) : Z :=
  fold_left (fun acc b => acc * 256 + Z.of_N (Byte.to_N b)) bytes 0.

(** [std::equal(first1, last1, first2)]: the first range against as many
    elements from [first2] on.  The last case reads past the end of the
    second range and does not arise between two arrays of one size. *)
Fixpoint std_equal (range1 range2 : list byte) : bool :=
  match range1, range2 with
  | [], _ => true
  | x :: range1', y :: range2' => Byte.eqb x y && std_equal range1' range2'
  | _ :: _, [] => false
  end.

Section WithExternals.
Context {ext : Externals}.

(** [ComputePrivateKey]: the bytes [base64::Decode] leaves in the vector;
    its [bool] result is not looked at. *)
Definition ComputePrivateKey (fingerprint : string) : list byte :=
  base64_Decode fingerprint.

(** [ComputePublicValue]; [None] when an [OSP_CHECK] fails. *)
Definition ComputePublicValue (self_private_key : list byte)
    : option (list byte) :=
  let private_bn := BN_bin2bn self_private_key in
  if EC_KEY_set_private_key NID_X9_62_prime256v1 private_bn then
    match EC_POINT_mul NID_X9_62_prime256v1 private_bn with
    | None => Some []
    | Some pt =>
        let public_value := i2o_ECPublicKey NID_X9_62_prime256v1 pt in
        if (0 <? List.length public_value)%nat then Some public_value else None
    end
  else None.

(** [ComputeSharedKey]; [None] when an [OSP_CHECK] fails, and when
    [SHA512_Update] is asked for more than the 32 bytes of
    [shared_key_data].  [secret_length] is the [int] result converted to
    [size_t]. *)
Definition ComputeSharedKey (self_private_key peer_public_value : list byte)
    (password : string) : option array64 :=
  let private_bn := BN_bin2bn self_private_key in
  if EC_KEY_set_private_key NID_X9_62_prime256v1 private_bn then
    match o2i_ECPublicKey NID_X9_62_prime256v1 peer_public_value with
    | None => None
    | Some peer =>
        let '(ret, shared_key_data) :=
          ECDH_compute_key NID_X9_62_prime256v1 32 peer private_bn in
        let secret_length := wrap64 ret in
        if 0 <? secret_length then
          if secret_length <=? 32 then
            Some (SHA512 (firstn (Z.to_nat secret_length) shared_key_data
                          ++ list_byte_of_string password))
          else None
        else None
    end
  else None.

(** [AuthenticationBob::StartAuthentication]. *)
Definition StartAuthentication (a : t) : option t :=
  match sender (auth_data_ a) with
  | None =>
      Some (emit [OnAuthenticationFailed (instance_id_ a)
                    (mkError kNoActiveConnection EmptyString)] a)
  | Some _ =>
      match ComputePublicValue (ComputePrivateKey (fingerprint_ a)) with
      | None => None
      | Some pv =>
          Some (emit [WriteHandshake
                        (mkHandshake (mkToken true (auth_token (auth_data_ a)))
                                     kPskNeedsPresentation pv)] a)
      end
  end.

(** The [kAuthSpake2Handshake] case of [OnStreamMessage]. *)
Definition on_handshake (instance_id : Z) (buffer : list byte) (a : t)
    : option (ErrorOr * t) :=
  let '(result, handshake) := DecodeAuthSpake2Handshake buffer in
  if result <? 0 then
    if result =? kParserEOF then Some (Failure kCborIncompleteMessage, a)
    else
      Some (Failure kCborParsing,
            emit [OnAuthenticationFailed instance_id
                    (mkError kCborParsing
                       "Failed to parse AuthSpake2Handshake message.")] a)
  else
    let initiation_token := initiation_token handshake in
    if negb (has_token initiation_token)
       || negb (String.eqb (token initiation_token) (auth_token (auth_data_ a)))
    then
      Some (Value result,
            emit [OnAuthenticationFailed instance_id
                    (mkError kInvalidAnswer
                       "Authentication failed: initiation token mismatch.")] a)
    else
      match psk_status handshake with
      | kPskShown =>
          match ComputeSharedKey (ComputePrivateKey (fingerprint_ a))
                  (public_value handshake) (password (auth_data_ a)) with
          | None => None
          | Some key =>
              let a1 := set_shared_key key a in
              match ComputePublicValue (ComputePrivateKey (fingerprint_ a1)) with
              | None => None
              | Some pv =>
                  Some (Value result,
                        emit [WriteHandshake
                                (mkHandshake
                                   (mkToken true (token initiation_token))
                                   kPskInput pv)] a1)
              end
          end
      | kPskInput =>
          match ComputeSharedKey (ComputePrivateKey (fingerprint_ a))
                  (public_value handshake) (password (auth_data_ a)) with
          | None => None
          | Some key =>
              Some (Value result,
                    emit [WriteConfirmation (mkConfirmation key)] a)
          end
      | kPskNeedsPresentation =>
          Some (Value result,
                emit [OnAuthenticationFailed instance_id
                        (mkError kInvalidAnswer
                           "Authentication failed: receive wrong PSK status.")]
                     a)
      end.

(** The [kAuthSpake2Confirmation] case of [OnStreamMessage]. *)
Definition on_confirmation (instance_id : Z) (buffer : list byte) (a : t)
    : option (ErrorOr * t) :=
  let '(result, confirmation) := DecodeAuthSpake2Confirmation buffer in
  if result <? 0 then
    if result =? kParserEOF then Some (Failure kCborIncompleteMessage, a)
    else
      Some (Failure kCborParsing,
            emit [OnAuthenticationFailed instance_id
                    (mkError kCborParsing
                       "Failed to parse AuthSpake2Confirmation message.")] a)
  else if std_equal (bytes_of (shared_key (auth_data_ a)))
                    (bytes_of (confirmation_value confirmation))
  then
    Some (Value result,
          emit [WriteStatus (mkStatus kAuthenticated);
                OnAuthenticationSucceed instance_id] a)
  else
    Some (Value result,
          emit [WriteStatus (mkStatus kProofInvalid);
                OnAuthenticationFailed instance_id
                  (mkError kInvalidAnswer
                     "Authentication failed: shared key mismatch.")] a).

(** The [kAuthStatus] case of [OnStreamMessage]. *)
Definition on_status (instance_id : Z) (buffer : list byte) (a : t)
    : option (ErrorOr * t) :=
  let '(result, status) := DecodeAuthStatus buffer in
  if result <? 0 then
    if result =? kParserEOF then Some (Failure kCborIncompleteMessage, a)
    else
      Some (Failure kCborParsing,
            emit [OnAuthenticationFailed instance_id
                    (mkError kCborParsing
                       "Failed to parse AuthStatus message.")] a)
  else
    match Authentication.result status with
    | kAuthenticated =>
        Some (Value result, emit [OnAuthenticationSucceed instance_id] a)
    | r =>
        Some (Value result,
              emit [OnAuthenticationFailed instance_id
                      (mkError kInvalidAnswer
                         ("Authentication failed: " ++ AuthStatusResult_text r))] a)
    end.

(** [AuthenticationBob::OnStreamMessage]; [None] when an [OSP_CHECK]
    aborts. *)
Definition OnStreamMessage (instance_id connection_id : Z)
    (message_type : Type_) (buffer : list byte) (a : t)
    : option (ErrorOr * t) :=
  if negb (instance_id_ a =? instance_id) then None
  else
    match sender (auth_data_ a) with
    | None =>
        Some (Failure kNoActiveConnection,
              emit [OnAuthenticationFailed instance_id
                      (mkError kNoActiveConnection EmptyString)] a)
    | Some _ =>
        match message_type with
        | kAuthSpake2Handshake => on_handshake instance_id buffer a
        | kAuthSpake2Confirmation => on_confirmation instance_id buffer a
        | kAuthStatus => on_status instance_id buffer a
        | kOtherType _ =>
            Some (Failure kCborParsing,
                  emit [OnAuthenticationFailed instance_id
                          (mkError kCborParsing
                             "Receives authentication message with unprocessable type.")]
                       a)
        end
    end.

End WithExternals.

(** [needle] occurs in [hay]. *)
Fixpoint occurs_in (needle hay : string) : bool :=
  String.prefix needle hay
  || match hay with
     | EmptyString => false
     | String _ hay' => occurs_in needle hay'
     end.

End Authentication.

(** ** Reading through a [ByteView] (platform/base/byte_view.h) *)

Module ByteViewAccess.

(** The memory a view points into: the byte at each address. *)
Definition Memory : Type := Z -> byte.

(** [operator[](idx)]: [assert(idx < count_)], then [*(data_ + idx)]. *)
Definition index (mem : Memory) (v : ByteView.t) (idx : Z) : option byte :=
  if idx <? ByteView.count_ v then Some (mem (ByteView.data_ v + idx))
  else None.

Definition begin_ (v : ByteView.t) : Z := ByteView.data_ v.
Definition end_ (v : ByteView.t) : Z := ByteView.data_ v + ByteView.count_ v.

(** The bytes between [begin()] and [end()], in order. *)
Definition bytes (mem : Memory) (v : ByteView.t) : list byte :=
  map (fun i => mem (ByteView.data_ v + Z.of_nat i))
      (seq 0 (Z.to_nat (ByteView.count_ v))).

End ByteViewAccess.

(** ** The stream callbacks of [ServiceConnectionDelegate] and the
    [QuicProtocolConnection] objects (osp/impl/quic/quic_service_common.cc) *)

(** Two [QuicProtocolConnection] objects are told apart by instance id and
    protocol connection id, which name one stream of one connection. *)
Definition ProtocolConnection_eqb (a b : ProtocolConnection) : bool :=
  (pc_instance_id a =? pc_instance_id b) && (pc_id a =? pc_id b).

Module StreamDelegate.

(** The calls a delegate makes: on its [parent_] (the client or server) and
    on the protocol connection object a stream pair points to. *)
Inductive Call :=
| Parent_OnDataReceived (instance_id protocol_connection_id : Z)
                        (bytes : list Z)
| Parent_OnIncomingStream (pc : ProtocolConnection)
| Parent_OnConnectionClosed (instance_id : Z)
| Connection_set_stream (pc : ProtocolConnection) (stream : option Z)
| Connection_OnClose (pc : ProtocolConnection).

(** A [ServiceConnectionDelegate] with the members its QUIC callbacks use:
    [members] holds [instance_name_], [streams_] and [closed_streams_];
    [pending_connection_] is the protocol connection made for the next
    incoming stream. *)
Record t := mk {
  members : ServiceConnectionDelegate;
  instance_id_ : Z;
  pending_connection_ : option ProtocolConnection;
  calls : list Call
}.

Definition emit (cs : list Call) (d : t) : t :=
  mk (members d) (instance_id_ d) (pending_connection_ d) (calls d ++ cs).

(** [OnCryptoHandshakeComplete]; [parent_result] is what
    [parent_.OnCryptoHandshakeComplete(this)] returns. *)
Definition OnCryptoHandshakeComplete (parent_result : Z) (d : t) : t :=
  mk (members d) parent_result (pending_connection_ d) (calls d).

(** [NextStreamDelegate(stream_id)]; [None] when
    [OSP_CHECK(!pending_connection_)] fails. *)
Definition NextStreamDelegate (stream_id : Z) (d : t) : option t :=
  match pending_connection_ d with
  | Some _ => None
  | None =>
      Some (mk (members d) (instance_id_ d)
               (Some (mkPC (instance_id_ d) stream_id)) (calls d))
  end.

(** [OnIncomingStream(stream)]; a null [pending_connection_] is
    dereferenced by the source and gives [None] here. *)
Definition OnIncomingStream (stream : Z) (d : t) : option t :=
  match pending_connection_ d with
  | None => None
  | Some pc =>
      Some (mk (AddStreamPair (members d) (mkPair stream (pc_id pc) (Some pc)))
               (instance_id_ d) None
               (calls d ++ [Connection_set_stream pc (Some stream);
                            Parent_OnIncomingStream pc]))
  end.

Definition OnConnectionClosed (d : t) : t :=
  emit [Parent_OnConnectionClosed (instance_id_ d)] d.

(** [OnReceived(stream, bytes)]; [stream] is [stream->GetStreamId()]. *)
Definition OnReceived (stream : Z) (bytes : list Z) (d : t) : t :=
  match StdMap.find stream (streams_ (members d)) with
  | None => d
  | Some stream_pair =>
      emit [Parent_OnDataReceived (instance_id_ d)
              (protocol_connection_id stream_pair) bytes] d
  end.

(** [OnClose(stream_id)]: the empty [ByteView] is the empty list. *)
Definition OnClose (stream_id : Z) (d : t) : t :=
  match StdMap.find stream_id (streams_ (members d)) with
  | None => d
  | Some stream_pair =>
      mk (mkDelegate (instance_name_ (members d))
            (StdMap.erase stream_id (streams_ (members d)))
            (closed_streams_ (members d) ++ [stream_pair]))
         (instance_id_ d) (pending_connection_ d)
         (calls d
          ++ [Parent_OnDataReceived (instance_id_ d)
                (protocol_connection_id stream_pair) []]
          ++ match protocol_connection stream_pair with
             | Some pc => [Connection_set_stream pc None; Connection_OnClose pc]
             | None => []
             end)
  end.

(** The protocol connection object a call is made on. *)
Definition target (call : Call) : option ProtocolConnection :=
  match call with
  | Connection_set_stream pc _ => Some pc
  | Connection_OnClose pc => Some pc
  | _ => None
  end.

(** The callbacks the QUIC layer makes for the streams of a connection. *)
Inductive Op :=
| OpOnReceived (stream : Z) (bytes : list Z)
| OpOnClose (stream_id : Z).

Definition step (o : Op) (d : t) : t :=
  match o with
  | OpOnReceived stream bytes => OnReceived stream bytes d
  | OpOnClose stream_id => OnClose stream_id d
  end.

Definition run (ops : list Op) (d : t) : t :=
  fold_left (fun acc o => step o acc) ops d.

End StreamDelegate.

Module QuicProtocolConnection.

(** The calls a protocol connection makes: on its stream, its owner (the
    client or server) and its observer. *)
Inductive Call :=
| Stream_Write (stream : Z) (bytes : list Z)
| Stream_CloseWriteEnd (stream : Z)
| Owner_OnConnectionDestroyed (pc : ProtocolConnection)
| Observer_OnConnectionClosed (observer : Z) (pc : ProtocolConnection).

(** A [QuicProtocolConnection]: the ids of [self], the stream it writes to
    and the observer, both nullable. *)
Record t := mk {
  self : ProtocolConnection;
  stream_ : option Z;
  observer_ : option Z;
  calls : list Call
}.

Definition emit (cs : list Call) (o : t) : t :=
  mk (self o) (stream_ o) (observer_ o) (calls o ++ cs).

Definition set_stream (stream : option Z) (o : t) : t :=
  mk (self o) stream (observer_ o) (calls o).

(** [ProtocolConnection::SetObserver]; [None] when
    [OSP_CHECK(!observer_ || !observer)] fails. *)
Definition SetObserver (observer : option Z) (o : t) : option t :=
  match observer_ o, observer with
  | Some _, Some _ => None
  | _, _ => Some (mk (self o) (stream_ o) observer (calls o))
  end.

Definition Write (bytes : list Z) (o : t) : t :=
  match stream_ o with
  | Some stream => emit [Stream_Write stream bytes] o
  | None => o
  end.

Definition CloseWriteEnd (o : t) : t :=
  match stream_ o with
  | Some stream => emit [Stream_CloseWriteEnd stream] o
  | None => o
  end.

Definition OnClose (o : t) : t :=
  match observer_ o with
  | Some observer => emit [Observer_OnConnectionClosed observer (self o)] o
  | None => o
  end.

(** [~QuicProtocolConnection]. *)
Definition destroy (o : t) : t :=
  match stream_ o with
  | Some stream =>
      set_stream None
        (emit [Stream_CloseWriteEnd stream; Owner_OnConnectionDestroyed (self o)]
              o)
  | None => o
  end.

(** A call of the delegate arrives at the object it is made on. *)
Definition deliver (call : StreamDelegate.Call) (o : t) : t :=
  match call with
  | StreamDelegate.Connection_set_stream pc stream =>
      if ProtocolConnection_eqb pc (self o) then set_stream stream o else o
  | StreamDelegate.Connection_OnClose pc =>
      if ProtocolConnection_eqb pc (self o) then OnClose o else o
  | _ => o
  end.

Definition deliver_all (cs : list StreamDelegate.Call) (o : t) : t :=
  fold_left (fun acc call => deliver call acc) cs o.

End QuicProtocolConnection.

(** ** [QuicConnectionFactoryImpl]
    (osp/impl/quic/quic_connection_factory_impl.cc) *)

Module QuicConnectionFactory.

(** An [IPEndpoint], a [UdpSocket*] and a [QuicConnection*] are each named
    by an integer; a dispatcher is named by the socket it was made for. *)
Record OpenConnection := mkOpen {
  connection : Z;
  socket : Z
}.

(** The calls the factory makes on connections and dispatchers. *)
Inductive Call :=
| Connection_OnRead (connection socket : Z) (data : list Z)
| Dispatcher_ProcessPacket (dispatcher source : Z) (data : list Z)
| Connection_Close (connection : Z).

Record t := mk {
  server_delegate_ : bool;
  crypto_client_config_ : bool;
  connections_ : list (Z * OpenConnection);
  sockets_ : list Z;
  dispatchers_ : list (Z * Z);
  calls : list Call
}.

(** The factory after its constructor. *)
Definition init : t := mk false false [] [] [] [].

Definition emit (cs : list Call) (f : t) : t :=
  mk (server_delegate_ f) (crypto_client_config_ f) (connections_ f)
     (sockets_ f) (dispatchers_ f) (calls f ++ cs).

(** The loop of [SetServerDelegate] over the endpoints; [created] holds,
    per endpoint, the socket [UdpSocket::Create] returns, if any. *)
Fixpoint add_server_sockets (created : list (option Z)) (f : t) : t :=
  match created with
  | [] => f
  | None :: rest => add_server_sockets rest f
  | Some server_socket :: rest =>
      add_server_sockets rest
        (mk (server_delegate_ f) (crypto_client_config_ f) (connections_ f)
            (sockets_ f ++ [server_socket])
            (StdMap.emplace server_socket server_socket (dispatchers_ f))
            (calls f))
  end.

(** [SetServerDelegate(delegate, endpoints)]; [delegate] says whether the
    pointer is non-null and [proof_source] whether the checks of
    [CreateProofSource] pass.  [None] when an [OSP_CHECK] fails. *)
Definition SetServerDelegate (delegate : bool) (proof_source : bool)
    (created : list (option Z)) (f : t) : option t :=
  if Bool.eqb (negb delegate) (negb (server_delegate_ f)) then None
  else if negb proof_source then None
  else
    Some (add_server_sockets created
            (mk delegate (crypto_client_config_ f) (connections_ f)
                (sockets_ f) (dispatchers_ f) (calls f))).

(** [OnRead(socket, packet_or_error)]; a packet is its source and its
    data.  [None] when [OSP_CHECK(server_delegate_)] fails and when a null
    dispatcher is dereferenced. *)
Definition OnRead (read_socket : Z) (packet : option (Z * list Z)) (f : t)
    : option t :=
  match packet with
  | None => Some f
  | Some (source, data) =>
      let conn := StdMap.find source (connections_ f) in
      let dispatcher := StdMap.find read_socket (dispatchers_ f) in
      match conn, dispatcher with
      | None, None => Some f
      | _, _ =>
          if match conn with None => true | Some _ => false end
             || server_delegate_ f
          then
            if server_delegate_ f then
              match dispatcher with
              | Some d => Some (emit [Dispatcher_ProcessPacket d source data] f)
              | None => None
              end
            else None
          else
            match conn with
            | Some open => Some (emit [Connection_OnRead (connection open)
                                         read_socket data] f)
            | None => None
            end
      end
  end.

(** [Connect(local_endpoint, remote_endpoint, connection_delegate)];
    [created] is the socket [UdpSocket::Create] returns, [fingerprint]
    whether [AddFingerprint] succeeds and [connection_impl] the new
    connection.  The result is the returned connection, [None] for
    [nullptr]. *)
Definition Connect (remote_endpoint : Z) (created : option Z)
    (fingerprint : bool) (connection_impl : Z) (f : t) : option Z * t :=
  match created with
  | None => (None, f)
  | Some new_socket =>
      if negb (crypto_client_config_ f) && negb fingerprint then (None, f)
      else
        (Some connection_impl,
         mk (server_delegate_ f) true
            (StdMap.emplace remote_endpoint (mkOpen connection_impl new_socket)
               (connections_ f))
            (sockets_ f ++ [new_socket]) (dispatchers_ f) (calls f))
  end.

(** [std::find_if] over [connections_] for the entry of a connection. *)
Fixpoint find_connection (conn : Z) (m : list (Z * OpenConnection))
    : option (Z * OpenConnection) :=
  match m with
  | [] => None
  | entry :: rest =>
      if connection (snd entry) =? conn then Some entry
      else find_connection conn rest
  end.

(** [ContainsIf] over [connections_] for a socket. *)
Definition uses_socket (s : Z) (m : list (Z * OpenConnection)) : bool :=
  existsb (fun entry => socket (snd entry) =? s) m.

(** [sockets_.erase(socket_it)] for the first element equal to [s]. *)
Fixpoint erase_socket (s : Z) (l : list Z) : list Z :=
  match l with
  | [] => []
  | x :: rest => if x =? s then rest else x :: erase_socket s rest
  end.

(** [OnConnectionClosed(connection)]; [None] when an [OSP_CHECK] fails. *)
Definition OnConnectionClosed (conn : Z) (f : t) : option t :=
  match find_connection conn (connections_ f) with
  | None => None
  | Some entry =>
      let s := socket (snd entry) in
      let remaining := StdMap.erase (fst entry) (connections_ f) in
      if uses_socket s remaining then
        Some (mk (server_delegate_ f) (crypto_client_config_ f) remaining
                 (sockets_ f) (dispatchers_ f) (calls f))
      else if existsb (fun x => x =? s) (sockets_ f) then
        Some (mk (server_delegate_ f) (crypto_client_config_ f) remaining
                 (erase_socket s (sockets_ f))
                 (StdMap.erase s (dispatchers_ f)) (calls f))
      else None
  end.

(** [~QuicConnectionFactoryImpl]: every open connection is closed. *)
Definition destroy (f : t) : t :=
  emit (map (fun entry => Connection_Close (connection (snd entry)))
            (connections_ f)) f.

End QuicConnectionFactory.

(** ** Decoder results by message type *)

Module AuthenticationDecode.
Section WithExternals.
Context {ext : Authentication.Externals}.

(** The [ssize_t] result of the decoder [OnStreamMessage] calls for a
    message of type [message_type]; [None] for a type it does not decode. *)
Definition decode_result (message_type : Authentication.Type_)
    (buffer : list byte) : option Z :=
  match message_type with
  | Authentication.kAuthSpake2Handshake =>
      Some (fst (Authentication.DecodeAuthSpake2Handshake buffer))
  | Authentication.kAuthSpake2Confirmation =>
      Some (fst (Authentication.DecodeAuthSpake2Confirmation buffer))
  | Authentication.kAuthStatus =>
      Some (fst (Authentication.DecodeAuthStatus buffer))
  | Authentication.kOtherType _ => None
  end.

End WithExternals.
End AuthenticationDecode.

(** ** [CborEncodeBuffer], the encode buffer that tools/cddl/codegen.cc
    writes into every generated message source *)

Module CborEncodeBuffer.

(** [data_] is a [std::vector<uint8_t>]. *)
Record t := mk {
  max_size_ : Z;
  position_ : Z;
  data_ : list Z
}.

Definition kDefaultInitialEncodeBufferSize : Z := 250.
Definition kDefaultMaxEncodeBufferSize : Z := 64000.

(** [data_.size()]. *)
Definition size (b : t) : Z := Z.of_nat (List.length (data_ b)).

(** [std::vector::resize(n)]: the first [n] elements, then zeros. *)
Definition resize (n : Z) (l : list Z) : list Z :=
  firstn (Z.to_nat n) l ++ repeat 0 (Z.to_nat n - List.length l).

(** [CborEncodeBuffer(initial_size, max_size)]. *)
Definition make (initial_size max_size : Z) : t :=
  mk max_size 1 (repeat 0 (Z.to_nat initial_size)).

(** [CborEncodeBuffer()]. *)
Definition default : t :=
  make kDefaultInitialEncodeBufferSize kDefaultMaxEncodeBufferSize.

(** [Append(length)]; the sums and the difference are taken in
    [size_t]. *)
Definition Append (length : Z) (b : t) : bool * t :=
  if length =? 0 then (false, b)
  else
    let too_long := wrap64 (size b + length) >? max_size_ b in
    let length' := if too_long then wrap64 (max_size_ b - size b) else length in
    if too_long && (length' =? 0) then (false, b)
    else
      let append_area := size b in
      (true,
       mk (max_size_ b) (wrap64 (append_area + 1))
          (resize (wrap64 (append_area + length')) (data_ b))).

(** [ResizeBy(delta)]; [delta] is an [ssize_t], converted to [size_t]
    where the source compares it or adds it to [data_.size()]. *)
Definition ResizeBy (delta : Z) (b : t) : bool * t :=
  if delta =? 0 then (true, b)
  else if (delta <? 0) && (wrap64 (- delta) >? size b) then (false, b)
  else if (0 <? delta) && (wrap64 (size b + delta) >? max_size_ b)
  then (false, b)
  else
    (true,
     mk (max_size_ b) (position_ b)
        (resize (wrap64 (size b + delta)) (data_ b))).




(** The calls an encoder makes on the buffer. *)
Inductive Op :=
| OpAppend (length : Z)
| OpResizeBy (delta : Z).

Definition step (o : Op) (b : t) : t :=
  match o with
  | OpAppend length => snd (Append length b)
  | OpResizeBy delta => snd (ResizeBy delta b)
  end.

Definition run (ops : list Op) (b : t) : t :=
  fold_left (fun acc o => step o acc) ops b.

(** The arguments of an operation fit their C++ types: [size_t] and
    [ssize_t]. *)
Definition fits (o : Op) : Prop :=
  match o with
  | OpAppend length => 0 <= length < two64
  | OpResizeBy delta => - 2 ^ 63 <= delta < 2 ^ 63
  end.

End CborEncodeBuffer.

(** ** Predicates of the statements *)

(** [e] is the call [OnConnectionOpened] made for [waiter] (a request id
    and its callback) with a protocol connection of [instance_number]. *)
Definition opened_as (instance_number : Z) (waiter : Z * Z) (e : Event)
    : Prop :=
  exists pc, e = OnConnectionOpened (snd waiter) (fst waiter) pc
             /\ pc_instance_id pc = instance_number.

(** Every instance number in the client's tables was issued before the
    next one, and the counter has not wrapped. *)
Definition ids_below (c : QuicClient.t) : Prop :=
  1 <= QuicClient.next_instance_number_ c < two64
  /\ Forall (fun k => 1 <= k < QuicClient.next_instance_number_ c)
            (StdMap.keys (QuicClient.connections_ c))
  /\ Forall (fun e => 1 <= snd e < QuicClient.next_instance_number_ c)
            (QuicClient.instance_map_ c).

(** A sequence of issued ids is strictly increasing, free of the invalid
    id 0 and free of repetitions. *)
Definition ids_well_issued (ids : list Z) : Prop :=
  StronglySorted Z.lt ids /\ Forall (fun i => i <> 0) ids /\ NoDup ids.

(** The request ids waiting in a pending table, entry by entry. *)
Definition all_request_ids
    (entries : list (string * QuicClient.PendingConnectionData)) : list Z :=
  flat_map (fun e => map fst (QuicClient.callbacks (snd e))) entries.

(** A pending table with one entry per name, a waiter on every entry and
    no request id twice. *)
Definition pending_ok
    (entries : list (string * QuicClient.PendingConnectionData)) : Prop :=
  NoDup (StdMap.keys entries)
  /\ Forall (fun e => QuicClient.callbacks (snd e) <> []) entries
  /\ NoDup (all_request_ids entries).

(** A pending entry without the request [rid]; [None] when no waiter is
    left. *)
Definition after_cancel (rid : Z) (p : QuicClient.PendingConnectionData)
    : option QuicClient.PendingConnectionData :=
  match QuicClient.remove_request rid (QuicClient.callbacks p) with
  | [] => None
  | w :: ws => Some (QuicClient.mkPending (QuicClient.data p) (w :: ws))
  end.

(** The pending table is well formed and every request id in it was
    issued before the next one; the request-id counter has not wrapped. *)
Definition request_ids_ok (c : QuicClient.t) : Prop :=
  pending_ok (QuicClient.pending_connections_ c)
  /\ 1 <= QuicClient.next_request_id_ c < two64
  /\ Forall (fun r => 1 <= r < QuicClient.next_request_id_ c)
            (all_request_ids (QuicClient.pending_connections_ c)).

(** The request ids that are given [OnConnectionOpened] in a trace. *)
Definition opened_ids (tr : list Event) : list Z :=
  flat_map (fun e => match e with
                     | OnConnectionOpened _ r _ => [r]
                     | _ => []
                     end) tr.

(** Every stream pair that points to a protocol connection is registered
    under that connection's id, as [FromExisting] registers it. *)
Definition pairs_by_id (d : ServiceConnectionDelegate) : Prop :=
  forall k p q,
    StdMap.find k (streams_ d) = Some p ->
    protocol_connection p = Some q ->
    pc_id q = k.

(** ** Scenarios *)

Module Scenario.

(** A receiver "X" as discovery reports it. *)
Definition receiver_X : QuicClient.ServiceInfo :=
  QuicClient.mkServiceInfo "X" (QuicClient.mkInfo "fingerprint" 1 0).

(** The connection the factory hands out, named [handle]. *)
Definition session (handle : Z) : QuicConnection := mkConn handle 0.

(** Discovery of "X", start, and one connect request by callback 100. *)
Definition one_waiter_run : list QuicClient.Op :=
  [QuicClient.OpOnReceiverAdded receiver_X;
   QuicClient.OpStart;
   QuicClient.OpConnect "X" 100 (Some (session 7))].

(** A second connect request to "X", by callback 101, before the
    handshake. *)
Definition two_waiters_run : list QuicClient.Op :=
  one_waiter_run ++ [QuicClient.OpConnect "X" 101 None].

(** A connection to "X" is established, then closed by the QUIC layer and
    removed by the next cleanup. *)
Definition closed_run : list QuicClient.Op :=
  one_waiter_run ++
  [QuicClient.OpOnCryptoHandshakeComplete "X";
   QuicClient.OpOnConnectionClosed 1;
   QuicClient.OpCleanup].

(** A connection to "X" is established, the client is stopped and started
    again, and a new connection to "X" is established. *)
Definition restart_run : list QuicClient.Op :=
  one_waiter_run ++
  [QuicClient.OpOnCryptoHandshakeComplete "X";
   QuicClient.OpStop;
   QuicClient.OpStart;
   QuicClient.OpConnect "X" 101 (Some (session 8));
   QuicClient.OpOnCryptoHandshakeComplete "X"].

(** The client after a run from its initial state. *)
Definition after (ops : list QuicClient.Op) : QuicClient.t :=
  match QuicClient.run ops QuicClient.init with
  | Some c => c
  | None => QuicClient.init
  end.

(** Stand-ins for the external functions, for running the authentication
    code on examples: a decoder reads the token and the PSK status off a
    two-byte buffer, the digest is constant. *)
Definition toy_handshake (buffer : list byte) : Z * Authentication.AuthSpake2Handshake :=
  match buffer with
  | tok :: st :: _ =>
      (2,
       Authentication.mkHandshake
         (Authentication.mkToken true (string_of_list_byte [tok]))
         (if Byte.eqb st x01 then Authentication.kPskShown
          else if Byte.eqb st x02 then Authentication.kPskInput
          else Authentication.kPskNeedsPresentation)
         [])
  | _ =>
      (-1,
       Authentication.mkHandshake (Authentication.mkToken false EmptyString)
         Authentication.kPskNeedsPresentation [])
  end.

Definition ones64 : Authentication.array64 := exist _ (repeat x01 64) eq_refl.

Definition toy_confirmation (buffer : list byte)
    : Z * Authentication.AuthSpake2Confirmation :=
  match buffer with
  | x00 :: _ => (1, Authentication.mkConfirmation Authentication.zero64)
  | _ :: _ => (1, Authentication.mkConfirmation ones64)
  | [] => (-1, Authentication.mkConfirmation Authentication.zero64)
  end.

#[export] Instance toy : Authentication.Externals := {|
  Authentication.point := list byte;
  Authentication.kParserEOF := -1;
  Authentication.DecodeAuthSpake2Handshake := toy_handshake;
  Authentication.DecodeAuthSpake2Confirmation := toy_confirmation;
  Authentication.DecodeAuthStatus :=
    fun _ => (1, Authentication.mkStatus Authentication.kAuthenticated);
  Authentication.AuthStatusResult_text := fun _ => EmptyString;
  Authentication.base64_Decode := list_byte_of_string;
  Authentication.EC_KEY_set_private_key := fun _ _ => true;
  Authentication.EC_POINT_mul := fun _ _ => Some [x04];
  Authentication.i2o_ECPublicKey := fun _ pt => pt;
  Authentication.o2i_ECPublicKey := fun _ bytes => Some bytes;
  Authentication.ECDH_compute_key := fun _ _ _ _ => (32, repeat x02 32);
  Authentication.SHA512 := fun _ => ones64
|}.

(** A consumer with a sender connection, token "T" and password "0000". *)
Definition bob : Authentication.t :=
  Authentication.mk 5 "fingerprint"
    (Authentication.mkAuthData (Some (mkPC 5 0)) None "T" "0000"
       Authentication.zero64)
    [].

(** Discovery of "X" and start, before any connect request. *)
Definition discovered_run : list QuicClient.Op :=
  [QuicClient.OpOnReceiverAdded receiver_X; QuicClient.OpStart].

(** A started server. *)
Definition server : QuicServer.t := snd (QuicServer.Start QuicServer.init).

(** The delegate of instance 1 with the stream 4 open, and the protocol
    connection of that stream, watched by observer 77. *)
Definition stream_delegate : StreamDelegate.t :=
  StreamDelegate.mk
    (mkDelegate "X" [(4, mkPair 4 4 (Some (mkPC 1 4)))] []) 1 None [].

Definition protocol_connection : QuicProtocolConnection.t :=
  QuicProtocolConnection.mk (mkPC 1 4) (Some 4) (Some 77) [].

(** A memory that holds the byte 1 at address 1003 and 0 elsewhere. *)
Definition memory : ByteViewAccess.Memory :=
  fun address => if address =? 1003 then x01 else x00.

(** A factory with one open connection, 21, to the endpoint 8 over the
    socket 31. *)
Definition factory : QuicConnectionFactory.t :=
  QuicConnectionFactory.mk false true
    [(8, QuicConnectionFactory.mkOpen 21 31)] [31] [] [].

(** A connection to "X" is established for one waiter: instance 1, with
    the stream 0 of the session 7 opened for the waiter. *)
Definition established_run : list QuicClient.Op :=
  one_waiter_run ++ [QuicClient.OpOnCryptoHandshakeComplete "X"].

Definition established_record : ServiceConnectionData :=
  mkData (mkConn 7 1)
         (mkDelegate "X" [(0, mkPair 0 0 (Some (mkPC 1 0)))] []).

(** The protocol connection the waiter was given. *)
Definition opened_connection : QuicProtocolConnection.t :=
  QuicProtocolConnection.mk (mkPC 1 0) (Some 0) None [].

(** The consumer after a handshake with its token and status [kPskShown]. *)
Definition bob_after_shown : Authentication.t :=
  match Authentication.OnStreamMessage (ext := toy) 5 0
          Authentication.kAuthSpake2Handshake [x54; x01] bob with
  | Some (_, a) => a
  | None => bob
  end.

End Scenario.

(* ================================================================== *)
(** * Part II.  Properties                                             *)
(* ================================================================== *)

(** ** Facts about [wrap64] and [StdMap] *)

Lemma wrap64_small (x : Z) : is_uint64 x -> wrap64 x = x.
Proof. unfold is_uint64, wrap64. intros Hx. now apply Z.mod_small. Qed.

Lemma incr64_small (x : Z) : 0 <= x -> x + 1 < two64 -> incr64 x = x + 1.
Proof. intros H0 H1. unfold incr64. apply wrap64_small. unfold is_uint64. lia. Qed.

Section StdMapFacts.
Context {K V : Type} `{Key K}.
Implicit Types (k : K) (v : V) (m : list (K * V)).

Lemma key_eqb_refl k : key_eqb k k = true.
Proof. destruct (key_eqb_spec k k); congruence. Qed.

Lemma key_eqb_neq k k' : k <> k' -> key_eqb k k' = false.
Proof. intros Hne. destruct (key_eqb_spec k k'); congruence. Qed.

Lemma find_insert_sorted_eq k v m :
  StdMap.find k m = None -> StdMap.find k (StdMap.insert_sorted k v m) = Some v.
Proof.
  induction m as [|[k' v'] m IH]; simpl; intros Hnone.
  - now rewrite key_eqb_refl.
  - destruct (key_eqb_spec k k') as [->|Hne]; [discriminate|].
    destruct (key_ltb k k'); simpl.
    + now rewrite key_eqb_refl.
    + rewrite (key_eqb_neq _ _ Hne). auto.
Qed.

Lemma find_insert_sorted_ne k k' v m :
  k <> k' -> StdMap.find k' (StdMap.insert_sorted k v m) = StdMap.find k' m.
Proof.
  intros Hne. induction m as [|[k0 v0] m IH]; simpl.
  - rewrite key_eqb_neq; auto.
  - destruct (key_ltb k k0); simpl.
    + rewrite (key_eqb_neq k' k); auto.
    + now rewrite IH.
Qed.

Lemma find_replace_eq k v v0 m :
  StdMap.find k m = Some v0 -> StdMap.find k (StdMap.replace k v m) = Some v.
Proof.
  induction m as [|[k' v'] m IH]; simpl; [discriminate|].
  destruct (key_eqb_spec k k') as [->|Hne]; simpl.
  - now rewrite key_eqb_refl.
  - rewrite (key_eqb_neq _ _ Hne). auto.
Qed.

Lemma find_replace_ne k k' v m :
  k <> k' -> StdMap.find k' (StdMap.replace k v m) = StdMap.find k' m.
Proof.
  intros Hne. induction m as [|[k0 v0] m IH]; simpl; [reflexivity|].
  destruct (key_eqb_spec k k0) as [->|Hne0]; simpl.
  - rewrite key_eqb_neq; auto.
  - now rewrite IH.
Qed.

Lemma keys_replace k v m : StdMap.keys (StdMap.replace k v m) = StdMap.keys m.
Proof.
  unfold StdMap.keys. induction m as [|[k' v'] m IH]; simpl; [reflexivity|].
  destruct (key_eqb k k'); simpl; [reflexivity | now rewrite IH].
Qed.

Lemma find_assign_eq k v m : StdMap.find k (StdMap.assign k v m) = Some v.
Proof.
  unfold StdMap.assign. destruct (StdMap.find k m) eqn:Hf.
  - eapply find_replace_eq; eauto.
  - now apply find_insert_sorted_eq.
Qed.

Lemma find_assign_ne k k' v m :
  k <> k' -> StdMap.find k' (StdMap.assign k v m) = StdMap.find k' m.
Proof.
  intros Hne. unfold StdMap.assign. destruct (StdMap.find k m).
  - now apply find_replace_ne.
  - now apply find_insert_sorted_ne.
Qed.

Lemma find_emplace_absent k v m :
  StdMap.find k m = None -> StdMap.find k (StdMap.emplace k v m) = Some v.
Proof.
  intros Hnone. unfold StdMap.emplace. rewrite Hnone.
  now apply find_insert_sorted_eq.
Qed.

Lemma find_emplace_ne k k' v m :
  k <> k' -> StdMap.find k' (StdMap.emplace k v m) = StdMap.find k' m.
Proof.
  intros Hne. unfold StdMap.emplace. destruct (StdMap.find k m); [reflexivity|].
  now apply find_insert_sorted_ne.
Qed.

Lemma keys_assign_present k v v0 m :
  StdMap.find k m = Some v0 -> StdMap.keys (StdMap.assign k v m) = StdMap.keys m.
Proof.
  intros Hf. unfold StdMap.assign. rewrite Hf. apply keys_replace.
Qed.

Lemma find_erase_eq k m : StdMap.find k (StdMap.erase k m) = None.
Proof.
  induction m as [|[k' v'] m IH]; simpl; [reflexivity|].
  destruct (key_eqb_spec k k') as [->|Hne]; simpl; [assumption|].
  now rewrite (key_eqb_neq _ _ Hne).
Qed.

Lemma find_erase_ne k k' m :
  k <> k' -> StdMap.find k' (StdMap.erase k m) = StdMap.find k' m.
Proof.
  intros Hne. induction m as [|[k0 v0] m IH]; simpl; [reflexivity|].
  destruct (key_eqb_spec k k0) as [->|Hne0]; simpl.
  - rewrite key_eqb_neq; auto.
  - now rewrite IH.
Qed.

Lemma find_Some_In k v m : StdMap.find k m = Some v -> In (k, v) m.
Proof.
  induction m as [|[k' v'] m IH]; simpl; [discriminate|].
  destruct (key_eqb_spec k k') as [->|Hne].
  - intros [= ->]. now left.
  - intros Hf. right. auto.
Qed.

Lemma find_None_not_key k m :
  StdMap.find k m = None <-> ~ In k (StdMap.keys m).
Proof.
  induction m as [|[k' v'] m IH]; simpl.
  - tauto.
  - destruct (key_eqb_spec k k') as [->|Hne].
    + split; [discriminate | intros Hn; exfalso; apply Hn; now left].
    + rewrite IH. split.
      * intros Hn [Heq|Hin]; [congruence | tauto].
      * tauto.
Qed.

End StdMapFacts.

(** ** ByteView *)

(** The unit test's view over "googleplex": [subspan(2, 4)] of ten bytes. *)
Example subspan_googleplex :
  ByteView.subspan (ByteView.mk 1000 10) 2 4 = Some (ByteView.mk 1002 4).
Proof. reflexivity. Qed.

Lemma subspan_accepts_iff (v : ByteView.t) (offset count : Z) :
  ByteView.subspan v offset count <> None
  <-> wrap64 (offset + count) < ByteView.size v.
Proof.
  unfold ByteView.subspan, ByteView.size.
  destruct (Z.ltb_spec (wrap64 (offset + count)) (ByteView.count_ v)).
  - split; [auto | discriminate].
  - split; [congruence | lia].
Qed.

Lemma last_accepts_iff (v : ByteView.t) (count : Z) :
  ByteView.last v count <> None <-> count <= ByteView.size v /\ count <> 0.
Proof.
  unfold ByteView.last, ByteView.size.
  destruct (Z.leb_spec count (ByteView.count_ v));
    destruct (Z.eqb_spec count 0); simpl; split;
    try congruence; try (intros []; lia); try discriminate; intros; lia.
Qed.

Lemma first_accepts_iff (v : ByteView.t) (count : Z) :
  ByteView.first v count <> None <-> count <= ByteView.size v.
Proof.
  unfold ByteView.first, ByteView.size.
  destruct (Z.leb_spec count (ByteView.count_ v)); split;
    try congruence; try discriminate; intros; lia.
Qed.

(** C10.  For every view [v] and every [offset], [count] with
    [offset + count = v.size()], the assertion of [subspan(offset, count)]
    fails, because it demands [offset + count < size()]; a sub-view that
    ends at the last byte is rejected.  [first(size())] is accepted, and so
    is [last(size())] of every view that has a byte ([last] rejects the
    count 0 by its second assertion). *)
Theorem subspan_rejects_exact_end (v : ByteView.t) (offset count : Z) :
  is_uint64 (ByteView.size v) ->
  offset + count = ByteView.size v ->
  ByteView.subspan v offset count = None
  /\ ByteView.first v (ByteView.size v) = Some v
  /\ (ByteView.size v <> 0 -> ByteView.last v (ByteView.size v) = Some v).
Proof.
  intros Hsz Hsum. destruct v as [d c]. unfold ByteView.size in *. simpl in *.
  repeat split.
  - unfold ByteView.subspan. simpl. rewrite Hsum, (wrap64_small c Hsz).
    now rewrite Z.ltb_irrefl.
  - unfold ByteView.first. simpl. now rewrite Z.leb_refl.
  - intros Hnz. unfold ByteView.last. simpl. rewrite Z.leb_refl.
    destruct (Z.eqb_spec c 0) as [->|_]; [contradiction|]. simpl.
    now rewrite Z.sub_diag, Z.add_0_r.
Qed.

Lemma subspan_rejects_exact_end_witness :
  ByteView.subspan (ByteView.mk 1000 10) 6 4 = None
  /\ ByteView.first (ByteView.mk 1000 10) 10 = Some (ByteView.mk 1000 10)
  /\ (10 <> 0 ->
      ByteView.last (ByteView.mk 1000 10) 10 = Some (ByteView.mk 1000 10)).
Proof.
  apply (subspan_rejects_exact_end (ByteView.mk 1000 10) 6 4).
  - unfold is_uint64, two64. simpl. lia.
  - reflexivity.
Defined.

(** The sum is formed in [size_t]: a wrapped sum equal to the size is
    rejected as well. *)
Lemma subspan_rejects_wrapped_end (v : ByteView.t) (offset count : Z) :
  wrap64 (offset + count) = ByteView.size v ->
  ByteView.subspan v offset count = None.
Proof.
  intros Hsum. unfold ByteView.subspan, ByteView.size in *.
  now rewrite Hsum, Z.ltb_irrefl.
Qed.


(** ** Endpoint lifecycle *)

Lemma client_Cleanup_state (c : QuicClient.t) :
  QuicClient.state_ (QuicClient.Cleanup c) = QuicClient.state_ c.
Proof. unfold QuicClient.Cleanup. cbv zeta. cbn [QuicClient.state_ QuicClient.set_delete_connections QuicClient.set_connections QuicClient.emit].
  destruct (QuicClient.state_ c) eqn:Es; cbn [QuicClient.state_ QuicClient.emit]; auto. Qed.

Lemma client_CreateProtocolConnection_state (n : Z) (c : QuicClient.t) :
  QuicClient.state_ (snd (QuicClient.CreateProtocolConnection n c))
  = QuicClient.state_ c.
Proof.
  unfold QuicClient.CreateProtocolConnection.
  destruct (QuicClient.state_ c) eqn:Es; simpl; auto.
  destruct (StdMap.find n (QuicClient.connections_ c)); simpl; auto.
Qed.

Lemma client_Connect_state name cb fr (c : QuicClient.t) r q c' :
  QuicClient.Connect name cb fr c = Some (r, q, c') ->
  QuicClient.state_ c' = QuicClient.state_ c.
Proof.
  unfold QuicClient.Connect.
  destruct (QuicClient.state_ c) eqn:Es;
    try (intros [= <- <- <-]; simpl; congruence).
  destruct (StdMap.find name (QuicClient.instance_map_ c)) as [n|].
  - pose proof (client_CreateProtocolConnection_state n c) as Hs.
    destruct (QuicClient.CreateProtocolConnection n c) as [[pc|] c1];
      [|discriminate].
    intros [= <- <- <-]. simpl in *. congruence.
  - unfold QuicClient.CreatePendingConnection.
    destruct (StdMap.find name (QuicClient.pending_connections_ c)).
    + intros [= <- <- <-]. simpl. congruence.
    + unfold QuicClient.StartConnectionRequest.
      destruct (StdMap.find name (QuicClient.instance_infos_ c));
        [destruct fr|]; simpl.
      * destruct (QuicClient.next_request_id_ c =? 0);
          intros [= <- <- <-]; simpl; congruence.
      * intros [= <- <- <-]; simpl; congruence.
      * intros [= <- <- <-]; simpl; congruence.
Qed.

Lemma client_OnCryptoHandshakeComplete_state name (c : QuicClient.t) :
  QuicClient.state_ (snd (QuicClient.OnCryptoHandshakeComplete name c))
  = QuicClient.state_ c.
Proof.
  unfold QuicClient.OnCryptoHandshakeComplete.
  destruct (StdMap.find name (QuicClient.pending_connections_ c)); auto.
  destruct (QuicClient.open_waiters _ _ _). reflexivity.
Qed.

(** The client assigns only [kStopped] and [kRunning] to its state. *)
Lemma client_state_step (o : QuicClient.Op) (c c' : QuicClient.t) :
  QuicClient.state_ c = QuicClient.kStopped
    \/ QuicClient.state_ c = QuicClient.kRunning ->
  QuicClient.step o c = Some c' ->
  QuicClient.state_ c' = QuicClient.kStopped
    \/ QuicClient.state_ c' = QuicClient.kRunning.
Proof.
  intros Hst Hstep.
  destruct o; simpl in Hstep.
  - injection Hstep as <-. unfold QuicClient.Start.
    destruct (QuicClient.state_ c) eqn:Es; simpl; rewrite ?client_Cleanup_state; simpl; auto.
  - injection Hstep as <-. unfold QuicClient.Stop.
    destruct (QuicClient.state_ c) eqn:Es; simpl; rewrite ?client_Cleanup_state; simpl; auto.
  - injection Hstep as <-. now rewrite client_Cleanup_state.
  - destruct (QuicClient.Connect instance_id request_callback factory_result c)
      as [[[r q] c1]|] eqn:Hc; [|discriminate].
    injection Hstep as <-. now rewrite (client_Connect_state _ _ _ _ _ _ _ Hc).
  - injection Hstep as <-. now rewrite client_CreateProtocolConnection_state.
  - injection Hstep as <-. unfold QuicClient.OnConnectionDestroyed.
    destruct has_stream; auto. destruct (StdMap.find _ _); simpl; auto.
  - injection Hstep as <-. now rewrite client_OnCryptoHandshakeComplete_state.
  - injection Hstep as <-.
    unfold QuicClient.OnIncomingStream, QuicClient.OnConnectionDestroyed.
    destruct (StdMap.find _ _); simpl; auto.
  - injection Hstep as <-. unfold QuicClient.OnConnectionClosed.
    destruct (StdMap.find _ _); simpl; auto.
  - injection Hstep as <-. simpl. auto.
  - injection Hstep as <-. simpl. auto.
  - injection Hstep as <-. simpl. auto.
  - injection Hstep as <-. simpl. auto.
  - injection Hstep as <-. simpl. auto.
  - injection Hstep as <-. simpl. auto.
Qed.

(** X1.  A client that is stopped or running is stopped or running after
    every run of calls that does not abort: the client never enters
    [kStarting], [kStopping] or [kSuspended]. *)
Lemma client_state_run (ops : list QuicClient.Op) :
  forall c c',
    QuicClient.state_ c = QuicClient.kStopped
      \/ QuicClient.state_ c = QuicClient.kRunning ->
    QuicClient.run ops c = Some c' ->
    QuicClient.state_ c' = QuicClient.kStopped
      \/ QuicClient.state_ c' = QuicClient.kRunning.
Proof.
  induction ops as [|o ops IH]; simpl; intros c c' Hst Hrun.
  - injection Hrun as <-. assumption.
  - destruct (QuicClient.step o c) as [c1|] eqn:Hstep; [|discriminate].
    eapply IH; [|eassumption]. eapply client_state_step; eassumption.
Qed.




Lemma server_Start_spec (s : QuicServer.t) :
  (fst (QuicServer.Start s) = true
     <-> QuicServer.state_ s = QuicServer.kStopped)
  /\ (fst (QuicServer.Start s) = true ->
      QuicServer.state_ (snd (QuicServer.Start s)) = QuicServer.kRunning
      /\ exists evs, QuicServer.trace (snd (QuicServer.Start s))
                     = QuicServer.trace s ++ evs ++ [OnRunning])
  /\ (fst (QuicServer.Start s) = false -> snd (QuicServer.Start s) = s).
Proof.
  unfold QuicServer.Start.
  destruct (QuicServer.state_ s) eqn:Es; cbn [fst snd].
  2-5: (split; [split; intros; discriminate|];
        split; [intros; discriminate | reflexivity]).
  split; [split; reflexivity|]. split; [|intros; discriminate].
  intros _. split; [reflexivity|].
  exists [SetServerDelegate true; ScheduleCleanup].
  unfold QuicServer.Cleanup. simpl. now rewrite <- !app_assoc.
Qed.

Lemma server_Stop_spec (s : QuicServer.t) :
  (fst (QuicServer.Stop s) = true
     <-> QuicServer.state_ s = QuicServer.kRunning
         \/ QuicServer.state_ s = QuicServer.kSuspended)
  /\ (fst (QuicServer.Stop s) = false -> snd (QuicServer.Stop s) = s)
  /\ (QuicServer.state_ s = QuicServer.kStopped ->
      QuicServer.Stop s = (false, s)).
Proof.
  unfold QuicServer.Stop.
  destruct (QuicServer.state_ s) eqn:Es; cbn [fst snd].
  all: split; [split; [intros H; try discriminate H; auto
                      | intros [H|H]; try discriminate H; reflexivity]|].
  all: split; [intros H; try discriminate H; reflexivity
              | intros H; try discriminate H; reflexivity].
Qed.

Lemma server_Suspend_spec (s : QuicServer.t) :
  (fst (QuicServer.Suspend s) = true
     <-> QuicServer.state_ s = QuicServer.kRunning)
  /\ (fst (QuicServer.Suspend s) = false -> snd (QuicServer.Suspend s) = s)
  /\ (QuicServer.state_ s = QuicServer.kSuspended ->
      QuicServer.Suspend s = (false, s)).
Proof.
  unfold QuicServer.Suspend.
  destruct (QuicServer.state_ s) eqn:Es; cbn [fst snd].
  all: split; [split; intros H; try discriminate H; reflexivity|].
  all: split; intros H; try discriminate H; reflexivity.
Qed.

Lemma server_Resume_spec (s : QuicServer.t) :
  (fst (QuicServer.Resume s) = true
     <-> QuicServer.state_ s = QuicServer.kSuspended)
  /\ (fst (QuicServer.Resume s) = false -> snd (QuicServer.Resume s) = s).
Proof.
  unfold QuicServer.Resume.
  destruct (QuicServer.state_ s) eqn:Es; cbn [fst snd].
  all: split; [split; intros H; try discriminate H; reflexivity|].
  all: intros H; try discriminate H; reflexivity.
Qed.

Lemma client_Start_spec (c : QuicClient.t) :
  QuicClient.state_ c = QuicClient.kStopped
    \/ QuicClient.state_ c = QuicClient.kRunning ->
  (fst (QuicClient.Start c) = true
     <-> QuicClient.state_ c = QuicClient.kStopped)
  /\ (fst (QuicClient.Start c) = true ->
      QuicClient.state_ (snd (QuicClient.Start c)) = QuicClient.kRunning
      /\ exists evs, QuicClient.trace (snd (QuicClient.Start c))
                     = QuicClient.trace c ++ evs ++ [OnRunning])
  /\ (fst (QuicClient.Start c) = false -> snd (QuicClient.Start c) = c).
Proof.
  intros Hc. unfold QuicClient.Start.
  destruct Hc as [Es | Es]; rewrite Es; cbn [fst snd].
  - split; [split; reflexivity|]. split; [|intros H; discriminate H].
    intros _. split.
    + cbn [QuicClient.state_ QuicClient.emit].
      now rewrite client_Cleanup_state.
    + exists (flat_map QuicClient.cleanup_closes (QuicClient.connections_ c)
              ++ [ScheduleCleanup]).
      unfold QuicClient.Cleanup. simpl. now rewrite <- !app_assoc.
  - split; [split; intros H; discriminate H|].
    split; [intros H; discriminate H | reflexivity].
Qed.

Lemma client_Stop_spec (c : QuicClient.t) :
  QuicClient.state_ c = QuicClient.kStopped
    \/ QuicClient.state_ c = QuicClient.kRunning ->
  (fst (QuicClient.Stop c) = true
     <-> QuicClient.state_ c = QuicClient.kRunning)
  /\ (fst (QuicClient.Stop c) = false -> snd (QuicClient.Stop c) = c).
Proof.
  intros Hc. unfold QuicClient.Stop.
  destruct Hc as [Es | Es]; rewrite Es; cbn [fst snd].
  - split; [split; intros H; discriminate H | reflexivity].
  - split; [split; reflexivity | intros H; discriminate H].
Qed.

(** C2.  Each lifecycle operation succeeds exactly when its precondition
    state holds, and otherwise returns false and leaves the endpoint as it
    was.  For the server: [Start] succeeds exactly from [kStopped] (the
    state becomes [kRunning] and the last call made is [OnRunning]), [Stop]
    exactly from [kRunning] or [kSuspended], [Suspend] exactly from
    [kRunning], [Resume] exactly from [kSuspended]; so a repeated [Stop]
    from [kStopped] and a repeated [Suspend] from [kSuspended] return false
    without effect.  For the client, which has no [Suspend] and assigns only
    [kStopped] and [kRunning] to its state ([client_state_run]): [Start]
    succeeds exactly from [kStopped] and [Stop] exactly from [kRunning]. *)
Theorem lifecycle_preconditions :
  (forall s : QuicServer.t,
      (fst (QuicServer.Start s) = true
         <-> QuicServer.state_ s = QuicServer.kStopped)
      /\ (fst (QuicServer.Start s) = true ->
          QuicServer.state_ (snd (QuicServer.Start s)) = QuicServer.kRunning
          /\ exists evs, QuicServer.trace (snd (QuicServer.Start s))
                         = QuicServer.trace s ++ evs ++ [OnRunning])
      /\ (fst (QuicServer.Start s) = false -> snd (QuicServer.Start s) = s)
      /\ (fst (QuicServer.Stop s) = true
            <-> QuicServer.state_ s = QuicServer.kRunning
                \/ QuicServer.state_ s = QuicServer.kSuspended)
      /\ (fst (QuicServer.Stop s) = false -> snd (QuicServer.Stop s) = s)
      /\ (fst (QuicServer.Suspend s) = true
            <-> QuicServer.state_ s = QuicServer.kRunning)
      /\ (fst (QuicServer.Suspend s) = false -> snd (QuicServer.Suspend s) = s)
      /\ (fst (QuicServer.Resume s) = true
            <-> QuicServer.state_ s = QuicServer.kSuspended)
      /\ (fst (QuicServer.Resume s) = false -> snd (QuicServer.Resume s) = s)
      /\ (QuicServer.state_ s = QuicServer.kStopped ->
          QuicServer.Stop s = (false, s))
      /\ (QuicServer.state_ s = QuicServer.kSuspended ->
          QuicServer.Suspend s = (false, s)))
  /\ (forall c : QuicClient.t,
      QuicClient.state_ c = QuicClient.kStopped
        \/ QuicClient.state_ c = QuicClient.kRunning ->
      (fst (QuicClient.Start c) = true
         <-> QuicClient.state_ c = QuicClient.kStopped)
      /\ (fst (QuicClient.Start c) = true ->
          QuicClient.state_ (snd (QuicClient.Start c)) = QuicClient.kRunning
          /\ exists evs, QuicClient.trace (snd (QuicClient.Start c))
                         = QuicClient.trace c ++ evs ++ [OnRunning])
      /\ (fst (QuicClient.Start c) = false -> snd (QuicClient.Start c) = c)
      /\ (fst (QuicClient.Stop c) = true
            <-> QuicClient.state_ c = QuicClient.kRunning)
      /\ (fst (QuicClient.Stop c) = false -> snd (QuicClient.Stop c) = c)).
Proof.
  split.
  - intros s.
    destruct (server_Start_spec s) as (A1 & A2 & A3).
    destruct (server_Stop_spec s) as (B1 & B2 & B3).
    destruct (server_Suspend_spec s) as (C1 & C2 & C3).
    destruct (server_Resume_spec s) as (D1 & D2).
    repeat (split; [assumption|]). assumption.
  - intros c Hc.
    destruct (client_Start_spec c Hc) as (A1 & A2 & A3).
    destruct (client_Stop_spec c Hc) as (B1 & B2).
    repeat (split; [assumption|]). assumption.
Qed.

Lemma lifecycle_preconditions_witness :
  (QuicClient.state_ QuicClient.init = QuicClient.kStopped
     \/ QuicClient.state_ QuicClient.init = QuicClient.kRunning)
  /\ (fst (QuicClient.Start QuicClient.init) = true
        <-> QuicClient.state_ QuicClient.init = QuicClient.kStopped)
  /\ (fst (QuicServer.Suspend QuicServer.init) = true
        <-> QuicServer.state_ QuicServer.init = QuicServer.kRunning).
Proof.
  split; [left; reflexivity|].
  destruct lifecycle_preconditions as [Hserver Hclient].
  split.
  - apply (Hclient QuicClient.init). left. reflexivity.
  - apply (Hserver QuicServer.init).
Defined.

(** ** Stop *)

Lemma client_erase_all_nil (ids : list Z) : QuicClient.erase_all ids [] = [].
Proof. induction ids as [|i ids IH]; simpl; auto. Qed.

Lemma server_erase_all_nil (ids : list Z) : QuicServer.erase_all ids [] = [].
Proof. induction ids as [|i ids IH]; simpl; auto. Qed.

Lemma close_pending_fails_waiters
    (pending : list (string * QuicClient.PendingConnectionData))
    name p rid cb :
  In (name, p) pending -> In (rid, cb) (QuicClient.callbacks p) ->
  In (OnConnectionFailed cb rid) (flat_map QuicClient.close_pending pending).
Proof.
  intros Hin Hcb. apply in_flat_map. exists (name, p). split; [assumption|].
  unfold QuicClient.close_pending. simpl. right.
  apply in_map_iff. exists (rid, cb). auto.
Qed.

(** C3.  After a [Stop] that succeeds, on the client and on the server:
    the pending table and the established table are empty, the instance map
    is empty, the instance-id counter is 1 and the request-id generator has
    been reset; on the client, every waiter of every pending entry was
    called with [OnConnectionFailed] for its request id during the stop. *)
Theorem stop_clears_tables :
  (forall c : QuicClient.t,
      fst (QuicClient.Stop c) = true ->
      QuicClient.pending_connections_ (snd (QuicClient.Stop c)) = []
      /\ QuicClient.connections_ (snd (QuicClient.Stop c)) = []
      /\ QuicClient.instance_map_ (snd (QuicClient.Stop c)) = []
      /\ QuicClient.next_instance_number_ (snd (QuicClient.Stop c)) = 1
      /\ QuicClient.instance_request_ids_ (snd (QuicClient.Stop c))
         = Reset (QuicClient.instance_request_ids_ c)
      /\ exists evs,
           QuicClient.trace (snd (QuicClient.Stop c))
           = QuicClient.trace c ++ evs
           /\ forall name p rid cb,
                In (name, p) (QuicClient.pending_connections_ c) ->
                In (rid, cb) (QuicClient.callbacks p) ->
                In (OnConnectionFailed cb rid) evs)
  /\ (forall s : QuicServer.t,
      fst (QuicServer.Stop s) = true ->
      QuicServer.pending_connections_ (snd (QuicServer.Stop s)) = []
      /\ QuicServer.connections_ (snd (QuicServer.Stop s)) = []
      /\ QuicServer.instance_map_ (snd (QuicServer.Stop s)) = []
      /\ QuicServer.next_instance_id_ (snd (QuicServer.Stop s)) = 1
      /\ QuicServer.instance_request_ids_ (snd (QuicServer.Stop s))
         = Reset (QuicServer.instance_request_ids_ s)).
Proof.
  split.
  - intros c. unfold QuicClient.Stop.
    destruct (QuicClient.state_ c) eqn:Es; simpl; try discriminate; intros _.
    all: unfold QuicClient.Cleanup; simpl; rewrite client_erase_all_nil.
    all: repeat split; try reflexivity.
    all: eexists; split; [rewrite <- !app_assoc; reflexivity|].
    all: intros name p rid cb Hin Hcb; apply in_or_app; left.
    all: eapply close_pending_fails_waiters; eassumption.
  - intros s. unfold QuicServer.Stop.
    destruct (QuicServer.state_ s) eqn:Es; simpl; try discriminate; intros _.
    all: unfold QuicServer.Cleanup; simpl; rewrite server_erase_all_nil.
    all: repeat split; reflexivity.
Qed.

Lemma stop_clears_tables_witness :
  QuicClient.pending_connections_
    (snd (QuicClient.Stop (Scenario.after Scenario.two_waiters_run))) = []
  /\ QuicServer.connections_
       (snd (QuicServer.Stop (snd (QuicServer.Start QuicServer.init)))) = [].
Proof.
  destruct stop_clears_tables as [Hclient Hserver]. split.
  - apply (Hclient (Scenario.after Scenario.two_waiters_run)). reflexivity.
  - apply (Hserver (snd (QuicServer.Start QuicServer.init))). reflexivity.
Defined.

(** ** Coalescing and promotion *)

Lemma FromExisting_keeps (d : ServiceConnectionData) (n : Z) :
  pc_instance_id (fst (FromExisting d n)) = n
  /\ conn_handle (connection (snd (FromExisting d n)))
     = conn_handle (connection d)
  /\ instance_name_ (delegate (snd (FromExisting d n)))
     = instance_name_ (delegate d).
Proof. unfold FromExisting. simpl. auto. Qed.

Lemma open_waiters_spec (waiters : list (Z * Z)) :
  forall (d : ServiceConnectionData) (n : Z),
    Forall2 (opened_as n) waiters (fst (QuicClient.open_waiters waiters d n))
    /\ conn_handle (connection (snd (QuicClient.open_waiters waiters d n)))
       = conn_handle (connection d)
    /\ instance_name_ (delegate (snd (QuicClient.open_waiters waiters d n)))
       = instance_name_ (delegate d).
Proof.
  induction waiters as [|w ws IH]; intros d n.
  - simpl. repeat split. constructor.
  - cbn [QuicClient.open_waiters].
    destruct (FromExisting_keeps d n) as (Hpc & Hconn & Hname).
    destruct (FromExisting d n) as [pc d1] eqn:Hfe.
    specialize (IH d1 n). destruct IH as (Hall & Hc & Hn).
    destruct (QuicClient.open_waiters ws d1 n) as [evs d2] eqn:How.
    simpl in *. repeat split.
    + constructor; [|assumption]. exists pc. auto.
    + congruence.
    + congruence.
Qed.

Lemma ids_below_fresh (c : QuicClient.t) :
  ids_below c ->
  StdMap.find (QuicClient.next_instance_number_ c) (QuicClient.connections_ c)
  = None
  /\ (forall name,
        StdMap.find name (QuicClient.instance_map_ c)
        <> Some (QuicClient.next_instance_number_ c))
  /\ QuicClient.next_instance_number_ c <> 0.
Proof.
  intros (Hn & Hconn & Hmap). repeat split.
  - apply find_None_not_key. intros Hin.
    rewrite Forall_forall in Hconn. specialize (Hconn _ Hin). lia.
  - intros name Hf. apply find_Some_In in Hf.
    rewrite Forall_forall in Hmap. specialize (Hmap _ Hf). simpl in Hmap. lia.
  - lia.
Qed.

(** C1.  Connect requests to an instance whose connection is pending
    coalesce: a further [Connect] adds no pending entry and appends its
    (request id, callback) pair to the waiters of the existing one.  When
    the handshake of a pending entry completes, the result is the current
    value [n] of the instance counter, which is not 0, is no key of the
    established table and is no instance's number in the instance map; the
    entry leaves the pending table, its connection record is in the
    established table under [n], the instance map sends the name to [n],
    and the calls made are one [OnConnectionOpened] per waiter, in the order
    the waiters were registered, each with its own request id and a
    protocol connection of instance [n]. *)
Theorem handshake_opens_waiters_in_order :
  (forall (c : QuicClient.t) name cb fr p,
      QuicClient.state_ c = QuicClient.kRunning ->
      StdMap.find name (QuicClient.instance_map_ c) = None ->
      StdMap.find name (QuicClient.pending_connections_ c) = Some p ->
      exists c',
        QuicClient.Connect name cb fr c
        = Some (true, Some (QuicClient.next_request_id_ c), c')
        /\ StdMap.keys (QuicClient.pending_connections_ c')
           = StdMap.keys (QuicClient.pending_connections_ c)
        /\ StdMap.find name (QuicClient.pending_connections_ c')
           = Some (QuicClient.mkPending (QuicClient.data p)
                     (QuicClient.callbacks p
                        ++ [(QuicClient.next_request_id_ c, cb)]))
        /\ QuicClient.trace c' = QuicClient.trace c)
  /\ (forall (c : QuicClient.t) name p,
      ids_below c ->
      StdMap.find name (QuicClient.pending_connections_ c) = Some p ->
      let n := QuicClient.next_instance_number_ c in
      let c' := snd (QuicClient.OnCryptoHandshakeComplete name c) in
      fst (QuicClient.OnCryptoHandshakeComplete name c) = n
      /\ n <> 0
      /\ StdMap.find n (QuicClient.connections_ c) = None
      /\ (forall other, StdMap.find other (QuicClient.instance_map_ c) <> Some n)
      /\ StdMap.find name (QuicClient.pending_connections_ c') = None
      /\ StdMap.find name (QuicClient.instance_map_ c') = Some n
      /\ (exists d,
             StdMap.find n (QuicClient.connections_ c') = Some d
             /\ conn_handle (connection d)
                = conn_handle (connection (QuicClient.data p))
             /\ instance_name_ (delegate d)
                = instance_name_ (delegate (QuicClient.data p)))
      /\ exists evs,
           QuicClient.trace c' = QuicClient.trace c ++ evs
           /\ Forall2 (opened_as n) (QuicClient.callbacks p) evs).
Proof.
  split.
  - intros c name cb fr p Hrun Hmap Hpend.
    unfold QuicClient.Connect. rewrite Hrun, Hmap.
    unfold QuicClient.CreatePendingConnection. rewrite Hpend.
    eexists. split; [reflexivity|]. simpl. repeat split.
    + eapply keys_assign_present. eassumption.
    + apply find_assign_eq.
  - intros c name p Hinv Hpend n c'.
    destruct (ids_below_fresh c Hinv) as (Hfresh & Hmapfresh & Hnz).
    subst c'. unfold QuicClient.OnCryptoHandshakeComplete. rewrite Hpend.
    destruct (open_waiters_spec (QuicClient.callbacks p) (QuicClient.data p) n)
      as (Hall & Hconn & Hname).
    fold n.
    destruct (QuicClient.open_waiters (QuicClient.callbacks p)
                (QuicClient.data p) n) as [evs d] eqn:How.
    simpl in *. repeat split; auto.
    + apply find_erase_eq.
    + apply find_assign_eq.
    + exists d. split; [|auto]. apply find_emplace_absent. exact Hfresh.
    + exists evs. auto.
Qed.

Example two_waiters_opened_in_order :
  QuicClient.trace
    (snd (QuicClient.OnCryptoHandshakeComplete "X"
            (Scenario.after Scenario.two_waiters_run)))
  = [ScheduleCleanup; OnRunning;
     OnConnectionOpened 100 1 (mkPC 1 0);
     OnConnectionOpened 101 2 (mkPC 1 1)].
Proof. reflexivity. Qed.

Lemma handshake_opens_waiters_in_order_witness :
  fst (QuicClient.OnCryptoHandshakeComplete "X"
         (Scenario.after Scenario.two_waiters_run)) = 1
  /\ exists c',
       QuicClient.Connect "X" 102 None (Scenario.after Scenario.two_waiters_run)
       = Some (true, Some 3, c').
Proof.
  destruct handshake_opens_waiters_in_order as [Hconnect Hshake]. split.
  - refine (proj1 (Hshake (Scenario.after Scenario.two_waiters_run) "X"%string
                     (QuicClient.mkPending
                        (mkData (mkConn 7 0) (mkDelegate "X" [] []))
                        [(1, 100); (2, 101)]) _ _)).
    + unfold ids_below, two64. simpl. repeat split; try lia; constructor.
    + reflexivity.
  - destruct (Hconnect (Scenario.after Scenario.two_waiters_run) "X"%string
                102 None
                (QuicClient.mkPending
                   (mkData (mkConn 7 0) (mkDelegate "X" [] []))
                   [(1, 100); (2, 101)]))
      as (c' & Hc & _); try reflexivity.
    exists c'. exact Hc.
Defined.

(** ** Instance ids *)

Lemma client_Cleanup_next (c : QuicClient.t) :
  QuicClient.next_instance_number_ (QuicClient.Cleanup c)
  = QuicClient.next_instance_number_ c.
Proof.
  unfold QuicClient.Cleanup. cbv zeta.
  cbn [QuicClient.state_ QuicClient.set_delete_connections
       QuicClient.set_connections QuicClient.emit].
  destruct (QuicClient.state_ c); reflexivity.
Qed.

Lemma client_Connect_next name cb fr (c : QuicClient.t) r q c' :
  QuicClient.Connect name cb fr c = Some (r, q, c') ->
  QuicClient.next_instance_number_ c' = QuicClient.next_instance_number_ c.
Proof.
  unfold QuicClient.Connect.
  destruct (QuicClient.state_ c) eqn:Es;
    try (intros [= <- <- <-]; reflexivity).
  destruct (StdMap.find name (QuicClient.instance_map_ c)) as [n|].
  - unfold QuicClient.CreateProtocolConnection. rewrite Es.
    destruct (StdMap.find n (QuicClient.connections_ c)); [|discriminate].
    simpl. intros [= <- <- <-]. reflexivity.
  - unfold QuicClient.CreatePendingConnection.
    destruct (StdMap.find name (QuicClient.pending_connections_ c)).
    + intros [= <- <- <-]. reflexivity.
    + unfold QuicClient.StartConnectionRequest.
      destruct (StdMap.find name (QuicClient.instance_infos_ c));
        [destruct fr|]; simpl.
      * destruct (QuicClient.next_request_id_ c =? 0);
          intros [= <- <- <-]; reflexivity.
      * intros [= <- <- <-]; reflexivity.
      * intros [= <- <- <-]; reflexivity.
Qed.

Lemma client_step_issue (o : QuicClient.Op) (c c' : QuicClient.t) :
  o <> QuicClient.OpStop ->
  QuicClient.step o c = Some c' ->
  (QuicClient.issued o c = []
   /\ QuicClient.next_instance_number_ c' = QuicClient.next_instance_number_ c)
  \/ (QuicClient.issued o c = [QuicClient.next_instance_number_ c]
      /\ QuicClient.next_instance_number_ c'
         = incr64 (QuicClient.next_instance_number_ c)).
Proof.
  intros Hns Hstep. destruct o; simpl in Hstep; try congruence.
  - left. injection Hstep as <-. split; [reflexivity|].
    unfold QuicClient.Start. destruct (QuicClient.state_ c); simpl;
      rewrite ?client_Cleanup_next; reflexivity.
  - left. injection Hstep as <-. split; [reflexivity|].
    apply client_Cleanup_next.
  - left. split; [reflexivity|].
    destruct (QuicClient.Connect instance_id request_callback factory_result c)
      as [[[r q] c1]|] eqn:Hc; [|discriminate].
    injection Hstep as <-. eapply client_Connect_next; eassumption.
  - left. injection Hstep as <-. split; [reflexivity|].
    unfold QuicClient.CreateProtocolConnection.
    destruct (QuicClient.state_ c); simpl; auto.
    destruct (StdMap.find instance_number (QuicClient.connections_ c)); simpl; auto.
  - left. injection Hstep as <-. split; [reflexivity|].
    unfold QuicClient.OnConnectionDestroyed.
    destruct has_stream; auto. destruct (StdMap.find _ _); simpl; auto.
  - injection Hstep as <-. simpl.
    unfold QuicClient.OnCryptoHandshakeComplete.
    destruct (StdMap.find instance_id (QuicClient.pending_connections_ c)).
    + right. destruct (QuicClient.open_waiters _ _ _). simpl. auto.
    + left. auto.
  - left. injection Hstep as <-. split; [reflexivity|].
    unfold QuicClient.OnIncomingStream, QuicClient.OnConnectionDestroyed.
    destruct (StdMap.find _ _); simpl; auto.
  - left. injection Hstep as <-. split; [reflexivity|].
    unfold QuicClient.OnConnectionClosed.
    destruct (StdMap.find _ _); simpl; auto.
  - left. injection Hstep as <-. auto.
  - left. injection Hstep as <-. auto.
  - left. injection Hstep as <-. auto.
  - left. injection Hstep as <-. auto.
  - left. injection Hstep as <-. auto.
  - left. injection Hstep as <-. auto.
Qed.

Lemma client_issued_of_crash (o : QuicClient.Op) (c : QuicClient.t) :
  QuicClient.step o c = None -> QuicClient.issued o c = [].
Proof. destruct o; simpl; try discriminate. reflexivity. Qed.

Lemma issued_ids_bounds (ops : list QuicClient.Op) :
  forall c,
    Forall (fun o => o <> QuicClient.OpStop) ops ->
    1 <= QuicClient.next_instance_number_ c ->
    QuicClient.next_instance_number_ c + Z.of_nat (List.length ops) < two64 ->
    StronglySorted Z.lt (QuicClient.issued_ids ops c)
    /\ Forall (fun i => QuicClient.next_instance_number_ c <= i)
              (QuicClient.issued_ids ops c).
Proof.
  induction ops as [|o ops IH]; intros c Hns Hlo Hhi.
  - simpl. split; constructor.
  - inversion Hns as [|? ? Ho Hrest]; subst.
    cbn [QuicClient.issued_ids].
    change (List.length (o :: ops)) with (S (List.length ops)) in Hhi.
    rewrite Nat2Z.inj_succ in Hhi.
    destruct (QuicClient.step o c) as [c1|] eqn:Hstep.
    + destruct (client_step_issue o c c1 Ho Hstep) as [[Hi Hn] | [Hi Hn]];
        rewrite Hi.
      * simpl. rewrite <- Hn. apply IH; auto; lia.
      * rewrite incr64_small in Hn by lia.
        destruct (IH c1 Hrest) as [Hs Hb]; try lia.
        simpl. split.
        -- constructor; [assumption|].
           eapply Forall_impl; [|exact Hb]. simpl. intros a Ha. lia.
        -- constructor; [lia|].
           eapply Forall_impl; [|exact Hb]. simpl. intros a Ha. lia.
    + rewrite (client_issued_of_crash o c Hstep). simpl. split; constructor.
Qed.

Lemma StronglySorted_lt_NoDup (l : list Z) : StronglySorted Z.lt l -> NoDup l.
Proof.
  induction 1 as [|a l Hs IH Hall]; constructor; auto.
  intros Hin. rewrite Forall_forall in Hall. specialize (Hall _ Hin). lia.
Qed.

(** C4, as amended.  Along any run of the client that contains no [Stop],
    from a state whose instance counter is at least 1 and cannot reach
    2^64 within the run, the instance ids issued on handshake completion
    are strictly increasing, never 0 and never repeated.  A [Stop] that
    succeeds sets the counter back to 1. *)
Theorem issued_ids_increase_between_stops :
  (forall (ops : list QuicClient.Op) (c : QuicClient.t),
      Forall (fun o => o <> QuicClient.OpStop) ops ->
      1 <= QuicClient.next_instance_number_ c ->
      QuicClient.next_instance_number_ c + Z.of_nat (List.length ops) < two64 ->
      ids_well_issued (QuicClient.issued_ids ops c))
  /\ (forall c : QuicClient.t,
      fst (QuicClient.Stop c) = true ->
      QuicClient.next_instance_number_ (snd (QuicClient.Stop c)) = 1).
Proof.
  split.
  - intros ops c Hns Hlo Hhi.
    destruct (issued_ids_bounds ops c Hns Hlo Hhi) as [Hs Hb].
    repeat split.
    + assumption.
    + eapply Forall_impl; [|exact Hb]. simpl. intros a Ha. lia.
    + now apply StronglySorted_lt_NoDup.
  - intros c. unfold QuicClient.Stop.
    destruct (QuicClient.state_ c) eqn:Es; simpl; intros H;
      try discriminate H; reflexivity.
Qed.

Lemma issued_ids_increase_between_stops_witness :
  ids_well_issued
    (QuicClient.issued_ids
       (Scenario.two_waiters_run ++ [QuicClient.OpOnCryptoHandshakeComplete "X"])
       QuicClient.init)
  /\ QuicClient.next_instance_number_
       (snd (QuicClient.Stop (Scenario.after Scenario.two_waiters_run))) = 1.
Proof.
  destruct issued_ids_increase_between_stops as [Hrun Hstop]. split.
  - apply Hrun.
    + repeat constructor; discriminate.
    + simpl. lia.
    + unfold two64. simpl. lia.
  - apply Hstop. reflexivity.
Defined.

(** C4, as stated, fails: the ids issued over a whole lifetime, across a
    [Stop] and a new [Start], are not strictly increasing and are reused.
    In [Scenario.restart_run] the id 1 is issued before the stop and again
    after the restart. *)
Lemma issued_ids_reused_after_restart :
  QuicClient.run Scenario.restart_run QuicClient.init <> None
  /\ QuicClient.issued_ids Scenario.restart_run QuicClient.init = [1; 1]
  /\ ~ ids_well_issued
        (QuicClient.issued_ids Scenario.restart_run QuicClient.init).
Proof.
  split; [discriminate|]. split; [reflexivity|].
  intros (_ & _ & Hnd).
  change (QuicClient.issued_ids Scenario.restart_run QuicClient.init)
    with [1; 1] in Hnd.
  inversion Hnd as [|x l Hnotin _]; subst. apply Hnotin. now left.
Qed.

(** ** The instance numbers in the tables stay below the counter *)

Section MoreStdMapFacts.
Context {K V : Type} `{Key K}.
Implicit Types (k : K) (v : V) (m : list (K * V)).

Lemma In_insert_sorted e k v m :
  In e (StdMap.insert_sorted k v m) -> e = (k, v) \/ In e m.
Proof.
  induction m as [|[k' v'] m IH]; simpl.
  - intros [<-|[]]. now left.
  - destruct (key_ltb k k'); simpl.
    + intros [<-|Hin]; auto.
    + intros [<-|Hin]; auto. destruct (IH Hin); auto.
Qed.

Lemma In_replace e k v m :
  In e (StdMap.replace k v m) -> e = (k, v) \/ In e m.
Proof.
  induction m as [|[k' v'] m IH]; simpl; [tauto|].
  destruct (key_eqb_spec k k') as [->|Hne]; simpl.
  - intros [<-|Hin]; auto.
  - intros [<-|Hin]; auto. destruct (IH Hin); auto.
Qed.

Lemma In_assign e k v m : In e (StdMap.assign k v m) -> e = (k, v) \/ In e m.
Proof.
  unfold StdMap.assign. destruct (StdMap.find k m).
  - apply In_replace.
  - apply In_insert_sorted.
Qed.

Lemma In_emplace e k v m : In e (StdMap.emplace k v m) -> e = (k, v) \/ In e m.
Proof.
  unfold StdMap.emplace. destruct (StdMap.find k m); auto.
  apply In_insert_sorted.
Qed.

Lemma In_erase e k m : In e (StdMap.erase k m) -> In e m.
Proof.
  induction m as [|[k' v'] m IH]; simpl; [tauto|].
  destruct (key_eqb k k'); simpl; intuition.
Qed.

Lemma In_keys k m : In k (StdMap.keys m) <-> exists v, In (k, v) m.
Proof.
  unfold StdMap.keys. rewrite in_map_iff. split.
  - intros [[k' v] [<- Hin]]. now exists v.
  - intros [v Hin]. now exists (k, v).
Qed.

End MoreStdMapFacts.

Lemma client_erase_all_In (ids : list Z) :
  forall m e, In e (QuicClient.erase_all ids m) -> In e m.
Proof.
  induction ids as [|i ids IH]; simpl; intros m e Hin; [assumption|].
  apply IH in Hin. eapply In_erase; eassumption.
Qed.

Lemma keys_cleanup_entry (m : list (Z * ServiceConnectionData)) :
  StdMap.keys (map QuicClient.cleanup_entry m) = StdMap.keys m.
Proof.
  unfold StdMap.keys. rewrite map_map. apply map_ext. intros [k d]. reflexivity.
Qed.

Lemma Forall_keys_sub {V W : Type} (P : Z -> Prop)
    (m : list (Z * V)) (m' : list (Z * W)) :
  (forall k, In k (StdMap.keys m') -> In k (StdMap.keys m)) ->
  Forall P (StdMap.keys m) -> Forall P (StdMap.keys m').
Proof.
  intros Hsub Hall. rewrite Forall_forall in *. auto.
Qed.

Lemma ids_below_Cleanup (c : QuicClient.t) :
  ids_below c -> ids_below (QuicClient.Cleanup c).
Proof.
  intros (Hn & Hc & Hm). unfold ids_below.
  rewrite client_Cleanup_next.
  assert (Hconn : forall k,
             In k (StdMap.keys (QuicClient.connections_ (QuicClient.Cleanup c))) ->
             In k (StdMap.keys (QuicClient.connections_ c))).
  { intros k. unfold QuicClient.Cleanup. cbv zeta.
    cbn [QuicClient.state_ QuicClient.set_delete_connections
         QuicClient.set_connections QuicClient.emit
         QuicClient.connections_ QuicClient.delete_connections_].
    intros Hin.
    assert (In k (StdMap.keys (QuicClient.erase_all
                                 (QuicClient.delete_connections_ c)
                                 (map QuicClient.cleanup_entry
                                    (QuicClient.connections_ c))))) as Hin'.
    { destruct (QuicClient.state_ c); exact Hin. }
    apply In_keys in Hin'. destruct Hin' as [v Hv].
    apply client_erase_all_In in Hv.
    rewrite <- keys_cleanup_entry. apply In_keys. eauto. }
  assert (Hmap : QuicClient.instance_map_ (QuicClient.Cleanup c)
                 = QuicClient.instance_map_ c).
  { unfold QuicClient.Cleanup. cbv zeta.
    cbn [QuicClient.state_ QuicClient.set_delete_connections
         QuicClient.set_connections QuicClient.emit].
    destruct (QuicClient.state_ c); reflexivity. }
  rewrite Hmap. repeat split; try tauto.
  eapply Forall_keys_sub; eauto.
Qed.

Lemma ids_below_init : ids_below QuicClient.init.
Proof. unfold ids_below, two64. simpl. repeat split; try lia; constructor. Qed.

Lemma ids_below_same (c c' : QuicClient.t) :
  QuicClient.next_instance_number_ c' = QuicClient.next_instance_number_ c ->
  (forall k, In k (StdMap.keys (QuicClient.connections_ c')) ->
             In k (StdMap.keys (QuicClient.connections_ c))) ->
  QuicClient.instance_map_ c' = QuicClient.instance_map_ c ->
  ids_below c -> ids_below c'.
Proof.
  intros Hn Hk Hm (H1 & H2 & H3). unfold ids_below. rewrite Hn, Hm.
  repeat split; try tauto. eapply Forall_keys_sub; eauto.
Qed.

Lemma client_CreateProtocolConnection_tables (n : Z) (c : QuicClient.t) :
  QuicClient.next_instance_number_ (snd (QuicClient.CreateProtocolConnection n c))
  = QuicClient.next_instance_number_ c
  /\ QuicClient.instance_map_ (snd (QuicClient.CreateProtocolConnection n c))
     = QuicClient.instance_map_ c
  /\ StdMap.keys (QuicClient.connections_
                    (snd (QuicClient.CreateProtocolConnection n c)))
     = StdMap.keys (QuicClient.connections_ c).
Proof.
  unfold QuicClient.CreateProtocolConnection.
  destruct (QuicClient.state_ c); simpl; auto.
  destruct (StdMap.find n (QuicClient.connections_ c)) eqn:Hf; simpl; auto.
  repeat split. eapply keys_assign_present. eassumption.
Qed.

Lemma client_Connect_tables name cb fr (c : QuicClient.t) r q c' :
  QuicClient.Connect name cb fr c = Some (r, q, c') ->
  QuicClient.instance_map_ c' = QuicClient.instance_map_ c
  /\ StdMap.keys (QuicClient.connections_ c')
     = StdMap.keys (QuicClient.connections_ c).
Proof.
  unfold QuicClient.Connect.
  destruct (QuicClient.state_ c) eqn:Es;
    try (intros [= <- <- <-]; split; reflexivity).
  destruct (StdMap.find name (QuicClient.instance_map_ c)) as [n|].
  - destruct (client_CreateProtocolConnection_tables n c) as (_ & Hm & Hk).
    destruct (QuicClient.CreateProtocolConnection n c) as [[pc|] c1];
      [|discriminate].
    intros [= <- <- <-]. simpl in *. auto.
  - unfold QuicClient.CreatePendingConnection.
    destruct (StdMap.find name (QuicClient.pending_connections_ c)).
    + intros [= <- <- <-]. split; reflexivity.
    + unfold QuicClient.StartConnectionRequest.
      destruct (StdMap.find name (QuicClient.instance_infos_ c));
        [destruct fr|]; simpl.
      * destruct (QuicClient.next_request_id_ c =? 0);
          intros [= <- <- <-]; split; reflexivity.
      * intros [= <- <- <-]; split; reflexivity.
      * intros [= <- <- <-]; split; reflexivity.
Qed.

Lemma ids_below_handshake name (c : QuicClient.t) :
  ids_below c ->
  QuicClient.next_instance_number_ c + 1 < two64 ->
  ids_below (snd (QuicClient.OnCryptoHandshakeComplete name c)).
Proof.
  intros (Hn & Hc & Hm) Hhi. unfold QuicClient.OnCryptoHandshakeComplete.
  destruct (StdMap.find name (QuicClient.pending_connections_ c));
    [|simpl; unfold ids_below; auto].
  destruct (QuicClient.open_waiters _ _ _) as [evs d]. unfold ids_below. simpl.
  rewrite incr64_small by lia. repeat split; try lia.
  - rewrite Forall_forall in *. intros k Hin.
    apply In_keys in Hin. destruct Hin as [v Hv].
    apply In_emplace in Hv. destruct Hv as [[= -> ->] | Hv]; [lia|].
    assert (In k (StdMap.keys (QuicClient.connections_ c)))
      by (apply In_keys; eauto).
    specialize (Hc k H). lia.
  - rewrite Forall_forall in *. intros e Hin.
    apply In_assign in Hin. destruct Hin as [-> | Hin]; [simpl; lia|].
    specialize (Hm e Hin). lia.
Qed.

Lemma ids_below_Stop (c : QuicClient.t) : ids_below (snd (QuicClient.Stop c)) \/ snd (QuicClient.Stop c) = c.
Proof.
  unfold QuicClient.Stop.
  destruct (QuicClient.state_ c) eqn:Es; simpl; auto; left.
  all: unfold ids_below, QuicClient.Cleanup; simpl;
    rewrite client_erase_all_nil; unfold two64; simpl;
    repeat split; try lia; constructor.
Qed.

(** Every call keeps the instance numbers of the tables below the counter,
    as long as the counter does not wrap. *)
Lemma ids_below_step (o : QuicClient.Op) (c c' : QuicClient.t) :
  ids_below c ->
  QuicClient.next_instance_number_ c + 1 < two64 ->
  QuicClient.step o c = Some c' ->
  ids_below c'.
Proof.
  intros Hinv Hhi Hstep. destruct o; simpl in Hstep.
  - injection Hstep as <-. unfold QuicClient.Start.
    destruct (QuicClient.state_ c) eqn:Es; simpl; auto.
    all: apply (ids_below_same (QuicClient.Cleanup (QuicClient.set_state QuicClient.kRunning c)));
      try reflexivity; auto.
    all: apply ids_below_Cleanup; exact Hinv.
  - injection Hstep as <-. destruct (ids_below_Stop c) as [H | ->]; auto.
  - injection Hstep as <-. now apply ids_below_Cleanup.
  - destruct (QuicClient.Connect instance_id request_callback factory_result c)
      as [[[r q] c1]|] eqn:Hc; [|discriminate].
    injection Hstep as <-.
    destruct (client_Connect_tables _ _ _ _ _ _ _ Hc) as [Hm Hk].
    apply (ids_below_same c c1);
      [eapply client_Connect_next; eauto | intros k; now rewrite Hk
      | exact Hm | exact Hinv].
  - injection Hstep as <-.
    destruct (client_CreateProtocolConnection_tables instance_number c)
      as (Hn & Hm & Hk).
    apply (ids_below_same c _);
      [exact Hn | intros k; now rewrite Hk | exact Hm | exact Hinv].
  - injection Hstep as <-. unfold QuicClient.OnConnectionDestroyed.
    destruct has_stream; auto.
    destruct (StdMap.find (pc_instance_id pc) (QuicClient.connections_ c)) eqn:Hf;
      auto.
    apply (ids_below_same c _);
      [reflexivity | | reflexivity | exact Hinv].
    intros k. simpl. erewrite keys_assign_present; eauto.
  - injection Hstep as <-. now apply ids_below_handshake.
  - injection Hstep as <-.
    unfold QuicClient.OnIncomingStream, QuicClient.OnConnectionDestroyed.
    destruct (StdMap.find (pc_instance_id pc) (QuicClient.connections_ c)) eqn:Hf;
      auto.
    apply (ids_below_same c _);
      [reflexivity | | reflexivity | exact Hinv].
    intros k. simpl. erewrite keys_assign_present; eauto.
  - injection Hstep as <-. unfold QuicClient.OnConnectionClosed.
    destruct (StdMap.find _ _); auto.
  - injection Hstep as <-. exact Hinv.
  - injection Hstep as <-. exact Hinv.
  - injection Hstep as <-. exact Hinv.
  - injection Hstep as <-. exact Hinv.
  - injection Hstep as <-. exact Hinv.
  - injection Hstep as <-. exact Hinv.
Qed.

Lemma client_step_next_le (o : QuicClient.Op) (c c' : QuicClient.t) :
  1 <= QuicClient.next_instance_number_ c ->
  QuicClient.next_instance_number_ c + 1 < two64 ->
  QuicClient.step o c = Some c' ->
  QuicClient.next_instance_number_ c'
  <= QuicClient.next_instance_number_ c + 1.
Proof.
  intros Hlo Hhi Hstep.
  assert (Hcase : o = QuicClient.OpStop \/ o <> QuicClient.OpStop)
    by (destruct o; auto; right; discriminate).
  destruct Hcase as [-> | Hns].
  - simpl in Hstep. injection Hstep as <-. unfold QuicClient.Stop.
    destruct (QuicClient.state_ c); simpl; lia.
  - destruct (client_step_issue o c c' Hns Hstep) as [[_ Hn] | [_ Hn]].
    + lia.
    + rewrite incr64_small in Hn by lia. lia.
Qed.

(** X2.  The tables of every client state reached from a state with
    [ids_below], by a run too short to wrap the counter, have
    [ids_below]: every instance number stored in [connections_] and
    [instance_map_] is at least 1 and was issued before the next one. *)
Lemma ids_below_run (ops : list QuicClient.Op) :
  forall c c',
    ids_below c ->
    QuicClient.next_instance_number_ c + Z.of_nat (List.length ops) < two64 ->
    QuicClient.run ops c = Some c' ->
    ids_below c'.
Proof.
  induction ops as [|o ops IH]; intros c c' Hinv Hhi Hrun.
  - simpl in Hrun. injection Hrun as <-. exact Hinv.
  - change (List.length (o :: ops)) with (S (List.length ops)) in Hhi.
    rewrite Nat2Z.inj_succ in Hhi.
    simpl in Hrun.
    destruct (QuicClient.step o c) as [c1|] eqn:Hstep; [|discriminate].
    assert (Hlo : 1 <= QuicClient.next_instance_number_ c)
      by (destruct Hinv as ((H & _) & _); exact H).
    apply (IH c1 c'); auto.
    + eapply ids_below_step; eauto. lia.
    + pose proof (client_step_next_le o c c1 Hlo ltac:(lia) Hstep). lia.
Qed.

(** ** Cancellation *)

Lemma remove_request_absent (rid : Z) (waiters : list (Z * Z)) :
  ~ In rid (map fst waiters) -> QuicClient.remove_request rid waiters = waiters.
Proof.
  induction waiters as [|[r cb] ws IH]; simpl; intros Hn; [reflexivity|].
  destruct (Z.eqb_spec rid r) as [->|Hne]; simpl.
  - exfalso. apply Hn. now left.
  - f_equal. apply IH. tauto.
Qed.

Lemma remove_request_length (rid : Z) (waiters : list (Z * Z)) :
  (List.length (QuicClient.remove_request rid waiters) <= List.length waiters)%nat.
Proof. unfold QuicClient.remove_request. apply filter_length_le. Qed.

Lemma remove_request_present (rid : Z) (waiters : list (Z * Z)) :
  In rid (map fst waiters) ->
  (List.length (QuicClient.remove_request rid waiters) < List.length waiters)%nat.
Proof.
  induction waiters as [|[r cb] ws IH]; simpl; intros Hin; [contradiction|].
  destruct (Z.eqb_spec rid r) as [->|Hne]; simpl.
  - pose proof (remove_request_length r ws). lia.
  - destruct Hin as [Heq|Hin]; [congruence|]. apply IH in Hin. lia.
Qed.

Lemma remove_request_gone (rid : Z) (waiters : list (Z * Z)) :
  ~ In rid (map fst (QuicClient.remove_request rid waiters)).
Proof.
  unfold QuicClient.remove_request. intros Hin.
  apply in_map_iff in Hin. destruct Hin as [[r cb] [Heq Hin]].
  apply filter_In in Hin. destruct Hin as [_ Hneq]. simpl in *. subst r.
  now rewrite Z.eqb_refl in Hneq.
Qed.

Lemma remove_request_keeps (rid : Z) (waiters : list (Z * Z)) (w : Z * Z) :
  fst w <> rid ->
  (In w (QuicClient.remove_request rid waiters) <-> In w waiters).
Proof.
  intros Hne. unfold QuicClient.remove_request. rewrite filter_In.
  destruct (Z.eqb_spec rid (fst w)); simpl; intuition congruence.
Qed.

Lemma NoDup_app_disjoint {A : Type} (l1 l2 : list A) (a : A) :
  NoDup (l1 ++ l2) -> In a l1 -> ~ In a l2.
Proof.
  induction l1 as [|x l1 IH]; simpl; intros Hnd Hin; [contradiction|].
  inversion Hnd as [|? ? Hnotin Hnd']; subst.
  destruct Hin as [->|Hin]; auto.
  intros Hin2. apply Hnotin. apply in_or_app. now right.
Qed.

Lemma after_cancel_absent (rid : Z) (p : QuicClient.PendingConnectionData) :
  QuicClient.callbacks p <> [] ->
  ~ In rid (map fst (QuicClient.callbacks p)) ->
  after_cancel rid p = Some p.
Proof.
  intros Hne Hnotin. unfold after_cancel.
  rewrite (remove_request_absent _ _ Hnotin).
  destruct p as [d [|w ws]]; simpl in *; [congruence | reflexivity].
Qed.

Lemma cancel_loop_absent (rid : Z)
    (entries : list (string * QuicClient.PendingConnectionData)) :
  Forall (fun e => QuicClient.callbacks (snd e) <> []) entries ->
  ~ In rid (all_request_ids entries) ->
  QuicClient.cancel_loop rid entries = entries.
Proof.
  induction entries as [|[name p] rest IH]; simpl; intros Hne Hnotin;
    [reflexivity|].
  inversion Hne as [|? ? Hp Hrest]; subst. simpl in Hp.
  assert (Hp' : ~ In rid (map fst (QuicClient.callbacks p)))
    by (intros H; apply Hnotin; apply in_or_app; now left).
  assert (Hr' : ~ In rid (all_request_ids rest))
    by (intros H; apply Hnotin; apply in_or_app; now right).
  rewrite (remove_request_absent _ _ Hp').
  destruct p as [d [|w ws]]; simpl in *; [congruence|].
  rewrite Nat.ltb_irrefl. f_equal. now apply IH.
Qed.

Lemma find_after_cancel_absent (rid : Z) (name : string)
    (entries : list (string * QuicClient.PendingConnectionData)) :
  Forall (fun e => QuicClient.callbacks (snd e) <> []) entries ->
  ~ In rid (all_request_ids entries) ->
  StdMap.find name entries
  = match StdMap.find name entries with
    | None => None
    | Some p => after_cancel rid p
    end.
Proof.
  induction entries as [|[n p] rest IH]; simpl; intros Hne Hnotin;
    [reflexivity|].
  inversion Hne as [|? ? Hp Hrest]; subst. simpl in Hp.
  destruct (String.eqb name n).
  - symmetry. f_equal. apply after_cancel_absent; auto.
    intros H. apply Hnotin. apply in_or_app. now left.
  - apply IH; auto. intros H. apply Hnotin. apply in_or_app. now right.
Qed.

Lemma find_cons_eq {K V : Type} `{Key K} (k : K) (v : V) (m : list (K * V)) :
  StdMap.find k ((k, v) :: m) = Some v.
Proof. simpl. now rewrite key_eqb_refl. Qed.

Lemma find_cons_ne {K V : Type} `{Key K} (k k' : K) (v : V) (m : list (K * V)) :
  k' <> k -> StdMap.find k' ((k, v) :: m) = StdMap.find k' m.
Proof. intros Hne. simpl. now rewrite key_eqb_neq. Qed.

(** What [CancelConnectRequest] leaves in the pending table: each entry
    without the cancelled request, and no entry where that request was the
    only waiter. *)
Lemma cancel_loop_find (rid : Z)
    (entries : list (string * QuicClient.PendingConnectionData)) :
  pending_ok entries ->
  forall name,
    StdMap.find name (QuicClient.cancel_loop rid entries)
    = match StdMap.find name entries with
      | None => None
      | Some p => after_cancel rid p
      end.
Proof.
  induction entries as [|[n p] rest IH]; intros (Hkeys & Hne & Hids) name;
    [reflexivity|].
  inversion Hkeys as [|? ? Hn Hkeys']; subst.
  inversion Hne as [|? ? Hp Hrest]; subst. simpl in Hp.
  unfold all_request_ids in Hids. simpl in Hids.
  fold (all_request_ids rest) in Hids.
  assert (Hids' : NoDup (all_request_ids rest))
    by (eapply NoDup_app_remove_l; eassumption).
  cbn [QuicClient.cancel_loop].
  destruct (in_dec Z.eq_dec rid (map fst (QuicClient.callbacks p)))
    as [Hin | Hnotin].
  - (* the cancelled request waits on this entry *)
    assert (Hrest_absent : ~ In rid (all_request_ids rest))
      by (eapply NoDup_app_disjoint; eassumption).
    pose proof (remove_request_present _ _ Hin) as Hlt.
    destruct (String.eqb_spec name n) as [->|Hneq].
    + rewrite (find_cons_eq n p rest). unfold after_cancel.
      destruct (QuicClient.remove_request rid (QuicClient.callbacks p))
        as [|w ws] eqn:Hrem.
      * apply find_None_not_key. exact Hn.
      * apply Nat.ltb_lt in Hlt. rewrite Hlt. apply find_cons_eq.
    + rewrite (find_cons_ne n name p rest Hneq).
      destruct (QuicClient.remove_request rid (QuicClient.callbacks p))
        as [|w ws] eqn:Hrem.
      * now apply find_after_cancel_absent.
      * apply Nat.ltb_lt in Hlt. rewrite Hlt.
        rewrite find_cons_ne by assumption.
        now apply find_after_cancel_absent.
  - (* it does not: the loop goes on *)
    rewrite (remove_request_absent _ _ Hnotin).
    destruct (QuicClient.callbacks p) as [|w ws] eqn:Hcb; [congruence|].
    rewrite Nat.ltb_irrefl.
    destruct (String.eqb_spec name n) as [->|Hneq].
    + rewrite !find_cons_eq. unfold after_cancel. rewrite Hcb.
      rewrite (remove_request_absent _ _ Hnotin). reflexivity.
    + rewrite !find_cons_ne by assumption.
      apply IH. repeat split; assumption.
Qed.

Lemma In_all_request_ids (r : Z) (m : list (string * QuicClient.PendingConnectionData)) :
  In r (all_request_ids m)
  <-> exists name p, In (name, p) m /\ In r (map fst (QuicClient.callbacks p)).
Proof.
  unfold all_request_ids. rewrite in_flat_map. split.
  - intros [[name p] [Hin Hr]]. exists name, p. auto.
  - intros (name & p & Hin & Hr). exists (name, p). auto.
Qed.

Lemma all_request_ids_insert_sorted (k : string) (p : QuicClient.PendingConnectionData)
    (m : list (string * QuicClient.PendingConnectionData)) :
  Permutation (all_request_ids (StdMap.insert_sorted k p m))
              (map fst (QuicClient.callbacks p) ++ all_request_ids m).
Proof.
  induction m as [|[k' p'] m IH]; simpl.
  - rewrite app_nil_r. apply Permutation_refl.
  - destruct (String.ltb k k'); simpl.
    + apply Permutation_refl.
    + unfold all_request_ids in *. simpl.
      rewrite IH. rewrite !app_assoc.
      apply Permutation_app_tail. apply Permutation_app_comm.
Qed.

Lemma all_request_ids_split (k : string) (p : QuicClient.PendingConnectionData) (m : list (string * QuicClient.PendingConnectionData)) :
  StdMap.find k m = Some p ->
  NoDup (StdMap.keys m) ->
  Permutation (all_request_ids m)
              (map fst (QuicClient.callbacks p) ++ all_request_ids (StdMap.erase k m)).
Proof.
  induction m as [|[k' p'] m IH]; simpl; [discriminate|].
  intros Hf Hnd. inversion Hnd as [|? ? Hnotin Hnd']; subst.
  change (key_eqb k k') with (String.eqb k k') in *.
  destruct (String.eqb_spec k k') as [->|Hne].
  - injection Hf as ->. unfold all_request_ids at 1. simpl.
    apply Permutation_app_head.
    assert (Herase : StdMap.erase k' m = m).
    { clear -Hnotin. induction m as [|[k0 p0] m IH]; simpl; [reflexivity|].
      change (key_eqb k' k0) with (String.eqb k' k0).
      destruct (String.eqb_spec k' k0) as [->|Hne].
      - exfalso. apply Hnotin. now left.
      - f_equal. apply IH. intros H. apply Hnotin. now right. }
    rewrite Herase. apply Permutation_refl.
  - unfold all_request_ids in *. simpl.
    rewrite (IH Hf Hnd'). rewrite !app_assoc.
    apply Permutation_app_tail. apply Permutation_app_comm.
Qed.

Lemma all_request_ids_replace (k : string) (p p' : QuicClient.PendingConnectionData)
    (m : list (string * QuicClient.PendingConnectionData)) :
  StdMap.find k m = Some p ->
  NoDup (StdMap.keys m) ->
  Permutation (all_request_ids (StdMap.replace k p' m))
              (map fst (QuicClient.callbacks p') ++ all_request_ids (StdMap.erase k m)).
Proof.
  induction m as [|[k0 p0] m IH]; simpl; [discriminate|].
  intros Hf Hnd. inversion Hnd as [|? ? Hnotin Hnd']; subst.
  change (key_eqb k k0) with (String.eqb k k0) in *.
  destruct (String.eqb_spec k k0) as [->|Hne].
  - unfold all_request_ids at 1. simpl.
    apply Permutation_app_head.
    assert (Herase : StdMap.erase k0 m = m).
    { clear -Hnotin. induction m as [|[k1 p1] m IH]; simpl; [reflexivity|].
      change (key_eqb k0 k1) with (String.eqb k0 k1).
      destruct (String.eqb_spec k0 k1) as [->|Hne].
      - exfalso. apply Hnotin. now left.
      - f_equal. apply IH. intros H. apply Hnotin. now right. }
    rewrite Herase. apply Permutation_refl.
  - unfold all_request_ids in *. simpl.
    rewrite (IH Hf Hnd'). rewrite !app_assoc.
    apply Permutation_app_tail. apply Permutation_app_comm.
Qed.

Lemma opened_ids_app (a b : list Event) :
  opened_ids (a ++ b) = opened_ids a ++ opened_ids b.
Proof. unfold opened_ids. apply flat_map_app. Qed.

Lemma opened_ids_cleanup_closes (m : list (Z * ServiceConnectionData)) :
  opened_ids (flat_map QuicClient.cleanup_closes m) = [].
Proof.
  induction m as [|e m IH]; simpl; [reflexivity|].
  rewrite opened_ids_app, IH, app_nil_r.
  unfold QuicClient.cleanup_closes. destruct (has_streams _); reflexivity.
Qed.

Lemma opened_ids_close_pending (m : list (string * QuicClient.PendingConnectionData)) :
  opened_ids (flat_map QuicClient.close_pending m) = [].
Proof.
  induction m as [|e m IH]; simpl; [reflexivity|].
  rewrite opened_ids_app, IH, app_nil_r.
  induction (QuicClient.callbacks (snd e)) as [|w ws IHw]; simpl; auto.
Qed.

Lemma opened_ids_close_established (m : list (Z * ServiceConnectionData)) :
  opened_ids (map QuicClient.close_established m) = [].
Proof. induction m as [|e m IH]; simpl; auto. Qed.

Lemma opened_ids_open_waiters (waiters : list (Z * Z)) :
  forall d n,
    opened_ids (fst (QuicClient.open_waiters waiters d n)) = map fst waiters.
Proof.
  induction waiters as [|w ws IH]; intros d n; [reflexivity|].
  cbn [QuicClient.open_waiters].
  destruct (FromExisting d n) as [pc d1].
  specialize (IH d1 n).
  destruct (QuicClient.open_waiters ws d1 n) as [evs d2].
  simpl in *. now rewrite IH.
Qed.

(** What each call adds to the trace: the request ids that get
    [OnConnectionOpened] were waiting in the pending table, or are the
    request id the call itself allocates. *)
Lemma client_step_trace (o : QuicClient.Op) (c c' : QuicClient.t) :
  QuicClient.step o c = Some c' ->
  exists evs,
    QuicClient.trace c' = QuicClient.trace c ++ evs
    /\ forall r, In r (opened_ids evs) ->
         In r (all_request_ids (QuicClient.pending_connections_ c))
         \/ r = QuicClient.next_request_id_ c.
Proof.
  intros Hstep.
  assert (Hnone : forall c0 : QuicClient.t,
            QuicClient.trace c0 = QuicClient.trace c ->
            exists evs, QuicClient.trace c0 = QuicClient.trace c ++ evs
              /\ forall r, In r (opened_ids evs) ->
                   In r (all_request_ids (QuicClient.pending_connections_ c))
                   \/ r = QuicClient.next_request_id_ c).
  { intros c0 ->. exists []. split; [now rewrite app_nil_r | intros r []]. }
  destruct o; simpl in Hstep.
  - injection Hstep as <-. unfold QuicClient.Start.
    destruct (QuicClient.state_ c) eqn:Es; simpl; try (apply Hnone; reflexivity).
    all: unfold QuicClient.Cleanup; simpl; rewrite <- !app_assoc;
      eexists; split; [reflexivity|];
      rewrite !opened_ids_app, opened_ids_cleanup_closes; simpl; intros r [].
  - injection Hstep as <-. unfold QuicClient.Stop.
    destruct (QuicClient.state_ c) eqn:Es; simpl; try (apply Hnone; reflexivity).
    all: unfold QuicClient.Cleanup; simpl; rewrite <- !app_assoc;
      eexists; split; [reflexivity|];
      rewrite !opened_ids_app, opened_ids_close_pending,
        opened_ids_close_established; simpl; intros r [].
  - injection Hstep as <-. unfold QuicClient.Cleanup. simpl.
    destruct (QuicClient.state_ c); simpl; rewrite <- ?app_assoc;
      eexists; (split; [reflexivity|]);
      rewrite ?opened_ids_app, opened_ids_cleanup_closes; simpl; intros r [].
  - unfold QuicClient.Connect in Hstep.
    destruct (QuicClient.state_ c) eqn:Es;
      try (injection Hstep as <-; simpl; eexists; split; [reflexivity|];
           simpl; intros r []).
    destruct (StdMap.find instance_id (QuicClient.instance_map_ c)) as [n|].
    + unfold QuicClient.CreateProtocolConnection in Hstep. rewrite Es in Hstep.
      destruct (StdMap.find n (QuicClient.connections_ c)); [|discriminate].
      simpl in Hstep. injection Hstep as <-. simpl.
      eexists; split; [reflexivity|]. simpl. intros r [<-|[]]. now right.
    + unfold QuicClient.CreatePendingConnection in Hstep.
      destruct (StdMap.find instance_id (QuicClient.pending_connections_ c)).
      * injection Hstep as <-. simpl. apply Hnone; reflexivity.
      * unfold QuicClient.StartConnectionRequest in Hstep.
        destruct (StdMap.find instance_id (QuicClient.instance_infos_ c));
          [destruct factory_result|]; simpl in Hstep.
        -- destruct (QuicClient.next_request_id_ c =? 0);
             injection Hstep as <-; simpl; apply Hnone; reflexivity.
        -- injection Hstep as <-; simpl.
           eexists; split; [reflexivity|]. simpl. intros r [].
        -- injection Hstep as <-; simpl.
           eexists; split; [reflexivity|]. simpl. intros r [].
  - injection Hstep as <-. unfold QuicClient.CreateProtocolConnection.
    destruct (QuicClient.state_ c); simpl; try (apply Hnone; reflexivity).
    destruct (StdMap.find instance_number (QuicClient.connections_ c));
      simpl; apply Hnone; reflexivity.
  - injection Hstep as <-. unfold QuicClient.OnConnectionDestroyed.
    destruct has_stream; try (apply Hnone; reflexivity).
    destruct (StdMap.find _ _); simpl; apply Hnone; reflexivity.
  - injection Hstep as <-. unfold QuicClient.OnCryptoHandshakeComplete.
    destruct (StdMap.find instance_id (QuicClient.pending_connections_ c))
      as [p|] eqn:Hf; [|apply Hnone; reflexivity].
    pose proof (opened_ids_open_waiters (QuicClient.callbacks p)
                  (QuicClient.data p) (QuicClient.next_instance_number_ c))
      as Hop.
    destruct (QuicClient.open_waiters _ _ _) as [evs d]. simpl in *.
    exists evs. split; [reflexivity|]. rewrite Hop. intros r Hr. left.
    apply In_all_request_ids. exists instance_id, p. split; [|exact Hr].
    now apply find_Some_In.
  - injection Hstep as <-.
    unfold QuicClient.OnIncomingStream, QuicClient.OnConnectionDestroyed.
    destruct (StdMap.find _ _); simpl; apply Hnone; reflexivity.
  - injection Hstep as <-. unfold QuicClient.OnConnectionClosed.
    destruct (StdMap.find _ _); simpl; apply Hnone; reflexivity.
  - injection Hstep as <-. simpl. eexists; split; [reflexivity|].
    simpl. intros r [].
  - injection Hstep as <-. apply Hnone; reflexivity.
  - injection Hstep as <-. apply Hnone; reflexivity.
  - injection Hstep as <-. apply Hnone; reflexivity.
  - injection Hstep as <-. apply Hnone; reflexivity.
  - injection Hstep as <-. apply Hnone; reflexivity.
Qed.

Lemma client_Connect_pending name cb fr (c : QuicClient.t) r q c' :
  QuicClient.Connect name cb fr c = Some (r, q, c') ->
  (QuicClient.pending_connections_ c' = QuicClient.pending_connections_ c
   /\ (QuicClient.next_request_id_ c' = QuicClient.next_request_id_ c
       \/ QuicClient.next_request_id_ c'
          = incr64 (QuicClient.next_request_id_ c)))
  \/ (exists p,
         StdMap.find name (QuicClient.pending_connections_ c) = Some p
         /\ QuicClient.pending_connections_ c'
            = StdMap.replace name
                (QuicClient.mkPending (QuicClient.data p)
                   (QuicClient.callbacks p
                      ++ [(QuicClient.next_request_id_ c, cb)]))
                (QuicClient.pending_connections_ c)
         /\ QuicClient.next_request_id_ c'
            = incr64 (QuicClient.next_request_id_ c))
  \/ (exists d,
         StdMap.find name (QuicClient.pending_connections_ c) = None
         /\ QuicClient.pending_connections_ c'
            = StdMap.insert_sorted name
                (QuicClient.mkPending d [(QuicClient.next_request_id_ c, cb)])
                (QuicClient.pending_connections_ c)
         /\ QuicClient.next_request_id_ c'
            = incr64 (QuicClient.next_request_id_ c)).
Proof.
  unfold QuicClient.Connect.
  destruct (QuicClient.state_ c) eqn:Es;
    try (intros [= <- <- <-]; left; split; [reflexivity | left; reflexivity]).
  destruct (StdMap.find name (QuicClient.instance_map_ c)) as [n|].
  - unfold QuicClient.CreateProtocolConnection. rewrite Es.
    destruct (StdMap.find n (QuicClient.connections_ c)); [|discriminate].
    simpl. intros [= <- <- <-]. left. split; [reflexivity | right; reflexivity].
  - unfold QuicClient.CreatePendingConnection,
      QuicClient.StartConnectionRequest, StdMap.assign.
    destruct (StdMap.find name (QuicClient.pending_connections_ c))
      as [p|] eqn:Hf.
    + intros [= <- <- <-]. right. left. exists p. simpl. auto.
    + destruct (StdMap.find name (QuicClient.instance_infos_ c));
        [destruct fr as [conn|]|]; simpl.
      * destruct (QuicClient.next_request_id_ c =? 0);
          intros [= <- <- <-]; right; right; eexists; simpl; auto.
      * intros [= <- <- <-]. left. split; [reflexivity | left; reflexivity].
      * intros [= <- <- <-]. left. split; [reflexivity | left; reflexivity].
Qed.

Lemma keys_insert_sorted (k : string) (p : QuicClient.PendingConnectionData) (m : list (string * QuicClient.PendingConnectionData)) :
  Permutation (StdMap.keys (StdMap.insert_sorted k p m)) (k :: StdMap.keys m).
Proof.
  unfold StdMap.keys. induction m as [|[k' p'] m IH]; simpl.
  - apply Permutation_refl.
  - destruct (String.ltb k k'); simpl.
    + apply Permutation_refl.
    + rewrite IH. apply perm_swap.
Qed.

Lemma keys_erase_sub (k k0 : string) (m : list (string * QuicClient.PendingConnectionData)) :
  In k0 (StdMap.keys (StdMap.erase k m)) -> In k0 (StdMap.keys m).
Proof.
  intros Hin. apply In_keys in Hin. destruct Hin as [v Hv].
  apply In_erase in Hv. apply In_keys. eauto.
Qed.

Lemma NoDup_keys_erase (k : string) (m : list (string * QuicClient.PendingConnectionData)) :
  NoDup (StdMap.keys m) -> NoDup (StdMap.keys (StdMap.erase k m)).
Proof.
  induction m as [|[k' p'] m IH]; simpl; intros Hnd; [constructor|].
  inversion Hnd as [|? ? Hnotin Hnd']; subst.
  destruct (String.eqb k k'); [auto|].
  simpl. constructor; [|auto].
  intros Hin. apply Hnotin. eapply keys_erase_sub. exact Hin.
Qed.

Lemma pending_ok_nil : pending_ok [].
Proof. repeat split; constructor. Qed.

(** A further waiter with a new request id on an existing entry. *)
Lemma pending_ok_add_waiter (name : string) (p : QuicClient.PendingConnectionData) (new cb : Z)
    (m : list (string * QuicClient.PendingConnectionData)) :
  pending_ok m ->
  StdMap.find name m = Some p ->
  ~ In new (all_request_ids m) ->
  let m' := StdMap.replace name
              (QuicClient.mkPending (QuicClient.data p)
                 (QuicClient.callbacks p ++ [(new, cb)])) m in
  pending_ok m'
  /\ forall r, In r (all_request_ids m') -> In r (all_request_ids m) \/ r = new.
Proof.
  intros (Hk & Hne & Hids) Hf Hnew m'.
  pose proof (all_request_ids_split name p m Hf Hk) as Hsplit.
  pose proof (all_request_ids_replace name p
                (QuicClient.mkPending (QuicClient.data p)
                   (QuicClient.callbacks p ++ [(new, cb)])) m Hf Hk) as Hrep.
  fold m' in Hrep. simpl in Hrep. rewrite map_app in Hrep. simpl in Hrep.
  assert (Hperm : Permutation (all_request_ids m')
                    (new :: all_request_ids m)).
  { rewrite Hrep, Hsplit. rewrite <- app_assoc. simpl.
    symmetry. apply Permutation_middle. }
  split; [repeat split|].
  - subst m'. now rewrite keys_replace.
  - rewrite Forall_forall in *. intros e Hin. subst m'.
    apply In_replace in Hin. destruct Hin as [-> | Hin]; [|auto].
    simpl. intros Happ. apply app_eq_nil in Happ. destruct Happ; discriminate.
  - eapply Permutation_NoDup; [symmetry; exact Hperm|].
    constructor; assumption.
  - intros r Hr. eapply Permutation_in in Hr; [|exact Hperm].
    destruct Hr as [<-|Hr]; auto.
Qed.

(** A new entry with one waiter. *)
Lemma pending_ok_add_entry (name : string) (d : ServiceConnectionData)
    (new cb : Z) (m : list (string * QuicClient.PendingConnectionData)) :
  pending_ok m ->
  StdMap.find name m = None ->
  ~ In new (all_request_ids m) ->
  let m' := StdMap.insert_sorted name (QuicClient.mkPending d [(new, cb)]) m in
  pending_ok m'
  /\ forall r, In r (all_request_ids m') -> In r (all_request_ids m) \/ r = new.
Proof.
  intros (Hk & Hne & Hids) Hf Hnew m'.
  pose proof (all_request_ids_insert_sorted name
                (QuicClient.mkPending d [(new, cb)]) m) as Hperm.
  fold m' in Hperm. simpl in Hperm.
  split; [repeat split|].
  - eapply Permutation_NoDup; [symmetry; apply keys_insert_sorted|].
    constructor; [|assumption]. now apply find_None_not_key.
  - rewrite Forall_forall in *. intros e Hin. subst m'.
    apply In_insert_sorted in Hin. destruct Hin as [-> | Hin]; [|auto].
    simpl. discriminate.
  - eapply Permutation_NoDup; [symmetry; exact Hperm|].
    constructor; assumption.
  - intros r Hr. eapply Permutation_in in Hr; [|exact Hperm].
    destruct Hr as [<-|Hr]; auto.
Qed.

(** An entry leaves the table. *)
Lemma pending_ok_erase (name : string) (m : list (string * QuicClient.PendingConnectionData)) :
  pending_ok m ->
  pending_ok (StdMap.erase name m)
  /\ forall r, In r (all_request_ids (StdMap.erase name m)) ->
               In r (all_request_ids m).
Proof.
  intros (Hk & Hne & Hids).
  assert (Hsub : forall r, In r (all_request_ids (StdMap.erase name m)) ->
                           In r (all_request_ids m)).
  { intros r Hr. apply In_all_request_ids in Hr.
    destruct Hr as (n & p & Hin & Hr). apply In_erase in Hin.
    apply In_all_request_ids. eauto. }
  split; [repeat split|exact Hsub].
  - now apply NoDup_keys_erase.
  - rewrite Forall_forall in *. intros e Hin. apply In_erase in Hin. auto.
  - destruct (StdMap.find name m) as [p|] eqn:Hf.
    + pose proof (all_request_ids_split name p m Hf Hk) as Hsplit.
      eapply Permutation_NoDup in Hids; [|exact Hsplit].
      eapply NoDup_app_remove_l. exact Hids.
    + assert (Herase : StdMap.erase name m = m).
      { apply find_None_not_key in Hf. clear -Hf.
        induction m as [|[k0 p0] m IH]; simpl; [reflexivity|].
        change (key_eqb name k0) with (String.eqb name k0).
        destruct (String.eqb_spec name k0) as [->|Hne].
        - exfalso. apply Hf. now left.
        - f_equal. apply IH. intros H. apply Hf. now right. }
      now rewrite Herase.
Qed.

Lemma rids_remove_request (rid : Z) (waiters : list (Z * Z)) :
  map fst (QuicClient.remove_request rid waiters)
  = filter (fun x => negb (rid =? x)) (map fst waiters).
Proof.
  unfold QuicClient.remove_request.
  induction waiters as [|[r cb] ws IH]; simpl; [reflexivity|].
  destruct (rid =? r); simpl; now rewrite IH.
Qed.

Lemma filter_absent (rid : Z) (l : list Z) :
  ~ In rid l -> filter (fun x => negb (rid =? x)) l = l.
Proof.
  induction l as [|x l IH]; simpl; intros Hn; [reflexivity|].
  destruct (Z.eqb_spec rid x) as [->|Hne]; simpl.
  - exfalso. apply Hn. now left.
  - f_equal. apply IH. tauto.
Qed.

Lemma all_request_ids_cancel_loop (rid : Z) (m : list (string * QuicClient.PendingConnectionData)) :
  pending_ok m ->
  all_request_ids (QuicClient.cancel_loop rid m)
  = filter (fun x => negb (rid =? x)) (all_request_ids m).
Proof.
  induction m as [|[n p] rest IH]; intros (Hkeys & Hne & Hids);
    [reflexivity|].
  inversion Hkeys as [|? ? Hn Hkeys']; subst.
  inversion Hne as [|? ? Hp Hrest]; subst. simpl in Hp.
  unfold all_request_ids in Hids. simpl in Hids.
  fold (all_request_ids rest) in Hids.
  assert (Hids' : NoDup (all_request_ids rest))
    by (eapply NoDup_app_remove_l; eassumption).
  change (all_request_ids ((n, p) :: rest))
    with (map fst (QuicClient.callbacks p) ++ all_request_ids rest).
  rewrite filter_app, <- rids_remove_request.
  cbn [QuicClient.cancel_loop].
  destruct (in_dec Z.eq_dec rid (map fst (QuicClient.callbacks p)))
    as [Hin | Hnotin].
  - assert (Hrest_absent : ~ In rid (all_request_ids rest))
      by (eapply NoDup_app_disjoint; eassumption).
    rewrite (filter_absent _ _ Hrest_absent).
    pose proof (remove_request_present _ _ Hin) as Hlt.
    destruct (QuicClient.remove_request rid (QuicClient.callbacks p))
      as [|w ws] eqn:Hrem.
    + reflexivity.
    + apply Nat.ltb_lt in Hlt. rewrite Hlt. reflexivity.
  - rewrite (remove_request_absent _ _ Hnotin).
    destruct (QuicClient.callbacks p) as [|w ws] eqn:Hcb; [congruence|].
    rewrite Nat.ltb_irrefl.
    change (all_request_ids
              ((n, QuicClient.mkPending (QuicClient.data p) (w :: ws))
               :: QuicClient.cancel_loop rid rest))
      with (map fst (w :: ws)
            ++ all_request_ids (QuicClient.cancel_loop rid rest)).
    f_equal. apply IH. repeat split; assumption.
Qed.

Lemma keys_cancel_loop_sub (rid : Z) (m : list (string * QuicClient.PendingConnectionData)) (k : string) :
  In k (StdMap.keys (QuicClient.cancel_loop rid m)) -> In k (StdMap.keys m).
Proof.
  induction m as [|[n p] rest IH]; [auto|].
  cbn [QuicClient.cancel_loop].
  destruct (QuicClient.remove_request rid (QuicClient.callbacks p))
    as [|w ws].
  - intros Hin. now right.
  - destruct (Nat.ltb _ _); simpl; intros [<-|Hin]; auto.
Qed.

Lemma pending_ok_cancel_loop (rid : Z) (m : list (string * QuicClient.PendingConnectionData)) :
  pending_ok m ->
  pending_ok (QuicClient.cancel_loop rid m)
  /\ ~ In rid (all_request_ids (QuicClient.cancel_loop rid m))
  /\ forall r, In r (all_request_ids (QuicClient.cancel_loop rid m)) ->
               In r (all_request_ids m).
Proof.
  intros Hok. pose proof (all_request_ids_cancel_loop rid m Hok) as Hids.
  destruct Hok as (Hk & Hne & Hnd).
  split; [repeat split|split].
  - clear Hids Hnd Hne. induction m as [|[n p] rest IH]; [constructor|].
    inversion Hk as [|? ? Hn Hk']; subst.
    cbn [QuicClient.cancel_loop].
    destruct (QuicClient.remove_request rid (QuicClient.callbacks p))
      as [|w ws]; [assumption|].
    destruct (Nat.ltb _ _); simpl; constructor; auto.
    intros Hin. apply Hn. eapply keys_cancel_loop_sub. exact Hin.
  - clear Hids Hnd Hk. induction m as [|[n p] rest IH]; [constructor|].
    inversion Hne as [|? ? Hp Hrest]; subst.
    cbn [QuicClient.cancel_loop].
    destruct (QuicClient.remove_request rid (QuicClient.callbacks p))
      as [|w ws]; [assumption|].
    destruct (Nat.ltb _ _); constructor; simpl; auto; discriminate.
  - rewrite Hids. now apply NoDup_filter.
  - rewrite Hids. intros Hin. apply filter_In in Hin.
    destruct Hin as [_ Hneq]. now rewrite Z.eqb_refl in Hneq.
  - intros r. rewrite Hids. intros Hin. apply filter_In in Hin. tauto.
Qed.

Lemma requests_same (c c' : QuicClient.t) :
  QuicClient.pending_connections_ c' = QuicClient.pending_connections_ c ->
  QuicClient.next_request_id_ c' = QuicClient.next_request_id_ c ->
  request_ids_ok c ->
  request_ids_ok c'
  /\ QuicClient.next_request_id_ c <= QuicClient.next_request_id_ c'
     <= QuicClient.next_request_id_ c + 1
  /\ forall r, In r (all_request_ids (QuicClient.pending_connections_ c')) ->
       In r (all_request_ids (QuicClient.pending_connections_ c))
       \/ r = QuicClient.next_request_id_ c.
Proof.
  intros Hp Hn Hok. unfold request_ids_ok. rewrite Hp, Hn.
  split; [exact Hok|]. split; [lia|]. auto.
Qed.

Lemma requests_change (c c' : QuicClient.t) :
  request_ids_ok c ->
  QuicClient.next_request_id_ c + 1 < two64 ->
  pending_ok (QuicClient.pending_connections_ c') ->
  (forall r, In r (all_request_ids (QuicClient.pending_connections_ c')) ->
     In r (all_request_ids (QuicClient.pending_connections_ c))
     \/ r = QuicClient.next_request_id_ c) ->
  QuicClient.next_request_id_ c' = incr64 (QuicClient.next_request_id_ c) ->
  request_ids_ok c'
  /\ QuicClient.next_request_id_ c <= QuicClient.next_request_id_ c'
     <= QuicClient.next_request_id_ c + 1
  /\ forall r, In r (all_request_ids (QuicClient.pending_connections_ c')) ->
       In r (all_request_ids (QuicClient.pending_connections_ c))
       \/ r = QuicClient.next_request_id_ c.
Proof.
  intros (Hok & Hn & Hb) Hhi Hok' Hsub Hnext.
  rewrite incr64_small in Hnext by lia.
  split; [|split; [lia | exact Hsub]].
  unfold request_ids_ok. rewrite Hnext. split; [exact Hok'|]. split; [lia|].
  rewrite Forall_forall in *. intros r Hr.
  destruct (Hsub r Hr) as [Hin | ->]; [|lia].
  specialize (Hb r Hin). lia.
Qed.

Lemma requests_shrink (c c' : QuicClient.t) :
  request_ids_ok c ->
  pending_ok (QuicClient.pending_connections_ c') ->
  (forall r, In r (all_request_ids (QuicClient.pending_connections_ c')) ->
     In r (all_request_ids (QuicClient.pending_connections_ c))) ->
  QuicClient.next_request_id_ c' = QuicClient.next_request_id_ c ->
  request_ids_ok c'
  /\ QuicClient.next_request_id_ c <= QuicClient.next_request_id_ c'
     <= QuicClient.next_request_id_ c + 1
  /\ forall r, In r (all_request_ids (QuicClient.pending_connections_ c')) ->
       In r (all_request_ids (QuicClient.pending_connections_ c))
       \/ r = QuicClient.next_request_id_ c.
Proof.
  intros (Hok & Hn & Hb) Hok' Hsub Hnext.
  split; [|split; [lia | auto]].
  unfold request_ids_ok. rewrite Hnext. split; [exact Hok'|]. split; [lia|].
  rewrite Forall_forall in *. auto.
Qed.

Lemma fresh_request_id (c : QuicClient.t) :
  request_ids_ok c ->
  ~ In (QuicClient.next_request_id_ c)
       (all_request_ids (QuicClient.pending_connections_ c)).
Proof.
  intros (_ & _ & Hb) Hin. rewrite Forall_forall in Hb.
  specialize (Hb _ Hin). lia.
Qed.

Lemma client_Stop_requests (c : QuicClient.t) :
  QuicClient.next_request_id_ (snd (QuicClient.Stop c))
  = QuicClient.next_request_id_ c
  /\ (QuicClient.pending_connections_ (snd (QuicClient.Stop c)) = []
      \/ QuicClient.pending_connections_ (snd (QuicClient.Stop c))
         = QuicClient.pending_connections_ c).
Proof.
  unfold QuicClient.Stop. destruct (QuicClient.state_ c); simpl; auto.
Qed.

(** Every call keeps the pending table well formed and allocates at most
    the next request id. *)
Lemma client_step_requests (o : QuicClient.Op) (c c' : QuicClient.t) :
  request_ids_ok c ->
  QuicClient.next_request_id_ c + 1 < two64 ->
  QuicClient.step o c = Some c' ->
  request_ids_ok c'
  /\ QuicClient.next_request_id_ c <= QuicClient.next_request_id_ c'
     <= QuicClient.next_request_id_ c + 1
  /\ forall r, In r (all_request_ids (QuicClient.pending_connections_ c')) ->
       In r (all_request_ids (QuicClient.pending_connections_ c))
       \/ r = QuicClient.next_request_id_ c.
Proof.
  intros Hok Hhi Hstep. destruct o; simpl in Hstep.
  - injection Hstep as <-. apply requests_same; auto;
      unfold QuicClient.Start; destruct (QuicClient.state_ c); reflexivity.
  - injection Hstep as <-.
    destruct (client_Stop_requests c) as [Hn [Hp | Hp]].
    + apply requests_shrink; auto; rewrite Hp;
        [apply pending_ok_nil | intros r []].
    + apply requests_same; auto.
  - injection Hstep as <-. apply requests_same; auto;
      unfold QuicClient.Cleanup; simpl; destruct (QuicClient.state_ c);
      reflexivity.
  - destruct (QuicClient.Connect instance_id request_callback factory_result c)
      as [[[r q] c1]|] eqn:Hc; [|discriminate].
    injection Hstep as <-.
    pose proof (fresh_request_id c Hok) as Hfresh.
    destruct (client_Connect_pending _ _ _ _ _ _ _ Hc)
      as [[Hp [Hn|Hn]] | [(p & Hf & Hp & Hn) | (d & Hf & Hp & Hn)]].
    + apply requests_same; auto.
    + apply requests_change; auto; rewrite Hp; [apply Hok | auto].
    + destruct Hok as (Hpok & Hrest).
      destruct (pending_ok_add_waiter instance_id p
                  (QuicClient.next_request_id_ c) request_callback
                  _ Hpok Hf Hfresh) as [Hok' Hsub].
      apply requests_change; auto; try (split; assumption);
        rewrite Hp; assumption.
    + destruct Hok as (Hpok & Hrest).
      destruct (pending_ok_add_entry instance_id d
                  (QuicClient.next_request_id_ c) request_callback
                  _ Hpok Hf Hfresh) as [Hok' Hsub].
      apply requests_change; auto; try (split; assumption);
        rewrite Hp; assumption.
  - injection Hstep as <-. apply requests_same; auto;
      unfold QuicClient.CreateProtocolConnection;
      destruct (QuicClient.state_ c); simpl; auto;
      destruct (StdMap.find instance_number (QuicClient.connections_ c));
      reflexivity.
  - injection Hstep as <-. apply requests_same; auto;
      unfold QuicClient.OnConnectionDestroyed; destruct has_stream; auto;
      destruct (StdMap.find _ _); reflexivity.
  - injection Hstep as <-. unfold QuicClient.OnCryptoHandshakeComplete.
    destruct (StdMap.find instance_id (QuicClient.pending_connections_ c));
      [|apply requests_same; auto].
    destruct (QuicClient.open_waiters _ _ _) as [evs d]. cbn [snd].
    destruct (pending_ok_erase instance_id (QuicClient.pending_connections_ c))
      as [Hok' Hsub]; [apply Hok|].
    apply requests_shrink; simpl; auto.
  - injection Hstep as <-. apply requests_same; auto;
      unfold QuicClient.OnIncomingStream, QuicClient.OnConnectionDestroyed;
      destruct (StdMap.find _ _); reflexivity.
  - injection Hstep as <-. apply requests_same; auto;
      unfold QuicClient.OnConnectionClosed;
      destruct (StdMap.find _ _); reflexivity.
  - injection Hstep as <-. apply requests_same; auto.
  - injection Hstep as <-. apply requests_same; auto.
  - injection Hstep as <-. apply requests_same; auto.
  - injection Hstep as <-. apply requests_same; auto.
  - injection Hstep as <-. apply requests_same; auto.
  - injection Hstep as <-.
    destruct (pending_ok_cancel_loop request_id
                (QuicClient.pending_connections_ c))
      as (Hok' & _ & Hsub); [apply Hok|].
    apply requests_shrink; simpl; auto.
Qed.

Lemma request_ids_ok_init : request_ids_ok QuicClient.init.
Proof.
  unfold request_ids_ok, two64. simpl.
  repeat split; try lia; try constructor.
Qed.

(** Along a run too short to wrap the request-id counter, a request id
    that was issued and waits on no pending entry is never given
    [OnConnectionOpened]. *)
Lemma retired_request_never_opened (ops : list QuicClient.Op) :
  forall (c c' : QuicClient.t) (rid : Z),
    request_ids_ok c ->
    rid < QuicClient.next_request_id_ c ->
    ~ In rid (all_request_ids (QuicClient.pending_connections_ c)) ->
    QuicClient.next_request_id_ c + Z.of_nat (List.length ops) < two64 ->
    QuicClient.run ops c = Some c' ->
    exists evs,
      QuicClient.trace c' = QuicClient.trace c ++ evs
      /\ ~ In rid (opened_ids evs).
Proof.
  induction ops as [|o ops IH]; intros c c' rid Hok Hlt Hnotin Hhi Hrun.
  - simpl in Hrun. injection Hrun as <-. exists [].
    split; [now rewrite app_nil_r | intros []].
  - change (List.length (o :: ops)) with (S (List.length ops)) in Hhi.
    rewrite Nat2Z.inj_succ in Hhi. simpl in Hrun.
    destruct (QuicClient.step o c) as [c1|] eqn:Hstep; [|discriminate].
    destruct (client_step_trace o c c1 Hstep) as (evs1 & Ht1 & Hop1).
    destruct (client_step_requests o c c1 Hok ltac:(lia) Hstep)
      as (Hok1 & Hn1 & Hsub1).
    destruct (IH c1 c' rid Hok1) as (evs2 & Ht2 & Hop2); auto; try lia.
    + intros Hin. destruct (Hsub1 rid Hin) as [H | H]; [auto | lia].
    + exists (evs1 ++ evs2). split.
      * now rewrite Ht2, Ht1, app_assoc.
      * rewrite opened_ids_app. intros Hin. apply in_app_or in Hin.
        destruct Hin as [Hin | Hin]; [|auto].
        destruct (Hop1 rid Hin) as [H | H]; [auto | lia].
Qed.

(** X5.  After [CancelConnectRequest(rid)] returns, no later call of any
    run (too short to wrap the request-id counter) gives
    [OnConnectionOpened] to [rid]. *)
Lemma cancelled_request_never_opened (rid : Z) (c c' : QuicClient.t)
    (ops : list QuicClient.Op) :
  request_ids_ok c ->
  rid < QuicClient.next_request_id_ c ->
  QuicClient.next_request_id_ c + Z.of_nat (List.length ops) < two64 ->
  QuicClient.run ops (QuicClient.CancelConnectRequest rid c) = Some c' ->
  exists evs,
    QuicClient.trace c' = QuicClient.trace c ++ evs
    /\ ~ In rid (opened_ids evs).
Proof.
  intros Hok Hlt Hhi Hrun.
  destruct (pending_ok_cancel_loop rid (QuicClient.pending_connections_ c))
    as (Hok' & Hgone & Hsub); [apply Hok|].
  apply (retired_request_never_opened ops
           (QuicClient.CancelConnectRequest rid c) c' rid); auto.
  destruct Hok as (_ & Hn & Hb).
  unfold request_ids_ok. simpl. split; [exact Hok'|]. split; [exact Hn|].
  rewrite Forall_forall in *. auto.
Qed.

(** X3.  Every client state reached from a state with [request_ids_ok],
    by a run too short to wrap the request-id counter, has
    [request_ids_ok]: one pending entry per name, a waiter on every entry,
    no request id twice, every waiting id issued before the next one. *)
Lemma request_ids_ok_run (ops : list QuicClient.Op) :
  forall c c',
    request_ids_ok c ->
    QuicClient.next_request_id_ c + Z.of_nat (List.length ops) < two64 ->
    QuicClient.run ops c = Some c' ->
    request_ids_ok c'.
Proof.
  induction ops as [|o ops IH]; intros c c' Hok Hhi Hrun.
  - simpl in Hrun. injection Hrun as <-. exact Hok.
  - change (List.length (o :: ops)) with (S (List.length ops)) in Hhi.
    rewrite Nat2Z.inj_succ in Hhi. simpl in Hrun.
    destruct (QuicClient.step o c) as [c1|] eqn:Hstep; [|discriminate].
    destruct (client_step_requests o c c1 Hok ltac:(lia) Hstep)
      as (Hok1 & Hn1 & _).
    apply (IH c1 c'); auto. lia.
Qed.

(** No call leaves the client during [CancelConnectRequest]. *)
Lemma cancel_makes_no_call (rid : Z) (c : QuicClient.t) :
  QuicClient.trace (QuicClient.CancelConnectRequest rid c) = QuicClient.trace c.
Proof. reflexivity. Qed.

(** X4.  After a cancellation the request waits on no pending entry,
    every other waiter is where it was, and an entry exists exactly if a
    waiter is left on it. *)
Lemma cancel_removes_only_that_waiter (rid : Z) (c : QuicClient.t) :
  pending_ok (QuicClient.pending_connections_ c) ->
  forall name p,
    StdMap.find name (QuicClient.pending_connections_ c) = Some p ->
    match StdMap.find name
            (QuicClient.pending_connections_
               (QuicClient.CancelConnectRequest rid c)) with
    | None => forall w, In w (QuicClient.callbacks p) -> fst w = rid
    | Some p' =>
        QuicClient.data p' = QuicClient.data p
        /\ QuicClient.callbacks p'
           = QuicClient.remove_request rid (QuicClient.callbacks p)
        /\ ~ In rid (map fst (QuicClient.callbacks p'))
        /\ forall w, fst w <> rid ->
             (In w (QuicClient.callbacks p') <-> In w (QuicClient.callbacks p))
    end.
Proof.
  intros Hok name p Hf.
  change (QuicClient.pending_connections_
            (QuicClient.CancelConnectRequest rid c))
    with (QuicClient.cancel_loop rid (QuicClient.pending_connections_ c)).
  rewrite (cancel_loop_find rid _ Hok name), Hf. unfold after_cancel.
  pose proof (remove_request_gone rid (QuicClient.callbacks p)) as Hgone.
  pose proof (fun w => remove_request_keeps rid (QuicClient.callbacks p) w)
    as Hkeep.
  destruct (QuicClient.remove_request rid (QuicClient.callbacks p))
    as [|w0 ws] eqn:Hrem.
  - intros w Hin. destruct (Z.eq_dec (fst w) rid) as [|Hne]; [assumption|].
    apply Hkeep in Hin; [contradiction | assumption].
  - repeat split; auto; apply Hkeep; assumption.
Qed.

(** C5.  A cancellation removes exactly the cancelled waiter, leaves the
    other waiters alone, erases an entry left without waiters
    ([cancel_removes_only_that_waiter]) and the cancelled request is never
    opened afterwards ([cancelled_request_never_opened]).  The session is
    not closed, though: when the only waiter of the pending connection to
    "X" is cancelled, the entry is erased and no call at all is made, so
    [Close] is never called on its connection 7, the call that [Stop] makes
    for the same pending entry. *)
Theorem cancel_last_waiter_never_closes_session :
  QuicClient.run Scenario.one_waiter_run QuicClient.init
  = Some (Scenario.after Scenario.one_waiter_run)
  /\ QuicClient.pending_connections_ (Scenario.after Scenario.one_waiter_run)
     = [("X"%string,
         QuicClient.mkPending
           (mkData (Scenario.session 7) (mkDelegate "X" [] []))
           [(1, 100)])]
  /\ QuicClient.pending_connections_
       (QuicClient.CancelConnectRequest 1
          (Scenario.after Scenario.one_waiter_run)) = []
  /\ QuicClient.trace
       (QuicClient.CancelConnectRequest 1
          (Scenario.after Scenario.one_waiter_run))
     = QuicClient.trace (Scenario.after Scenario.one_waiter_run)
  /\ ~ In (ConnectionClose 7)
          (QuicClient.trace
             (QuicClient.CancelConnectRequest 1
                (Scenario.after Scenario.one_waiter_run)))
  /\ In (ConnectionClose 7)
        (QuicClient.trace
           (snd (QuicClient.Stop (Scenario.after Scenario.one_waiter_run)))).
Proof.
  split; [vm_compute; reflexivity|].
  split; [vm_compute; reflexivity|].
  split; [vm_compute; reflexivity|].
  split; [reflexivity|].
  split.
  - vm_compute. intros [H|[H|[]]]; discriminate H.
  - vm_compute. right. right. left. reflexivity.
Qed.


(** ** SPAKE2 consumer *)

Lemma std_equal_iff (a b : list byte) :
  List.length a = List.length b ->
  (Authentication.std_equal a b = true <-> a = b).
Proof.
  revert b. induction a as [|x a IH]; intros [|y b] Hlen; simpl in *;
    try discriminate.
  - tauto.
  - injection Hlen as Hlen. rewrite andb_true_iff, (IH b Hlen). split.
    + intros [Hxy ->]. f_equal. now apply Byte.byte_dec_bl.
    + intros [= -> ->]. split; [now apply Byte.byte_dec_lb | reflexivity].
Qed.

Lemma array64_std_equal (k v : Authentication.array64) :
  Authentication.std_equal (Authentication.bytes_of k)
    (Authentication.bytes_of v) = true
  <-> Authentication.bytes_of k = Authentication.bytes_of v.
Proof.
  apply std_equal_iff. unfold Authentication.bytes_of.
  destruct k as [k Hk], v as [v Hv]. simpl. congruence.
Qed.

Section AuthenticationFacts.
Context {ext : Authentication.Externals}.

(** C6.  When a [Spake2Confirmation] decodes (the consumer has its sender
    connection and the decoder's result is not negative), the received
    confirmation value is compared byte for byte, over all 64 bytes, with the
    stored shared key.  If they are equal the consumer writes
    [Status{Authenticated}] and calls [OnAuthenticationSucceed]; if any
    byte differs it writes [Status{ProofInvalid}] and calls
    [OnAuthenticationFailed] with an error of code [kInvalidAnswer]. *)
Theorem confirmation_compared_byte_exactly
    (a : Authentication.t) (connection_id : Z) (buffer : list byte)
    (s : ProtocolConnection) (n : Z)
    (conf : Authentication.AuthSpake2Confirmation) :
  Authentication.sender (Authentication.auth_data_ a) = Some s ->
  Authentication.DecodeAuthSpake2Confirmation buffer = (n, conf) ->
  0 <= n ->
  let key := Authentication.shared_key (Authentication.auth_data_ a) in
  let received := Authentication.confirmation_value conf in
  let run :=
    Authentication.OnStreamMessage (Authentication.instance_id_ a)
      connection_id Authentication.kAuthSpake2Confirmation buffer a in
  List.length (Authentication.bytes_of key) = 64%nat
  /\ List.length (Authentication.bytes_of received) = 64%nat
  /\ (Authentication.bytes_of received = Authentication.bytes_of key ->
      run = Some (Authentication.Value n,
                  Authentication.emit
                    [Authentication.WriteStatus
                       (Authentication.mkStatus Authentication.kAuthenticated);
                     Authentication.OnAuthenticationSucceed
                       (Authentication.instance_id_ a)] a))
  /\ (Authentication.bytes_of received <> Authentication.bytes_of key ->
      run = Some (Authentication.Value n,
                  Authentication.emit
                    [Authentication.WriteStatus
                       (Authentication.mkStatus Authentication.kProofInvalid);
                     Authentication.OnAuthenticationFailed
                       (Authentication.instance_id_ a)
                       (Authentication.mkError Authentication.kInvalidAnswer
                          "Authentication failed: shared key mismatch.")] a)).
Proof.
  intros Hs Hd Hn key received run.
  split; [exact (proj2_sig key)|]. split; [exact (proj2_sig received)|].
  assert (Hrun : run = Authentication.on_confirmation
                         (Authentication.instance_id_ a) buffer a).
  { subst run. unfold Authentication.OnStreamMessage.
    rewrite Z.eqb_refl, Hs. reflexivity. }
  rewrite Hrun. unfold Authentication.on_confirmation. rewrite Hd.
  destruct (Z.ltb_spec n 0) as [Hneg|_]; [lia|].
  fold key. fold received.
  pose proof (array64_std_equal key received) as Heq.
  destruct (Authentication.std_equal (Authentication.bytes_of key)
              (Authentication.bytes_of received)).
  - split; [reflexivity|]. intros Hne. exfalso. apply Hne. symmetry.
    now apply Heq.
  - split.
    + intros He. symmetry in He. apply Heq in He. discriminate He.
    + intros _. reflexivity.
Qed.

(** C7.  When a [Spake2Handshake] decodes (the consumer has its sender
    connection and the decoder's result is not negative): if the initiation
    token is absent or differs from the consumer's token, the consumer calls
    [OnAuthenticationFailed] with the [kInvalidAnswer] error "Authentication
    failed: initiation token mismatch."; if the token matches and the PSK
    status is [kPskNeedsPresentation], it calls [OnAuthenticationFailed]
    with the [kInvalidAnswer] error "Authentication failed: receive wrong
    PSK status.".  In both cases nothing is written to the peer. *)
Theorem handshake_rejections
    (a : Authentication.t) (connection_id : Z) (buffer : list byte)
    (s : ProtocolConnection) (n : Z)
    (h : Authentication.AuthSpake2Handshake) :
  Authentication.sender (Authentication.auth_data_ a) = Some s ->
  Authentication.DecodeAuthSpake2Handshake buffer = (n, h) ->
  0 <= n ->
  let tok := Authentication.initiation_token h in
  let run :=
    Authentication.OnStreamMessage (Authentication.instance_id_ a)
      connection_id Authentication.kAuthSpake2Handshake buffer a in
  let failed (msg : string) :=
    Some (Authentication.Value n,
          Authentication.emit
            [Authentication.OnAuthenticationFailed
               (Authentication.instance_id_ a)
               (Authentication.mkError Authentication.kInvalidAnswer msg)] a) in
  (Authentication.has_token tok = false
     \/ Authentication.token tok
        <> Authentication.auth_token (Authentication.auth_data_ a) ->
   run = failed "Authentication failed: initiation token mismatch."%string)
  /\ (Authentication.has_token tok = true ->
      Authentication.token tok
      = Authentication.auth_token (Authentication.auth_data_ a) ->
      Authentication.psk_status h = Authentication.kPskNeedsPresentation ->
      run = failed "Authentication failed: receive wrong PSK status."%string)
  /\ Authentication.occurs_in "initiation token mismatch"
       "Authentication failed: initiation token mismatch." = true
  /\ Authentication.occurs_in "receive wrong PSK status"
       "Authentication failed: receive wrong PSK status." = true.
Proof.
  intros Hs Hd Hn tok run failed.
  assert (Hrun : run = Authentication.on_handshake
                         (Authentication.instance_id_ a) buffer a).
  { subst run. unfold Authentication.OnStreamMessage.
    rewrite Z.eqb_refl, Hs. reflexivity. }
  rewrite Hrun. unfold Authentication.on_handshake. rewrite Hd.
  destruct (Z.ltb_spec n 0) as [Hneg|_]; [lia|]. fold tok.
  split; [|split; [|split; reflexivity]].
  - intros [Hno | Hdiff].
    + rewrite Hno. reflexivity.
    + destruct (String.eqb_spec (Authentication.token tok)
                  (Authentication.auth_token (Authentication.auth_data_ a)))
        as [Heq | _]; [contradiction|].
      rewrite orb_true_r. reflexivity.
  - intros Hhas Htok Hpsk. rewrite Hhas, Htok, String.eqb_refl, Hpsk.
    reflexivity.
Qed.

(** C8.  [ComputeSharedKey] on the private key of a fingerprint returns a
    key exactly when the P-256 private scalar (the big-endian value of the
    bytes that [base64::Decode] gives for the fingerprint) is accepted, the
    peer's public value parses to a point of P-256, and
    [ECDH_compute_key] reports a secret of 1 to 32 bytes; the key is then
    the SHA-512 digest, 64 bytes long, of that ECDH secret followed by the
    bytes of the password. *)
Theorem shared_key_is_sha512_of_secret_and_password
    (fingerprint : string) (peer_public_value : list byte) (password : string)
    (key : Authentication.array64) :
  let scalar :=
    Authentication.BN_bin2bn (Authentication.base64_Decode fingerprint) in
  Authentication.ComputePrivateKey fingerprint
  = Authentication.base64_Decode fingerprint
  /\ List.length (Authentication.bytes_of key) = 64%nat
  /\ (Authentication.ComputeSharedKey
        (Authentication.ComputePrivateKey fingerprint)
        peer_public_value password = Some key
      <-> exists peer ret secret_buffer,
            Authentication.EC_KEY_set_private_key
              Authentication.NID_X9_62_prime256v1 scalar = true
            /\ Authentication.o2i_ECPublicKey
                 Authentication.NID_X9_62_prime256v1 peer_public_value
               = Some peer
            /\ Authentication.ECDH_compute_key
                 Authentication.NID_X9_62_prime256v1 32 peer scalar
               = (ret, secret_buffer)
            /\ 0 < wrap64 ret <= 32
            /\ key = Authentication.SHA512
                       (firstn (Z.to_nat (wrap64 ret)) secret_buffer
                        ++ list_byte_of_string password)).
Proof.
  intros scalar. split; [reflexivity|]. split; [exact (proj2_sig key)|].
  unfold Authentication.ComputeSharedKey, Authentication.ComputePrivateKey.
  fold scalar.
  destruct (Authentication.EC_KEY_set_private_key
              Authentication.NID_X9_62_prime256v1 scalar) eqn:Hset.
  2: { split; [discriminate|]. intros (peer & ret & buf & H & _). discriminate H. }
  destruct (Authentication.o2i_ECPublicKey
              Authentication.NID_X9_62_prime256v1 peer_public_value)
    as [peer|] eqn:Hpeer.
  2: { split; [discriminate|].
       intros (peer & ret & buf & _ & H & _). discriminate H. }
  destruct (Authentication.ECDH_compute_key
              Authentication.NID_X9_62_prime256v1 32 peer scalar)
    as [ret buf] eqn:Hecdh.
  destruct (Z.ltb_spec 0 (wrap64 ret)) as [Hpos|Hnpos].
  - destruct (Z.leb_spec (wrap64 ret) 32) as [Hle|Hgt].
    + split.
      * intros [= <-]. exists peer, ret, buf. repeat split; auto.
      * intros (peer' & ret' & buf' & _ & [= <-] & Hecdh' & _ & ->).
        rewrite Hecdh in Hecdh'. injection Hecdh' as <- <-. reflexivity.
    + split; [discriminate|].
      intros (peer' & ret' & buf' & _ & [= <-] & Hecdh' & Hr & _).
      rewrite Hecdh in Hecdh'. injection Hecdh' as <- <-. lia.
  - split; [discriminate|].
    intros (peer' & ret' & buf' & _ & [= <-] & Hecdh' & Hr & _).
    rewrite Hecdh in Hecdh'. injection Hecdh' as <- <-. lia.
Qed.

End AuthenticationFacts.

Lemma confirmation_compared_byte_exactly_witness :
  Authentication.OnStreamMessage (ext := Scenario.toy) 5 0 Authentication.kAuthSpake2Confirmation
    [x00] Scenario.bob
  = Some (Authentication.Value 1,
          Authentication.emit
            [Authentication.WriteStatus
               (Authentication.mkStatus Authentication.kAuthenticated);
             Authentication.OnAuthenticationSucceed 5] Scenario.bob)
  /\ Authentication.OnStreamMessage (ext := Scenario.toy) 5 0 Authentication.kAuthSpake2Confirmation
       [x01] Scenario.bob
     = Some (Authentication.Value 1,
             Authentication.emit
               [Authentication.WriteStatus
                  (Authentication.mkStatus Authentication.kProofInvalid);
                Authentication.OnAuthenticationFailed 5
                  (Authentication.mkError Authentication.kInvalidAnswer
                     "Authentication failed: shared key mismatch.")]
               Scenario.bob).
Proof.
  split.
  - refine (proj1 (proj2 (proj2
      (confirmation_compared_byte_exactly (ext := Scenario.toy) Scenario.bob 0
         [x00] (mkPC 5 0) 1
         (Authentication.mkConfirmation Authentication.zero64)
         eq_refl eq_refl _))) eq_refl).
    lia.
  - refine (proj2 (proj2 (proj2
      (confirmation_compared_byte_exactly (ext := Scenario.toy) Scenario.bob 0
         [x01] (mkPC 5 0) 1
         (Authentication.mkConfirmation Scenario.ones64)
         eq_refl eq_refl _))) _).
    + lia.
    + simpl. discriminate.
Defined.

Lemma handshake_rejections_witness :
  Authentication.OnStreamMessage (ext := Scenario.toy) 5 0 Authentication.kAuthSpake2Handshake
    [x55; x00] Scenario.bob
  = Some (Authentication.Value 2,
          Authentication.emit
            [Authentication.OnAuthenticationFailed 5
               (Authentication.mkError Authentication.kInvalidAnswer
                  "Authentication failed: initiation token mismatch.")]
            Scenario.bob)
  /\ Authentication.OnStreamMessage (ext := Scenario.toy) 5 0 Authentication.kAuthSpake2Handshake
       [x54; x00] Scenario.bob
     = Some (Authentication.Value 2,
             Authentication.emit
               [Authentication.OnAuthenticationFailed 5
                  (Authentication.mkError Authentication.kInvalidAnswer
                     "Authentication failed: receive wrong PSK status.")]
               Scenario.bob).
Proof.
  split.
  - refine (proj1
      (handshake_rejections (ext := Scenario.toy) Scenario.bob 0
         [x55; x00] (mkPC 5 0) 2
         (Authentication.mkHandshake (Authentication.mkToken true "U")
            Authentication.kPskNeedsPresentation [])
         eq_refl eq_refl _) _).
    + lia.
    + right. simpl. discriminate.
  - refine (proj1 (proj2
      (handshake_rejections (ext := Scenario.toy) Scenario.bob 0
         [x54; x00] (mkPC 5 0) 2
         (Authentication.mkHandshake (Authentication.mkToken true "T")
            Authentication.kPskNeedsPresentation [])
         eq_refl eq_refl _)) eq_refl eq_refl eq_refl).
    lia.
Defined.

(** With the stand-in primitives the consumer does compute a key. *)
Example shared_key_computed :
  Authentication.ComputeSharedKey (ext := Scenario.toy)
    (Authentication.ComputePrivateKey (ext := Scenario.toy) "fingerprint")
    [x04] "0000"
  = Some Scenario.ones64.
Proof. reflexivity. Qed.

(** ** Witnesses of the client invariants *)

Lemma request_ids_ok_two_waiters :
  request_ids_ok (Scenario.after Scenario.two_waiters_run).
Proof.
  unfold request_ids_ok, pending_ok, two64. vm_compute.
  repeat split; try discriminate; repeat constructor; try discriminate;
    simpl; intuition discriminate.
Qed.

Lemma client_state_run_witness :
  QuicClient.state_ (Scenario.after Scenario.closed_run) = QuicClient.kStopped
  \/ QuicClient.state_ (Scenario.after Scenario.closed_run)
     = QuicClient.kRunning.
Proof.
  apply (client_state_run Scenario.closed_run QuicClient.init).
  - left. reflexivity.
  - vm_compute. reflexivity.
Defined.

Lemma ids_below_run_witness : ids_below (Scenario.after Scenario.closed_run).
Proof.
  apply (ids_below_run Scenario.closed_run QuicClient.init).
  - unfold ids_below, two64. simpl. repeat split; try lia; constructor.
  - unfold two64. simpl. lia.
  - vm_compute. reflexivity.
Defined.

Lemma request_ids_ok_run_witness :
  request_ids_ok (Scenario.after Scenario.closed_run).
Proof.
  apply (request_ids_ok_run Scenario.closed_run QuicClient.init).
  - unfold request_ids_ok, pending_ok, two64. simpl.
    repeat split; try lia; constructor.
  - unfold two64. simpl. lia.
  - vm_compute. reflexivity.
Defined.

Lemma cancel_removes_only_that_waiter_witness :
  match StdMap.find "X"%string
          (QuicClient.pending_connections_
             (QuicClient.CancelConnectRequest 1
                (Scenario.after Scenario.two_waiters_run))) with
  | None => False
  | Some p' => QuicClient.callbacks p' = [(2, 101)]
  end.
Proof.
  pose proof (cancel_removes_only_that_waiter 1
                (Scenario.after Scenario.two_waiters_run)
                (proj1 request_ids_ok_two_waiters) "X"%string
                (QuicClient.mkPending
                   (mkData (mkConn 7 0) (mkDelegate "X" [] []))
                   [(1, 100); (2, 101)])
                eq_refl) as H.
  vm_compute in H. vm_compute. destruct H as (_ & H & _). exact H.
Defined.

Lemma cancelled_request_never_opened_witness :
  exists evs,
    QuicClient.trace
      (snd (QuicClient.OnCryptoHandshakeComplete "X"
              (QuicClient.CancelConnectRequest 1
                 (Scenario.after Scenario.two_waiters_run))))
    = QuicClient.trace (Scenario.after Scenario.two_waiters_run) ++ evs
    /\ ~ In 1 (opened_ids evs).
Proof.
  apply (cancelled_request_never_opened 1
           (Scenario.after Scenario.two_waiters_run) _
           [QuicClient.OpOnCryptoHandshakeComplete "X"]).
  - exact request_ids_ok_two_waiters.
  - vm_compute. reflexivity.
  - vm_compute. reflexivity.
  - reflexivity.
Defined.

(** ** [Connect], [Cleanup], cancellation and discovery *)

(** X6.  [Connect] fails exactly in these cases: the client is not
    running; or the instance has neither an established connection nor a
    pending entry and is either unknown to discovery or refused by the
    connection factory.  In every such case the only effect is one
    [OnConnectionFailed(0)] on the caller's callback and no request id is
    written.  (The request-id counter is not 0.) *)
Theorem connect_fails_iff (c c' : QuicClient.t) (name : string) (cb : Z)
    (fr : option QuicConnection) (q : option Z) :
  QuicClient.next_request_id_ c <> 0 ->
  (QuicClient.Connect name cb fr c = Some (false, q, c')
   <-> q = None
       /\ c' = QuicClient.emit [OnConnectionFailed cb 0] c
       /\ (QuicClient.state_ c <> QuicClient.kRunning
           \/ (StdMap.find name (QuicClient.instance_map_ c) = None
               /\ StdMap.find name (QuicClient.pending_connections_ c) = None
               /\ (StdMap.find name (QuicClient.instance_infos_ c) = None
                   \/ fr = None)))).
Proof.
  intros Hnz. unfold QuicClient.Connect.
  destruct (QuicClient.state_ c) eqn:Es.
  1,2,4: (split;
          [ intros [= <- <-]; repeat split; left; discriminate
          | intros (-> & -> & _); reflexivity ]).
  destruct (StdMap.find name (QuicClient.instance_map_ c)) as [n|] eqn:Hm.
  - split.
    + destruct (QuicClient.CreateProtocolConnection n c) as [[pc|] c1];
        discriminate.
    + intros (_ & _ & [H | (H & _)]); [congruence | discriminate].
  - unfold QuicClient.CreatePendingConnection.
    destruct (StdMap.find name (QuicClient.pending_connections_ c))
      as [p|] eqn:Hp.
    + split; [discriminate|].
      intros (_ & _ & [H | (_ & H & _)]); [congruence | discriminate].
    + unfold QuicClient.StartConnectionRequest.
      destruct (StdMap.find name (QuicClient.instance_infos_ c))
        as [ii|] eqn:Hi; [destruct fr as [conn|]|].
      * destruct (Z.eqb_spec (QuicClient.next_request_id_ c) 0) as [H0|_];
          [contradiction|].
        split; [discriminate|].
        intros (_ & _ & [H | (_ & _ & [H | H])]); [congruence | | ]; discriminate.
      * simpl. split.
        -- intros [= <- <-]. repeat split. right. auto.
        -- intros (-> & -> & _). reflexivity.
      * simpl. split.
        -- intros [= <- <-]. repeat split. right. auto.
        -- intros (-> & -> & _). reflexivity.
Qed.

(** X7.  When [Connect] succeeds it returns the counter's current value as
    request id and advances the counter, and either the instance was
    established and the callback is notified at once with a protocol
    connection of that instance, the pending table staying as it was; or
    nothing is notified, the request is the last waiter of the instance's
    pending entry and the entries of all other instances are untouched. *)
Theorem connect_succeeds_opened_or_waiting (c c' : QuicClient.t)
    (name : string) (cb : Z) (fr : option QuicConnection) (q : option Z) :
  QuicClient.Connect name cb fr c = Some (true, q, c') ->
  let rid := QuicClient.next_request_id_ c in
  q = Some rid
  /\ QuicClient.next_request_id_ c' = incr64 rid
  /\ ((exists pc,
          QuicClient.trace c' = QuicClient.trace c
                                ++ [OnConnectionOpened cb rid pc]
          /\ StdMap.find name (QuicClient.instance_map_ c)
             = Some (pc_instance_id pc)
          /\ QuicClient.pending_connections_ c'
             = QuicClient.pending_connections_ c)
      \/ (QuicClient.trace c' = QuicClient.trace c
          /\ StdMap.find name (QuicClient.instance_map_ c) = None
          /\ (exists p,
                 StdMap.find name (QuicClient.pending_connections_ c') = Some p
                 /\ QuicClient.callbacks p
                    = match StdMap.find name
                              (QuicClient.pending_connections_ c) with
                      | Some old => QuicClient.callbacks old
                      | None => []
                      end ++ [(rid, cb)])
          /\ forall other,
               other <> name ->
               StdMap.find other (QuicClient.pending_connections_ c')
               = StdMap.find other (QuicClient.pending_connections_ c))).
Proof.
  unfold QuicClient.Connect.
  destruct (QuicClient.state_ c) eqn:Es; try discriminate.
  destruct (StdMap.find name (QuicClient.instance_map_ c)) as [n|] eqn:Hm.
  - unfold QuicClient.CreateProtocolConnection. rewrite Es.
    destruct (StdMap.find n (QuicClient.connections_ c)) as [d|];
      [|discriminate].
    simpl. intros [= <- <-]. simpl. repeat split. left.
    eexists. repeat split.
  - unfold QuicClient.CreatePendingConnection.
    destruct (StdMap.find name (QuicClient.pending_connections_ c))
      as [p|] eqn:Hp.
    + intros [= <- <-]. simpl. repeat split. right. repeat split.
      * eexists. split; [apply find_assign_eq | reflexivity].
      * intros other Hne. apply find_assign_ne. congruence.
    + unfold QuicClient.StartConnectionRequest. rewrite Hp.
      destruct (StdMap.find name (QuicClient.instance_infos_ c));
        [destruct fr as [conn|]|]; simpl; try discriminate.
      destruct (QuicClient.next_request_id_ c =? 0); [discriminate|].
      intros [= <- <-]. simpl. repeat split. right. repeat split.
      * eexists. split; [apply find_assign_eq | reflexivity].
      * intros other Hne. apply find_assign_ne. congruence.
Qed.




(** X9.  Cancelling a request id that waits on no pending entry changes
    nothing, and cancelling the same id a second time changes nothing. *)
Theorem cancel_unknown_or_twice_changes_nothing (rid : Z) (c : QuicClient.t) :
  pending_ok (QuicClient.pending_connections_ c) ->
  (~ In rid (all_request_ids (QuicClient.pending_connections_ c)) ->
   QuicClient.CancelConnectRequest rid c = c)
  /\ QuicClient.CancelConnectRequest rid (QuicClient.CancelConnectRequest rid c)
     = QuicClient.CancelConnectRequest rid c.
Proof.
  intros Hok.
  assert (Hnoop : forall c0 : QuicClient.t,
            Forall (fun e => QuicClient.callbacks (snd e) <> [])
                   (QuicClient.pending_connections_ c0) ->
            ~ In rid (all_request_ids (QuicClient.pending_connections_ c0)) ->
            QuicClient.CancelConnectRequest rid c0 = c0).
  { intros c0 Hne Hnotin. unfold QuicClient.CancelConnectRequest.
    rewrite (cancel_loop_absent rid _ Hne Hnotin). now destruct c0. }
  split.
  - apply Hnoop. apply Hok.
  - destruct (pending_ok_cancel_loop rid _ Hok) as ((_ & Hne & _) & Hgone & _).
    apply Hnoop; assumption.
Qed.

(** X10.  Discovery decides whether a new connection can be requested.
    [OnReceiverAdded] keeps the information already stored for the name
    and [OnReceiverChanged] replaces it; after either, [Connect] to the name
    starts a pending connection with this request as its only waiter.
    After [OnReceiverRemoved] of the name, or [OnAllReceiversRemoved],
    [Connect] fails with [OnConnectionFailed(0)]. *)
Theorem discovery_decides_new_connections (c : QuicClient.t)
    (i : QuicClient.ServiceInfo) (cb : Z) (conn : QuicConnection) :
  QuicClient.state_ c = QuicClient.kRunning ->
  StdMap.find (QuicClient.instance_id i) (QuicClient.instance_map_ c) = None ->
  StdMap.find (QuicClient.instance_id i) (QuicClient.pending_connections_ c)
  = None ->
  QuicClient.next_request_id_ c <> 0 ->
  let name := QuicClient.instance_id i in
  let rid := QuicClient.next_request_id_ c in
  let waiting c' :=
    StdMap.find name (QuicClient.pending_connections_ c')
    = Some (QuicClient.mkPending (mkData conn (mkDelegate name [] []))
                                 [(rid, cb)]) in
  StdMap.find name (QuicClient.instance_infos_ (QuicClient.OnReceiverAdded i c))
  = Some (match StdMap.find name (QuicClient.instance_infos_ c) with
          | Some old => old
          | None => QuicClient.info i
          end)
  /\ StdMap.find name
       (QuicClient.instance_infos_ (QuicClient.OnReceiverChanged i c))
     = Some (QuicClient.info i)
  /\ (exists c', QuicClient.Connect name cb (Some conn)
                   (QuicClient.OnReceiverAdded i c)
                 = Some (true, Some rid, c') /\ waiting c')
  /\ (exists c', QuicClient.Connect name cb (Some conn)
                   (QuicClient.OnReceiverChanged i c)
                 = Some (true, Some rid, c') /\ waiting c')
  /\ QuicClient.Connect name cb (Some conn) (QuicClient.OnReceiverRemoved i c)
     = Some (false, None,
             QuicClient.emit [OnConnectionFailed cb 0]
               (QuicClient.OnReceiverRemoved i c))
  /\ QuicClient.Connect name cb (Some conn) (QuicClient.OnAllReceiversRemoved c)
     = Some (false, None,
             QuicClient.emit [OnConnectionFailed cb 0]
               (QuicClient.OnAllReceiversRemoved c)).
Proof.
  intros Hrun Hmap Hpend Hnz name rid waiting.
  subst name rid.
  set (name := QuicClient.instance_id i) in *.
  set (rid := QuicClient.next_request_id_ c) in *.
  assert (Hadded :
            StdMap.find name
              (QuicClient.instance_infos_ (QuicClient.OnReceiverAdded i c))
            = Some (match StdMap.find name (QuicClient.instance_infos_ c) with
                    | Some old => old
                    | None => QuicClient.info i
                    end)).
  { simpl. fold name. unfold StdMap.emplace.
    destruct (StdMap.find name (QuicClient.instance_infos_ c)) eqn:Hf.
    - exact Hf.
    - now apply find_insert_sorted_eq. }
  assert (Hchanged :
            StdMap.find name
              (QuicClient.instance_infos_ (QuicClient.OnReceiverChanged i c))
            = Some (QuicClient.info i)).
  { simpl. apply find_assign_eq. }
  assert (Hconnect : forall c0 ii,
            QuicClient.state_ c0 = QuicClient.kRunning ->
            QuicClient.instance_map_ c0 = QuicClient.instance_map_ c ->
            QuicClient.pending_connections_ c0
            = QuicClient.pending_connections_ c ->
            QuicClient.next_request_id_ c0 = rid ->
            StdMap.find name (QuicClient.instance_infos_ c0) = Some ii ->
            exists c', QuicClient.Connect name cb (Some conn) c0
                       = Some (true, Some rid, c') /\ waiting c').
  { intros c0 ii Hs Hm Hp Hn Hi. unfold QuicClient.Connect.
    rewrite Hs, Hm, Hmap. unfold QuicClient.CreatePendingConnection.
    rewrite Hp, Hpend. unfold QuicClient.StartConnectionRequest.
    rewrite Hi, Hp, Hpend, Hn.
    destruct (Z.eqb_spec rid 0) as [H0|_]; [contradiction|].
    eexists. split; [reflexivity|]. unfold waiting. simpl.
    apply find_assign_eq. }
  assert (Hfail : forall c0,
            QuicClient.state_ c0 = QuicClient.kRunning ->
            QuicClient.instance_map_ c0 = QuicClient.instance_map_ c ->
            QuicClient.pending_connections_ c0
            = QuicClient.pending_connections_ c ->
            StdMap.find name (QuicClient.instance_infos_ c0) = None ->
            QuicClient.Connect name cb (Some conn) c0
            = Some (false, None,
                    QuicClient.emit [OnConnectionFailed cb 0] c0)).
  { intros c0 Hs Hm Hp Hi. unfold QuicClient.Connect.
    rewrite Hs, Hm, Hmap. unfold QuicClient.CreatePendingConnection.
    rewrite Hp, Hpend. unfold QuicClient.StartConnectionRequest.
    rewrite Hi. reflexivity. }
  split; [exact Hadded|]. split; [exact Hchanged|].
  split; [eapply Hconnect; try reflexivity; eauto|].
  split; [eapply Hconnect; try reflexivity; eauto|].
  split; apply Hfail; try reflexivity; auto.
  simpl. apply find_erase_eq.
Qed.



Lemma connect_fails_iff_witness :
  QuicClient.Connect "X" 100 None QuicClient.init
  = Some (false, None,
          QuicClient.emit [OnConnectionFailed 100 0] QuicClient.init).
Proof.
  apply (connect_fails_iff QuicClient.init
           (QuicClient.emit [OnConnectionFailed 100 0] QuicClient.init)
           "X" 100 None None).
  - simpl. discriminate.
  - split; [reflexivity|]. split; [reflexivity|]. left. simpl. discriminate.
Defined.

Lemma connect_succeeds_opened_or_waiting_witness :
  QuicClient.next_request_id_ (Scenario.after Scenario.one_waiter_run)
  = incr64 (QuicClient.next_request_id_
              (Scenario.after Scenario.discovered_run))
  /\ QuicClient.trace (Scenario.after Scenario.one_waiter_run)
     = QuicClient.trace (Scenario.after Scenario.discovered_run).
Proof.
  assert (Hconnect :
            QuicClient.Connect "X" 100 (Some (Scenario.session 7))
              (Scenario.after Scenario.discovered_run)
            = Some (true, Some 1, Scenario.after Scenario.one_waiter_run))
    by (vm_compute; reflexivity).
  pose proof (connect_succeeds_opened_or_waiting
                (Scenario.after Scenario.discovered_run)
                (Scenario.after Scenario.one_waiter_run)
                "X" 100 (Some (Scenario.session 7)) (Some 1) Hconnect) as H.
  cbv zeta in H. destruct H as (_ & Hnext & Hcases).
  split; [exact Hnext|].
  destruct Hcases as [(pc & _ & Hmap & _) | (Htrace & _)].
  - vm_compute in Hmap. discriminate Hmap.
  - exact Htrace.
Defined.

Lemma cancel_unknown_or_twice_changes_nothing_witness :
  QuicClient.CancelConnectRequest 5 (Scenario.after Scenario.two_waiters_run)
  = Scenario.after Scenario.two_waiters_run
  /\ QuicClient.CancelConnectRequest 1
       (QuicClient.CancelConnectRequest 1
          (Scenario.after Scenario.two_waiters_run))
     = QuicClient.CancelConnectRequest 1
         (Scenario.after Scenario.two_waiters_run).
Proof.
  split.
  - apply (proj1 (cancel_unknown_or_twice_changes_nothing 5
                    (Scenario.after Scenario.two_waiters_run)
                    (proj1 request_ids_ok_two_waiters))).
    vm_compute. intuition discriminate.
  - apply (proj2 (cancel_unknown_or_twice_changes_nothing 1
                    (Scenario.after Scenario.two_waiters_run)
                    (proj1 request_ids_ok_two_waiters))).
Defined.

Lemma discovery_decides_new_connections_witness :
  QuicClient.Connect (QuicClient.instance_id Scenario.receiver_X) 100
    (Some (Scenario.session 7))
    (QuicClient.OnReceiverRemoved Scenario.receiver_X
       (Scenario.after [QuicClient.OpStart]))
  = Some (false, None,
          QuicClient.emit [OnConnectionFailed 100 0]
            (QuicClient.OnReceiverRemoved Scenario.receiver_X
               (Scenario.after [QuicClient.OpStart]))).
Proof.
  assert (Hstate : QuicClient.state_ (Scenario.after [QuicClient.OpStart])
                   = QuicClient.kRunning) by (vm_compute; reflexivity).
  assert (Hmap : StdMap.find (QuicClient.instance_id Scenario.receiver_X)
                   (QuicClient.instance_map_
                      (Scenario.after [QuicClient.OpStart])) = None)
    by (vm_compute; reflexivity).
  assert (Hpending : StdMap.find (QuicClient.instance_id Scenario.receiver_X)
                       (QuicClient.pending_connections_
                          (Scenario.after [QuicClient.OpStart])) = None)
    by (vm_compute; reflexivity).
  assert (Hnext : QuicClient.next_request_id_
                    (Scenario.after [QuicClient.OpStart]) <> 0)
    by (vm_compute; discriminate).
  pose proof (discovery_decides_new_connections
                (Scenario.after [QuicClient.OpStart]) Scenario.receiver_X 100
                (Scenario.session 7) Hstate Hmap Hpending Hnext) as H.
  cbv zeta in H. destruct H as (_ & _ & _ & _ & Hremoved & _).
  exact Hremoved.
Defined.

(** ** The server *)

(** X12.  How a running server takes in a connection.
    [NextConnectionDelegate(source)] makes the pending delegate, and a
    second call before [OnIncomingConnection] aborts, as does
    [OnIncomingConnection] without a pending delegate.
    [OnIncomingConnection] files the connection under the source's name,
    unless a connection from that source is already pending, which then
    stays.  [OnCryptoHandshakeComplete] for the name issues the next
    instance id, maps the name to it, moves the pending record to
    [connections_] under that id, and calls no one. *)
Theorem server_accepts_incoming_connection (c : QuicServer.t)
    (source : string) (conn : QuicConnection) :
  QuicServer.state_ c = QuicServer.kRunning ->
  QuicServer.pending_connection_delegate_ c = None ->
  StdMap.find (QuicServer.next_instance_id_ c) (QuicServer.connections_ c)
  = None ->
  let accepted :=
    match StdMap.find source (QuicServer.pending_connections_ c) with
    | Some earlier => earlier
    | None => mkData conn (mkDelegate source [] [])
    end in
  exists c1 c2 c3,
    QuicServer.NextConnectionDelegate source c = Some c1
    /\ QuicServer.NextConnectionDelegate source c1 = None
    /\ QuicServer.OnIncomingConnection conn c = None
    /\ QuicServer.OnIncomingConnection conn c1 = Some c2
    /\ QuicServer.pending_connection_delegate_ c2 = None
    /\ StdMap.find source (QuicServer.pending_connections_ c2) = Some accepted
    /\ QuicServer.OnCryptoHandshakeComplete source c2
       = Some (QuicServer.next_instance_id_ c, c3)
    /\ QuicServer.next_instance_id_ c3 = incr64 (QuicServer.next_instance_id_ c)
    /\ StdMap.find source (QuicServer.instance_map_ c3)
       = Some (QuicServer.next_instance_id_ c)
    /\ StdMap.find source (QuicServer.pending_connections_ c3) = None
    /\ StdMap.find (QuicServer.next_instance_id_ c) (QuicServer.connections_ c3)
       = Some accepted
    /\ QuicServer.trace c3 = QuicServer.trace c.
Proof.
  intros Hrun Hnone Hfresh accepted.
  unfold QuicServer.NextConnectionDelegate, QuicServer.OnIncomingConnection.
  rewrite Hrun, Hnone.
  eexists. eexists. eexists.
  split; [reflexivity|]. simpl.
  split; [reflexivity|]. split; [reflexivity|]. split; [reflexivity|].
  split; [reflexivity|].
  assert (Hacc : StdMap.find source
                   (StdMap.emplace source (mkData conn (mkDelegate source [] []))
                      (QuicServer.pending_connections_ c)) = Some accepted).
  { subst accepted. unfold StdMap.emplace.
    destruct (StdMap.find source (QuicServer.pending_connections_ c)) eqn:Hf.
    - exact Hf.
    - now apply find_insert_sorted_eq. }
  split; [exact Hacc|].
  unfold QuicServer.OnCryptoHandshakeComplete. simpl. rewrite Hacc.
  split; [reflexivity|]. simpl.
  split; [reflexivity|].
  split; [apply find_assign_eq|].
  split; [apply find_erase_eq|].
  split; [now apply find_emplace_absent | reflexivity].
Qed.

(** X13.  [Suspend] succeeds only on a running server, and changes only
    the state and notifies [OnSuspended]; the connection factory keeps its
    server delegate.  On the suspended server every callback of the QUIC
    layer aborts on its [OSP_CHECK_EQ(state_, kRunning)],
    [CreateProtocolConnection] returns null, and [Resume] brings back the
    state the server had before [Suspend], with [OnRunning] notified. *)
Theorem server_suspended_rejects_callbacks (c c' : QuicServer.t) :
  QuicServer.Suspend c = (true, c') ->
  QuicServer.state_ c = QuicServer.kRunning
  /\ c' = QuicServer.emit [OnSuspended]
            (QuicServer.set_state QuicServer.kSuspended c)
  /\ (forall source, QuicServer.NextConnectionDelegate source c' = None)
  /\ (forall conn, QuicServer.OnIncomingConnection conn c' = None)
  /\ (forall name, QuicServer.OnCryptoHandshakeComplete name c' = None)
  /\ (forall pc, QuicServer.OnIncomingStream pc c' = None)
  /\ (forall id, QuicServer.OnConnectionClosed id c' = None)
  /\ (forall id pcid bytes, QuicServer.OnDataReceived id pcid bytes c' = None)
  /\ (forall id, QuicServer.CreateProtocolConnection id c' = (None, c'))
  /\ QuicServer.Resume c'
     = (true, QuicServer.emit [OnSuspended; OnRunning] c).
Proof.
  unfold QuicServer.Suspend.
  destruct (QuicServer.state_ c) eqn:Hs; try discriminate.
  intros [= <-]. split; [reflexivity|]. split; [reflexivity|].
  repeat (split; [intros; reflexivity|]).
  unfold QuicServer.Resume, QuicServer.emit, QuicServer.set_state. simpl.
  rewrite <- app_assoc. simpl. rewrite <- Hs. reflexivity.
Qed.




Lemma server_accepts_incoming_connection_witness :
  exists c1 c2 c3,
    QuicServer.NextConnectionDelegate "192.0.2.7:4433" Scenario.server
    = Some c1
    /\ QuicServer.OnIncomingConnection (Scenario.session 9) c1 = Some c2
    /\ QuicServer.OnCryptoHandshakeComplete "192.0.2.7:4433" c2
       = Some (QuicServer.next_instance_id_ Scenario.server, c3)
    /\ StdMap.find (QuicServer.next_instance_id_ Scenario.server)
         (QuicServer.connections_ c3)
       = Some (mkData (Scenario.session 9)
                      (mkDelegate "192.0.2.7:4433" [] [])).
Proof.
  assert (Hstate : QuicServer.state_ Scenario.server = QuicServer.kRunning)
    by (vm_compute; reflexivity).
  assert (Hdelegate : QuicServer.pending_connection_delegate_ Scenario.server
                      = None) by (vm_compute; reflexivity).
  assert (Hfresh : StdMap.find (QuicServer.next_instance_id_ Scenario.server)
                     (QuicServer.connections_ Scenario.server) = None)
    by (vm_compute; reflexivity).
  pose proof (server_accepts_incoming_connection Scenario.server
                "192.0.2.7:4433" (Scenario.session 9) Hstate Hdelegate Hfresh)
    as H.
  cbv zeta in H.
  destruct H as (c1 & c2 & c3 & H1 & _ & _ & H2 & _ & _ & H3 & _ & _ & _
                 & H4 & _).
  exists c1, c2, c3. split; [exact H1|]. split; [exact H2|].
  split; [exact H3|]. exact H4.
Defined.

Lemma server_suspended_rejects_callbacks_witness :
  QuicServer.OnIncomingStream (mkPC 1 4)
    (snd (QuicServer.Suspend Scenario.server)) = None
  /\ QuicServer.Resume (snd (QuicServer.Suspend Scenario.server))
     = (true, QuicServer.emit [OnSuspended; OnRunning] Scenario.server).
Proof.
  assert (Hsuspend : QuicServer.Suspend Scenario.server
                     = (true, snd (QuicServer.Suspend Scenario.server)))
    by (vm_compute; reflexivity).
  destruct (server_suspended_rejects_callbacks Scenario.server
              (snd (QuicServer.Suspend Scenario.server)) Hsuspend)
    as (_ & _ & _ & _ & _ & Hstream & _ & _ & _ & Hresume).
  split; [apply Hstream | exact Hresume].
Defined.

(** ** Stream callbacks and protocol connections *)

Lemma stream_OnReceived_all (sid : Z) (pair : ServiceStreamPair)
    (chunks : list (list Z)) :
  forall d : StreamDelegate.t,
    StdMap.find sid (streams_ (StreamDelegate.members d)) = Some pair ->
    StreamDelegate.run (map (StreamDelegate.OpOnReceived sid) chunks) d
    = StreamDelegate.emit
        (map (StreamDelegate.Parent_OnDataReceived
                (StreamDelegate.instance_id_ d)
                (protocol_connection_id pair)) chunks) d.
Proof.
  induction chunks as [|b chunks IH]; intros d Hf.
  - unfold StreamDelegate.run, StreamDelegate.emit. simpl.
    rewrite app_nil_r. now destruct d.
  - change (StreamDelegate.run
              (map (StreamDelegate.OpOnReceived sid) (b :: chunks)) d)
      with (StreamDelegate.run
              (map (StreamDelegate.OpOnReceived sid) chunks)
              (StreamDelegate.OnReceived sid b d)).
    unfold StreamDelegate.OnReceived. rewrite Hf.
    rewrite IH by exact Hf.
    unfold StreamDelegate.emit. simpl. now rewrite <- app_assoc.
Qed.

(** X15.  Data of a registered stream reaches the parent in order, and
    the close of the stream is one more, empty, delivery.  For chunks
    received on a stream and then [OnClose] of it, the delegate calls
    [OnDataReceived] once per chunk, in order, with the delegate's
    instance id and the stream's protocol connection id, then
    [OnDataReceived] with no bytes, then detaches and notifies the
    protocol connection if the pair still points to one.  The pair moves
    from [streams_] to the end of [closed_streams_], other streams are
    untouched, and later data or a later close for the stream does
    nothing. *)
Theorem stream_data_forwarded_in_order_until_close (d : StreamDelegate.t)
    (sid : Z) (pair : ServiceStreamPair) (chunks : list (list Z)) :
  StdMap.find sid (streams_ (StreamDelegate.members d)) = Some pair ->
  let id := StreamDelegate.instance_id_ d in
  let pcid := protocol_connection_id pair in
  let d' :=
    StreamDelegate.run
      (map (StreamDelegate.OpOnReceived sid) chunks
       ++ [StreamDelegate.OpOnClose sid]) d in
  StreamDelegate.calls d'
  = StreamDelegate.calls d
    ++ map (StreamDelegate.Parent_OnDataReceived id pcid) chunks
    ++ [StreamDelegate.Parent_OnDataReceived id pcid []]
    ++ match protocol_connection pair with
       | Some pc => [StreamDelegate.Connection_set_stream pc None;
                     StreamDelegate.Connection_OnClose pc]
       | None => []
       end
  /\ StdMap.find sid (streams_ (StreamDelegate.members d')) = None
  /\ closed_streams_ (StreamDelegate.members d')
     = closed_streams_ (StreamDelegate.members d) ++ [pair]
  /\ (forall other,
        other <> sid ->
        StdMap.find other (streams_ (StreamDelegate.members d'))
        = StdMap.find other (streams_ (StreamDelegate.members d)))
  /\ (forall bytes, StreamDelegate.OnReceived sid bytes d' = d')
  /\ StreamDelegate.OnClose sid d' = d'.
Proof.
  intros Hf id pcid d'.
  assert (Hd' : d' = StreamDelegate.OnClose sid
                       (StreamDelegate.emit
                          (map (StreamDelegate.Parent_OnDataReceived id pcid)
                               chunks) d)).
  { subst d'. unfold StreamDelegate.run. rewrite fold_left_app.
    change (fold_left (fun acc o => StreamDelegate.step o acc)
              (map (StreamDelegate.OpOnReceived sid) chunks) d)
      with (StreamDelegate.run
              (map (StreamDelegate.OpOnReceived sid) chunks) d).
    rewrite (stream_OnReceived_all sid pair chunks d Hf). reflexivity. }
  assert (Hgone : StdMap.find sid (streams_ (StreamDelegate.members d'))
                  = None).
  { rewrite Hd'. unfold StreamDelegate.OnClose. simpl. rewrite Hf. simpl.
    apply find_erase_eq. }
  split; [|split; [exact Hgone|split; [|split; [|split]]]].
  - rewrite Hd'. unfold StreamDelegate.OnClose. simpl. rewrite Hf. simpl.
    now rewrite <- !app_assoc.
  - rewrite Hd'. unfold StreamDelegate.OnClose. simpl. rewrite Hf. reflexivity.
  - intros other Hne. rewrite Hd'. unfold StreamDelegate.OnClose. simpl.
    rewrite Hf. simpl. apply find_erase_ne. congruence.
  - intros bytes. unfold StreamDelegate.OnReceived. now rewrite Hgone.
  - unfold StreamDelegate.OnClose. now rewrite Hgone.
Qed.

Lemma ProtocolConnection_eqb_refl (pc : ProtocolConnection) :
  ProtocolConnection_eqb pc pc = true.
Proof. unfold ProtocolConnection_eqb. now rewrite !Z.eqb_refl. Qed.

(** X16.  When the peer closes a stream, the protocol connection of that
    stream is detached: delivering the calls [OnClose] makes to the
    protocol connection leaves it without a stream, tells its observer
    [OnConnectionClosed] exactly once if it has one, and afterwards
    [Write], [CloseWriteEnd] and the destructor of the protocol connection
    make no call at all. *)
Theorem closed_stream_detaches_protocol_connection (d : StreamDelegate.t)
    (o : QuicProtocolConnection.t) (sid : Z) (pair : ServiceStreamPair) :
  StdMap.find sid (streams_ (StreamDelegate.members d)) = Some pair ->
  protocol_connection pair = Some (QuicProtocolConnection.self o) ->
  exists new,
    StreamDelegate.calls (StreamDelegate.OnClose sid d)
    = StreamDelegate.calls d ++ new
    /\ let o' := QuicProtocolConnection.deliver_all new o in
       QuicProtocolConnection.stream_ o' = None
       /\ QuicProtocolConnection.calls o'
          = QuicProtocolConnection.calls o
            ++ match QuicProtocolConnection.observer_ o with
               | Some observer =>
                   [QuicProtocolConnection.Observer_OnConnectionClosed
                      observer (QuicProtocolConnection.self o)]
               | None => []
               end
       /\ (forall bytes, QuicProtocolConnection.Write bytes o' = o')
       /\ QuicProtocolConnection.CloseWriteEnd o' = o'
       /\ QuicProtocolConnection.destroy o' = o'.
Proof.
  intros Hf Hpc. unfold StreamDelegate.OnClose. rewrite Hf, Hpc. simpl.
  eexists. split; [reflexivity|].
  unfold QuicProtocolConnection.deliver_all. simpl.
  rewrite ProtocolConnection_eqb_refl. simpl.
  rewrite ProtocolConnection_eqb_refl.
  unfold QuicProtocolConnection.OnClose. simpl.
  destruct (QuicProtocolConnection.observer_ o); simpl.
  - repeat split.
  - rewrite app_nil_r. repeat split.
Qed.

Lemma find_erase_Some {V : Type} (k s : Z) (m : list (Z * V)) (v : V) :
  StdMap.find k (StdMap.erase s m) = Some v -> StdMap.find k m = Some v.
Proof.
  destruct (Z.eq_dec s k) as [->|Hne].
  - now rewrite find_erase_eq.
  - now rewrite find_erase_ne.
Qed.

Lemma stream_run_never_calls (pcid : Z) (ops : list StreamDelegate.Op) :
  forall d : StreamDelegate.t,
    (forall k p q,
        StdMap.find k (streams_ (StreamDelegate.members d)) = Some p ->
        protocol_connection p = Some q -> pc_id q <> pcid) ->
    exists new,
      StreamDelegate.calls (StreamDelegate.run ops d)
      = StreamDelegate.calls d ++ new
      /\ Forall (fun call => forall q,
                   StreamDelegate.target call = Some q -> pc_id q <> pcid) new.
Proof.
  induction ops as [|o ops IH]; intros d Hinv.
  - exists []. split; [simpl; now rewrite app_nil_r | constructor].
  - change (StreamDelegate.run (o :: ops) d)
      with (StreamDelegate.run ops (StreamDelegate.step o d)).
    assert (Hstep : exists new1,
               StreamDelegate.calls (StreamDelegate.step o d)
               = StreamDelegate.calls d ++ new1
               /\ Forall (fun call => forall q,
                            StreamDelegate.target call = Some q ->
                            pc_id q <> pcid) new1
               /\ forall k p q,
                    StdMap.find k
                      (streams_ (StreamDelegate.members (StreamDelegate.step o d)))
                    = Some p ->
                    protocol_connection p = Some q -> pc_id q <> pcid).
    { destruct o as [sid bytes | sid]; simpl.
      - unfold StreamDelegate.OnReceived.
        destruct (StdMap.find sid (streams_ (StreamDelegate.members d)))
          as [pair|].
        + eexists. split; [reflexivity|]. split; [|exact Hinv].
          constructor; [discriminate | constructor].
        + exists []. split; [now rewrite app_nil_r|].
          split; [constructor | exact Hinv].
      - unfold StreamDelegate.OnClose.
        destruct (StdMap.find sid (streams_ (StreamDelegate.members d)))
          as [pair|] eqn:Hf.
        + eexists. split; [reflexivity|]. split.
          * constructor; [discriminate|].
            destruct (protocol_connection pair) as [pc|] eqn:Hpc;
              [|constructor].
            constructor; [|constructor; [|constructor]];
              intros q [= <-]; exact (Hinv sid pair pc Hf Hpc).
          * simpl. intros k p q Hk. apply (Hinv k p q).
            eapply find_erase_Some. exact Hk.
        + exists []. split; [now rewrite app_nil_r|].
          split; [constructor | exact Hinv]. }
    destruct Hstep as (new1 & Hc1 & Hall1 & Hinv1).
    destruct (IH _ Hinv1) as (new2 & Hc2 & Hall2).
    exists (new1 ++ new2). split.
    + now rewrite Hc2, Hc1, app_assoc.
    + apply Forall_app. now split.
Qed.

(** X17.  A destroyed protocol connection is never called again.  The
    destructor of a protocol connection with a stream closes the write end
    and tells its owner; when the client handles that
    [OnConnectionDestroyed], the record of the connection keeps its
    connection and its streams, and from then on no run of stream callbacks
    ([OnReceived], [OnClose]) on that delegate makes a call on a protocol
    connection with the destroyed one's id. *)
Theorem destroyed_connection_is_never_called (c : QuicClient.t)
    (o : QuicProtocolConnection.t) (data : ServiceConnectionData) :
  let pc := QuicProtocolConnection.self o in
  QuicProtocolConnection.stream_ o = Some (pc_id pc) ->
  StdMap.find (pc_instance_id pc) (QuicClient.connections_ c) = Some data ->
  pairs_by_id (delegate data) ->
  QuicProtocolConnection.calls (QuicProtocolConnection.destroy o)
  = QuicProtocolConnection.calls o
    ++ [QuicProtocolConnection.Stream_CloseWriteEnd (pc_id pc);
        QuicProtocolConnection.Owner_OnConnectionDestroyed pc]
  /\ exists data',
       StdMap.find (pc_instance_id pc)
         (QuicClient.connections_ (QuicClient.OnConnectionDestroyed pc true c))
       = Some data'
       /\ connection data' = connection data
       /\ StdMap.keys (streams_ (delegate data'))
          = StdMap.keys (streams_ (delegate data))
       /\ forall (d : StreamDelegate.t) (ops : list StreamDelegate.Op),
            StreamDelegate.members d = delegate data' ->
            exists new,
              StreamDelegate.calls (StreamDelegate.run ops d)
              = StreamDelegate.calls d ++ new
              /\ Forall (fun call => forall q,
                           StreamDelegate.target call = Some q ->
                           pc_id q <> pc_id pc) new.
Proof.
  intros pc Hs Hf Hpairs.
  split.
  { unfold QuicProtocolConnection.destroy. rewrite Hs. reflexivity. }
  unfold QuicClient.OnConnectionDestroyed. rewrite Hf.
  eexists. split; [simpl; apply find_assign_eq|]. simpl.
  split; [reflexivity|].
  assert (Hdrop : forall k p q,
            StdMap.find k
              (streams_ (DropProtocolConnection (delegate data) (pc_id pc)))
            = Some p ->
            protocol_connection p = Some q -> pc_id q <> pc_id pc).
  { intros k p q. unfold DropProtocolConnection.
    destruct (StdMap.find (pc_id pc) (streams_ (delegate data)))
      as [sp|] eqn:Hsp; simpl.
    - destruct (Z.eq_dec (pc_id pc) k) as [<-|Hne].
      + rewrite find_assign_eq. intros [= <-]. discriminate.
      + rewrite find_assign_ne by exact Hne.
        intros Hk Hq. rewrite (Hpairs k p q Hk Hq). congruence.
    - intros Hk Hq. pose proof (Hpairs k p q Hk Hq) as Hid.
      intros Heq. rewrite Hid in Heq. subst k. congruence. }
  split.
  - unfold DropProtocolConnection.
    destruct (StdMap.find (pc_id pc) (streams_ (delegate data)))
      as [sp|] eqn:Hsp; simpl; [|reflexivity].
    eapply keys_assign_present. exact Hsp.
  - intros d ops Hm. apply stream_run_never_calls. rewrite Hm. exact Hdrop.
Qed.

(** X18.  An incoming stream becomes a protocol connection in two steps.
    [NextStreamDelegate(stream_id)] makes the pending protocol connection,
    and a second call before the stream arrives aborts; [OnIncomingStream]
    without one aborts too.  [OnIncomingStream] then registers the stream
    under its id, gives the protocol connection its stream, hands it to
    the parent, and clears the pending slot; data on the stream is
    forwarded under the id given to [NextStreamDelegate]. *)
Theorem incoming_stream_becomes_protocol_connection (d : StreamDelegate.t)
    (stream_id sid : Z) :
  StreamDelegate.pending_connection_ d = None ->
  StdMap.find sid (streams_ (StreamDelegate.members d)) = None ->
  let pc := mkPC (StreamDelegate.instance_id_ d) stream_id in
  StreamDelegate.OnIncomingStream sid d = None
  /\ exists d1 d2,
       StreamDelegate.NextStreamDelegate stream_id d = Some d1
       /\ (forall other, StreamDelegate.NextStreamDelegate other d1 = None)
       /\ StreamDelegate.OnIncomingStream sid d1 = Some d2
       /\ StreamDelegate.pending_connection_ d2 = None
       /\ StreamDelegate.calls d2
          = StreamDelegate.calls d
            ++ [StreamDelegate.Connection_set_stream pc (Some sid);
                StreamDelegate.Parent_OnIncomingStream pc]
       /\ StdMap.find sid (streams_ (StreamDelegate.members d2))
          = Some (mkPair sid stream_id (Some pc))
       /\ forall bytes,
            StreamDelegate.calls (StreamDelegate.OnReceived sid bytes d2)
            = StreamDelegate.calls d2
              ++ [StreamDelegate.Parent_OnDataReceived
                    (StreamDelegate.instance_id_ d) stream_id bytes].
Proof.
  intros Hp Hs pc.
  assert (Hreg : StdMap.find sid
                   (StdMap.emplace sid (mkPair sid stream_id (Some pc))
                      (streams_ (StreamDelegate.members d)))
                 = Some (mkPair sid stream_id (Some pc))).
  { now apply find_emplace_absent. }
  split; [unfold StreamDelegate.OnIncomingStream; now rewrite Hp|].
  exists (StreamDelegate.mk (StreamDelegate.members d)
            (StreamDelegate.instance_id_ d) (Some pc) (StreamDelegate.calls d)).
  exists (StreamDelegate.mk
            (AddStreamPair (StreamDelegate.members d)
               (mkPair sid stream_id (Some pc)))
            (StreamDelegate.instance_id_ d) None
            (StreamDelegate.calls d
             ++ [StreamDelegate.Connection_set_stream pc (Some sid);
                 StreamDelegate.Parent_OnIncomingStream pc])).
  split; [unfold StreamDelegate.NextStreamDelegate; now rewrite Hp|].
  split; [reflexivity|]. split; [reflexivity|]. split; [reflexivity|].
  split; [reflexivity|]. split; [exact Hreg|].
  intros bytes. unfold StreamDelegate.OnReceived.
  cbn [StreamDelegate.members AddStreamPair streams_ stream].
  rewrite Hreg. reflexivity.
Qed.

Lemma stream_data_forwarded_in_order_until_close_witness :
  StreamDelegate.calls
    (StreamDelegate.run
       (map (StreamDelegate.OpOnReceived 4) [[1; 2]; [3]]
        ++ [StreamDelegate.OpOnClose 4]) Scenario.stream_delegate)
  = [StreamDelegate.Parent_OnDataReceived 1 4 [1; 2];
     StreamDelegate.Parent_OnDataReceived 1 4 [3];
     StreamDelegate.Parent_OnDataReceived 1 4 [];
     StreamDelegate.Connection_set_stream (mkPC 1 4) None;
     StreamDelegate.Connection_OnClose (mkPC 1 4)].
Proof.
  exact (proj1 (stream_data_forwarded_in_order_until_close
                  Scenario.stream_delegate 4 (mkPair 4 4 (Some (mkPC 1 4)))
                  [[1; 2]; [3]] eq_refl)).
Defined.

Lemma closed_stream_detaches_protocol_connection_witness :
  exists new,
    StreamDelegate.calls (StreamDelegate.OnClose 4 Scenario.stream_delegate)
    = StreamDelegate.calls Scenario.stream_delegate ++ new
    /\ QuicProtocolConnection.stream_
         (QuicProtocolConnection.deliver_all new Scenario.protocol_connection)
       = None
    /\ QuicProtocolConnection.calls
         (QuicProtocolConnection.deliver_all new Scenario.protocol_connection)
       = [QuicProtocolConnection.Observer_OnConnectionClosed 77 (mkPC 1 4)].
Proof.
  destruct (closed_stream_detaches_protocol_connection
              Scenario.stream_delegate Scenario.protocol_connection 4
              (mkPair 4 4 (Some (mkPC 1 4))) eq_refl eq_refl)
    as (new & Hcalls & Hstream & Hobserver & _).
  exists new. split; [exact Hcalls|]. split; [exact Hstream | exact Hobserver].
Defined.

Lemma established_record_pairs_by_id :
  pairs_by_id (delegate Scenario.established_record).
Proof.
  intros k p q Hk Hq. simpl in Hk.
  destruct (Z.eqb_spec k 0) as [->|_]; [|discriminate].
  injection Hk as <-. simpl in Hq. injection Hq as <-. reflexivity.
Qed.

Lemma destroyed_connection_is_never_called_witness :
  exists data',
    StdMap.find 1
      (QuicClient.connections_
         (QuicClient.OnConnectionDestroyed (mkPC 1 0) true
            (Scenario.after Scenario.established_run)))
    = Some data'
    /\ connection data' = mkConn 7 1
    /\ forall ops,
         exists new,
           StreamDelegate.calls
             (StreamDelegate.run ops
                (StreamDelegate.mk (delegate data') 1 None []))
           = new
           /\ Forall (fun call => forall q,
                        StreamDelegate.target call = Some q -> pc_id q <> 0)
                     new.
Proof.
  assert (Hrecord : StdMap.find 1
                      (QuicClient.connections_
                         (Scenario.after Scenario.established_run))
                    = Some Scenario.established_record)
    by (vm_compute; reflexivity).
  destruct (destroyed_connection_is_never_called
              (Scenario.after Scenario.established_run)
              Scenario.opened_connection Scenario.established_record
              eq_refl Hrecord established_record_pairs_by_id)
    as (_ & data' & Hfind & Hconn & _ & Hnever).
  exists data'. split; [exact Hfind|]. split; [exact Hconn|].
  intros ops.
  destruct (Hnever (StreamDelegate.mk (delegate data') 1 None []) ops eq_refl)
    as (new & Hcalls & Hall).
  exists new. split; [exact Hcalls | exact Hall].
Defined.

Lemma incoming_stream_becomes_protocol_connection_witness :
  exists d1 d2,
    StreamDelegate.NextStreamDelegate 5 Scenario.stream_delegate = Some d1
    /\ StreamDelegate.OnIncomingStream 5 d1 = Some d2
    /\ StdMap.find 5 (streams_ (StreamDelegate.members d2))
       = Some (mkPair 5 5 (Some (mkPC 1 5))).
Proof.
  destruct (incoming_stream_becomes_protocol_connection
              Scenario.stream_delegate 5 5 eq_refl eq_refl)
    as (_ & d1 & d2 & Hnext & _ & Hincoming & _ & _ & Hregistered & _).
  exists d1, d2. split; [exact Hnext|]. split; [exact Hincoming|].
  exact Hregistered.
Defined.

(** ** Reading through a [ByteView] *)

Lemma map_seq_from {A : Type} (f : nat -> A) (len : nat) :
  forall start,
    map f (seq start len) = map (fun i => f (start + i)%nat) (seq 0 len).
Proof.
  induction len as [|len IH]; intros start; [reflexivity|].
  simpl. f_equal; [f_equal; lia|].
  rewrite IH, <- seq_shift, map_map.
  apply map_ext. intros i. f_equal. lia.
Qed.

Lemma bytes_range (mem : ByteViewAccess.Memory) (base : Z) (len start : nat) :
  map (fun i => mem (base + Z.of_nat i)) (seq start len)
  = map (fun i => mem (base + Z.of_nat start + Z.of_nat i)) (seq 0 len).
Proof.
  rewrite map_seq_from. apply map_ext. intros i. f_equal. lia.
Qed.

Lemma bytes_split (mem : ByteViewAccess.Memory) (data count n : Z) :
  0 <= n <= count ->
  ByteViewAccess.bytes mem (ByteView.mk data count)
  = ByteViewAccess.bytes mem (ByteView.mk data n)
    ++ ByteViewAccess.bytes mem (ByteView.mk (data + n) (count - n)).
Proof.
  intros Hn. unfold ByteViewAccess.bytes. simpl.
  replace (Z.to_nat count) with (Z.to_nat n + Z.to_nat (count - n))%nat by lia.
  rewrite seq_app, map_app. f_equal. simpl.
  rewrite bytes_range. apply map_ext. intros i. f_equal. lia.
Qed.

(** X19.  [first(n)] and [remove_prefix(n)] cut a view in two at [n]:
    for [n] up to the size both are accepted, the first part ends where the
    second begins, the sizes add up, and the bytes of the two parts are the
    bytes of the view.  [remove_suffix(size - n)] gives the same first
    part, and [last(size - n)] the same second part unless that part is
    empty, which [last] rejects. *)
Theorem first_and_remove_prefix_split_view (mem : ByteViewAccess.Memory)
    (v : ByteView.t) (n : Z) :
  0 <= n <= ByteView.size v ->
  exists head tail,
    ByteView.first v n = Some head
    /\ ByteView.remove_prefix v n = Some tail
    /\ ByteView.size head = n
    /\ ByteView.size tail = ByteView.size v - n
    /\ ByteViewAccess.begin_ head = ByteViewAccess.begin_ v
    /\ ByteViewAccess.end_ head = ByteViewAccess.begin_ tail
    /\ ByteViewAccess.end_ tail = ByteViewAccess.end_ v
    /\ ByteViewAccess.bytes mem head ++ ByteViewAccess.bytes mem tail
       = ByteViewAccess.bytes mem v
    /\ ByteView.remove_suffix v (ByteView.size v - n) = Some head
    /\ (n <> ByteView.size v ->
        ByteView.last v (ByteView.size v - n) = Some tail)
    /\ (n = ByteView.size v -> ByteView.last v (ByteView.size v - n) = None).
Proof.
  destruct v as [data count]. unfold ByteView.size. simpl. intros Hn.
  exists (ByteView.mk data n), (ByteView.mk (data + n) (count - n)).
  unfold ByteView.first, ByteView.remove_prefix, ByteView.remove_suffix,
    ByteView.last, ByteViewAccess.begin_, ByteViewAccess.end_. simpl.
  destruct (Z.leb_spec n count) as [_|H]; [|lia].
  destruct (Z.geb_spec count n) as [_|H]; [|lia].
  destruct (Z.geb_spec count (count - n)) as [_|H]; [|lia].
  destruct (Z.leb_spec (count - n) count) as [_|H]; [|lia].
  split; [reflexivity|]. split; [reflexivity|]. split; [reflexivity|].
  split; [reflexivity|]. split; [reflexivity|]. split; [reflexivity|].
  split; [lia|]. split; [symmetry; now apply bytes_split|].
  split; [do 2 f_equal; lia|].
  split.
  - intros Hne. destruct (Z.eqb_spec (count - n) 0) as [H|_]; [lia|]. simpl.
    do 2 f_equal. lia.
  - intros ->. now rewrite Z.sub_diag.
Qed.

Lemma bytes_length (mem : ByteViewAccess.Memory) (v : ByteView.t) :
  List.length (ByteViewAccess.bytes mem v) = Z.to_nat (ByteView.count_ v).
Proof. unfold ByteViewAccess.bytes. now rewrite length_map, length_seq. Qed.

(** X20.  When [offset + count] does not overflow [size_t], a view that
    [subspan(offset, count)] returns lies strictly inside the view: it
    starts [offset] bytes in, has [count] bytes, ends before the last byte
    of the view, holds the bytes [offset .. offset + count) of the view, and
    indexing it at [i] reads the byte that indexing the view at
    [offset + i] reads. *)
Theorem subspan_without_overflow_is_strictly_inside
    (mem : ByteViewAccess.Memory) (v w : ByteView.t) (offset count : Z) :
  0 <= offset -> 0 <= count -> offset + count < two64 ->
  ByteView.subspan v offset count = Some w ->
  ByteView.size w = count
  /\ ByteViewAccess.begin_ w = ByteViewAccess.begin_ v + offset
  /\ ByteViewAccess.end_ w < ByteViewAccess.end_ v
  /\ ByteViewAccess.bytes mem w
     = firstn (Z.to_nat count)
              (skipn (Z.to_nat offset) (ByteViewAccess.bytes mem v))
  /\ forall i, 0 <= i < count ->
       ByteViewAccess.index mem w i
       = Some (mem (ByteView.data v + offset + i))
       /\ ByteViewAccess.index mem v (offset + i)
          = Some (mem (ByteView.data v + offset + i)).
Proof.
  intros Ho Hc Hsum. destruct v as [data size]. unfold ByteView.subspan.
  simpl. rewrite wrap64_small by (unfold is_uint64; lia).
  destruct (Z.ltb_spec (offset + count) size) as [Hlt|_]; [|discriminate].
  intros [= <-].
  unfold ByteView.size, ByteView.data, ByteViewAccess.begin_,
    ByteViewAccess.end_, ByteViewAccess.index. simpl.
  split; [reflexivity|]. split; [reflexivity|]. split; [lia|]. split.
  - rewrite (bytes_split mem data size offset) by lia.
    rewrite skipn_app, bytes_length. simpl.
    rewrite skipn_all2 by (rewrite bytes_length; simpl; lia).
    rewrite Nat.sub_diag. simpl.
    rewrite (bytes_split mem (data + offset) (size - offset) count) by lia.
    rewrite firstn_app, bytes_length. simpl.
    rewrite Nat.sub_diag. simpl. rewrite app_nil_r.
    rewrite firstn_all2 by (rewrite bytes_length; simpl; lia).
    reflexivity.
  - intros i Hi.
    destruct (Z.ltb_spec i count) as [_|H]; [|lia].
    destruct (Z.ltb_spec (offset + i) size) as [_|H]; [|lia].
    split; [reflexivity|]. do 2 f_equal. lia.
Qed.


Lemma first_and_remove_prefix_split_view_witness :
  exists head tail,
    ByteView.first (ByteView.mk 1000 10) 4 = Some head
    /\ ByteView.remove_prefix (ByteView.mk 1000 10) 4 = Some tail
    /\ ByteViewAccess.bytes Scenario.memory head
       ++ ByteViewAccess.bytes Scenario.memory tail
       = ByteViewAccess.bytes Scenario.memory (ByteView.mk 1000 10).
Proof.
  destruct (first_and_remove_prefix_split_view Scenario.memory
              (ByteView.mk 1000 10) 4)
    as (head & tail & Hfirst & Hrest & _ & _ & _ & _ & _ & Hbytes & _).
  - unfold ByteView.size. simpl. lia.
  - exists head, tail. split; [exact Hfirst|]. split; [exact Hrest|].
    exact Hbytes.
Defined.

Lemma subspan_without_overflow_is_strictly_inside_witness :
  ByteViewAccess.bytes Scenario.memory (ByteView.mk 1002 3)
  = firstn 3 (skipn 2 (ByteViewAccess.bytes Scenario.memory
                         (ByteView.mk 1000 10)))
  /\ ByteViewAccess.end_ (ByteView.mk 1002 3)
     < ByteViewAccess.end_ (ByteView.mk 1000 10).
Proof.
  destruct (subspan_without_overflow_is_strictly_inside Scenario.memory
              (ByteView.mk 1000 10) (ByteView.mk 1002 3) 2 3)
    as (_ & _ & Hend & Hbytes & _).
  - lia.
  - lia.
  - unfold two64. simpl. lia.
  - reflexivity.
  - split; [exact Hbytes | exact Hend].
Defined.


(** ** Messages of the SPAKE2 consumer *)

Section MoreAuthenticationFacts.
Context {ext : Authentication.Externals}.

(** X22.  A message that fails to decode is handled the same way for the
    three message types.  If the decoder reports [kParserEOF] the consumer
    returns [kCborIncompleteMessage] and does nothing else: no delegate
    call, no write, no change of state.  For any other negative result it
    returns [kCborParsing] and reports [OnAuthenticationFailed] with a
    [kCborParsing] error whose message says "Failed to parse". *)
Theorem decode_failure_reported_unless_incomplete
    (a : Authentication.t) (connection_id : Z)
    (message_type : Authentication.Type_) (buffer : list byte)
    (s : ProtocolConnection) (n : Z) :
  Authentication.sender (Authentication.auth_data_ a) = Some s ->
  AuthenticationDecode.decode_result message_type buffer = Some n ->
  n < 0 ->
  let run :=
    Authentication.OnStreamMessage (Authentication.instance_id_ a)
      connection_id message_type buffer a in
  (n = Authentication.kParserEOF ->
   run = Some (Authentication.Failure Authentication.kCborIncompleteMessage, a))
  /\ (n <> Authentication.kParserEOF ->
      exists text,
        run = Some (Authentication.Failure Authentication.kCborParsing,
                    Authentication.emit
                      [Authentication.OnAuthenticationFailed
                         (Authentication.instance_id_ a)
                         (Authentication.mkError Authentication.kCborParsing
                            text)] a)
        /\ Authentication.occurs_in "Failed to parse" text = true).
Proof.
  intros Hs Hd Hn run. subst run. unfold Authentication.OnStreamMessage.
  rewrite Z.eqb_refl, Hs. simpl.
  destruct message_type; simpl in Hd; try discriminate; injection Hd as Hd.
  - unfold Authentication.on_handshake.
    destruct (Authentication.DecodeAuthSpake2Handshake buffer) as [r m].
    simpl in Hd. subst r.
    destruct (Z.ltb_spec n 0) as [_|H]; [|lia].
    destruct (Z.eqb_spec n Authentication.kParserEOF) as [He|He]; split;
      try (intros; reflexivity); try (intros H; now contradiction H).
    intros _. eexists. split; reflexivity.
  - unfold Authentication.on_confirmation.
    destruct (Authentication.DecodeAuthSpake2Confirmation buffer) as [r m].
    simpl in Hd. subst r.
    destruct (Z.ltb_spec n 0) as [_|H]; [|lia].
    destruct (Z.eqb_spec n Authentication.kParserEOF) as [He|He]; split;
      try (intros; reflexivity); try (intros H; now contradiction H).
    intros _. eexists. split; reflexivity.
  - unfold Authentication.on_status.
    destruct (Authentication.DecodeAuthStatus buffer) as [r m].
    simpl in Hd. subst r.
    destruct (Z.ltb_spec n 0) as [_|H]; [|lia].
    destruct (Z.eqb_spec n Authentication.kParserEOF) as [He|He]; split;
      try (intros; reflexivity); try (intros H; now contradiction H).
    intros _. eexists. split; reflexivity.
Qed.


(** X23.  [OnAuthenticationSucceed] is called only for the consumer's own
    instance id and only in two cases: a confirmation that decodes and
    whose value equals the stored shared key, or a status message that
    decodes and says [kAuthenticated].  The stored shared key changes only
    on a handshake with status [kPskShown]. *)
Theorem success_only_on_key_match_or_peer_status
    (a a' : Authentication.t) (instance_id connection_id : Z)
    (message_type : Authentication.Type_) (buffer : list byte)
    (r : Authentication.ErrorOr) :
  Authentication.OnStreamMessage instance_id connection_id message_type
    buffer a = Some (r, a') ->
  exists new,
    Authentication.trace a' = Authentication.trace a ++ new
    /\ (forall i,
          In (Authentication.OnAuthenticationSucceed i) new ->
          i = Authentication.instance_id_ a
          /\ ((message_type = Authentication.kAuthSpake2Confirmation
               /\ 0 <= fst (Authentication.DecodeAuthSpake2Confirmation buffer)
               /\ Authentication.bytes_of
                    (Authentication.confirmation_value
                       (snd (Authentication.DecodeAuthSpake2Confirmation
                               buffer)))
                  = Authentication.bytes_of
                      (Authentication.shared_key
                         (Authentication.auth_data_ a)))
              \/ (message_type = Authentication.kAuthStatus
                  /\ 0 <= fst (Authentication.DecodeAuthStatus buffer)
                  /\ Authentication.result
                       (snd (Authentication.DecodeAuthStatus buffer))
                     = Authentication.kAuthenticated)))
    /\ (Authentication.shared_key (Authentication.auth_data_ a')
        <> Authentication.shared_key (Authentication.auth_data_ a) ->
        message_type = Authentication.kAuthSpake2Handshake
        /\ Authentication.psk_status
             (snd (Authentication.DecodeAuthSpake2Handshake buffer))
           = Authentication.kPskShown).
Proof.
  unfold Authentication.OnStreamMessage.
  destruct (Z.eqb_spec (Authentication.instance_id_ a) instance_id)
    as [<-|_]; [|discriminate].
  simpl.
  destruct (Authentication.sender (Authentication.auth_data_ a)) as [s|].
  2: { intros [= <- <-]. eexists. split; [reflexivity|].
       split; [|intros H; now contradiction H].
       intros i [H|[]]. discriminate H. }
  destruct message_type as [ | | |tag].
  - unfold Authentication.on_handshake.
    destruct (Authentication.DecodeAuthSpake2Handshake buffer) as [n h].
    simpl.
    destruct (n <? 0).
    { destruct (n =? Authentication.kParserEOF); intros [= <- <-].
      - exists []. rewrite app_nil_r. split; [reflexivity|].
        split; [intros i [] | intros H; now contradiction H].
      - eexists. split; [reflexivity|].
        split; [|intros H; now contradiction H].
        intros i [H|[]]. discriminate H. }
    destruct (negb (Authentication.has_token (Authentication.initiation_token h))
              || negb (Authentication.token (Authentication.initiation_token h)
                       =? Authentication.auth_token
                            (Authentication.auth_data_ a))%string).
    { intros [= <- <-]. eexists. split; [reflexivity|].
      split; [|intros H; now contradiction H].
      intros i [H|[]]. discriminate H. }
    destruct (Authentication.psk_status h) eqn:Hpsk.
    + intros [= <- <-]. eexists. split; [reflexivity|].
      split; [|intros H; now contradiction H].
      intros i [H|[]]. discriminate H.
    + destruct (Authentication.ComputeSharedKey _ _ _) as [key|];
        [|discriminate].
      destruct (Authentication.ComputePublicValue _) as [pv|]; [|discriminate].
      intros [= <- <-]. eexists. split; [reflexivity|].
      split; [|intros _; split; reflexivity].
      intros i [H|[]]. discriminate H.
    + destruct (Authentication.ComputeSharedKey _ _ _) as [key|];
        [|discriminate].
      intros [= <- <-]. eexists. split; [reflexivity|].
      split; [|intros H; now contradiction H].
      intros i [H|[]]. discriminate H.
  - unfold Authentication.on_confirmation.
    destruct (Authentication.DecodeAuthSpake2Confirmation buffer) as [n conf].
    simpl.
    destruct (Z.ltb_spec n 0) as [Hneg|Hpos].
    { destruct (n =? Authentication.kParserEOF); intros [= <- <-].
      - exists []. rewrite app_nil_r. split; [reflexivity|].
        split; [intros i [] | intros H; now contradiction H].
      - eexists. split; [reflexivity|].
        split; [|intros H; now contradiction H].
        intros i [H|[]]. discriminate H. }
    destruct (Authentication.std_equal _ _) eqn:Heq; intros [= <- <-];
      (eexists; split; [reflexivity|];
       split; [|intros H; now contradiction H]).
    + intros i [H|[H|[]]]; [discriminate H|]. injection H as <-.
      split; [reflexivity|]. left. split; [reflexivity|]. split; [exact Hpos|].
      symmetry. now apply array64_std_equal.
    + intros i [H|[H|[]]]; discriminate H.
  - unfold Authentication.on_status.
    destruct (Authentication.DecodeAuthStatus buffer) as [n st].
    simpl.
    destruct (Z.ltb_spec n 0) as [Hneg|Hpos].
    { destruct (n =? Authentication.kParserEOF); intros [= <- <-].
      - exists []. rewrite app_nil_r. split; [reflexivity|].
        split; [intros i [] | intros H; now contradiction H].
      - eexists. split; [reflexivity|].
        split; [|intros H; now contradiction H].
        intros i [H|[]]. discriminate H. }
    destruct (Authentication.result st) eqn:Hres; intros [= <- <-];
      (eexists; split; [reflexivity|];
       split; [|intros H; now contradiction H]).
    + intros i [H|[]]. injection H as <-. split; [reflexivity|].
      right. repeat split. exact Hpos.
    + intros i [H|[]]. discriminate H.
    + intros i [H|[]]. discriminate H.
  - intros [= <- <-]. eexists. split; [reflexivity|].
    split; [|intros H; now contradiction H].
    intros i [H|[]]. discriminate H.
Qed.


(** X24.  A handshake with the right token and status [kPskShown],
    followed by a confirmation.  If the handshake is processed, the
    consumer stores the key computed from its fingerprint, the peer's
    public value and the password, and answers with a handshake of status
    [kPskInput] carrying the token and its own public value.  A
    confirmation that decodes afterwards is accepted, with
    [Status{Authenticated}] written and success reported, if its value
    equals that computed key, and otherwise rejected with
    [Status{ProofInvalid}] and a shared-key-mismatch failure. *)
Theorem shown_handshake_then_confirmation
    (a a1 : Authentication.t) (connection_id : Z)
    (hbuffer cbuffer : list byte) (s : ProtocolConnection) (n m : Z)
    (h : Authentication.AuthSpake2Handshake)
    (conf : Authentication.AuthSpake2Confirmation)
    (r : Authentication.ErrorOr) :
  let id := Authentication.instance_id_ a in
  Authentication.sender (Authentication.auth_data_ a) = Some s ->
  Authentication.DecodeAuthSpake2Handshake hbuffer = (n, h) ->
  0 <= n ->
  Authentication.has_token (Authentication.initiation_token h) = true ->
  Authentication.token (Authentication.initiation_token h)
  = Authentication.auth_token (Authentication.auth_data_ a) ->
  Authentication.psk_status h = Authentication.kPskShown ->
  Authentication.DecodeAuthSpake2Confirmation cbuffer = (m, conf) ->
  0 <= m ->
  Authentication.OnStreamMessage id connection_id
    Authentication.kAuthSpake2Handshake hbuffer a = Some (r, a1) ->
  exists key pv,
    Authentication.ComputeSharedKey
      (Authentication.ComputePrivateKey (Authentication.fingerprint_ a))
      (Authentication.public_value h)
      (Authentication.password (Authentication.auth_data_ a)) = Some key
    /\ Authentication.ComputePublicValue
         (Authentication.ComputePrivateKey (Authentication.fingerprint_ a))
       = Some pv
    /\ r = Authentication.Value n
    /\ Authentication.shared_key (Authentication.auth_data_ a1) = key
    /\ Authentication.trace a1
       = Authentication.trace a
         ++ [Authentication.WriteHandshake
               (Authentication.mkHandshake
                  (Authentication.mkToken true
                     (Authentication.auth_token (Authentication.auth_data_ a)))
                  Authentication.kPskInput pv)]
    /\ (Authentication.bytes_of (Authentication.confirmation_value conf)
        = Authentication.bytes_of key ->
        Authentication.OnStreamMessage id connection_id
          Authentication.kAuthSpake2Confirmation cbuffer a1
        = Some (Authentication.Value m,
                Authentication.emit
                  [Authentication.WriteStatus
                     (Authentication.mkStatus Authentication.kAuthenticated);
                   Authentication.OnAuthenticationSucceed id] a1))
    /\ (Authentication.bytes_of (Authentication.confirmation_value conf)
        <> Authentication.bytes_of key ->
        Authentication.OnStreamMessage id connection_id
          Authentication.kAuthSpake2Confirmation cbuffer a1
        = Some (Authentication.Value m,
                Authentication.emit
                  [Authentication.WriteStatus
                     (Authentication.mkStatus Authentication.kProofInvalid);
                   Authentication.OnAuthenticationFailed id
                     (Authentication.mkError Authentication.kInvalidAnswer
                        "Authentication failed: shared key mismatch.")] a1)).
Proof.
  intros id Hs Hd Hn Htok Heq Hpsk Hc Hm.
  unfold Authentication.OnStreamMessage. subst id.
  rewrite Z.eqb_refl, Hs. simpl.
  unfold Authentication.on_handshake. rewrite Hd.
  destruct (Z.ltb_spec n 0) as [H|_]; [lia|].
  rewrite Htok, Heq, String.eqb_refl, Hpsk. simpl.
  destruct (Authentication.ComputeSharedKey _ _ _) as [key|]; [|discriminate].
  destruct (Authentication.ComputePublicValue _) as [pv|] eqn:Hpv;
    [|discriminate].
  intros [= <- <-]. exists key, pv.
  split; [reflexivity|]. split; [reflexivity|]. split; [reflexivity|].
  split; [reflexivity|]. split; [reflexivity|].
  simpl. rewrite Z.eqb_refl, Hs. simpl.
  unfold Authentication.on_confirmation. rewrite Hc.
  destruct (Z.ltb_spec m 0) as [H|_]; [lia|]. simpl.
  pose proof (array64_std_equal key (Authentication.confirmation_value conf))
    as Hiff.
  destruct (Authentication.std_equal (Authentication.bytes_of key) _) eqn:He.
  - split; [reflexivity|]. intros Hne. exfalso. apply Hne. symmetry.
    now apply Hiff.
  - split; [|reflexivity]. intros Hsame. symmetry in Hsame.
    apply Hiff in Hsame. congruence.
Qed.

End MoreAuthenticationFacts.

Lemma decode_failure_reported_unless_incomplete_witness :
  Authentication.OnStreamMessage (ext := Scenario.toy) 5 0
    Authentication.kAuthSpake2Handshake [] Scenario.bob
  = Some (Authentication.Failure Authentication.kCborIncompleteMessage,
          Scenario.bob).
Proof.
  refine (proj1
            (decode_failure_reported_unless_incomplete (ext := Scenario.toy)
               Scenario.bob 0 Authentication.kAuthSpake2Handshake []
               (mkPC 5 0) (-1) eq_refl eq_refl _) eq_refl).
  lia.
Defined.

Lemma success_only_on_key_match_or_peer_status_witness :
  exists new,
    Authentication.trace Scenario.bob_after_shown
    = Authentication.trace Scenario.bob ++ new
    /\ forall i, ~ In (Authentication.OnAuthenticationSucceed i) new.
Proof.
  assert (Hrun : Authentication.OnStreamMessage (ext := Scenario.toy) 5 0
                   Authentication.kAuthSpake2Handshake [x54; x01] Scenario.bob
                 = Some (Authentication.Value 2, Scenario.bob_after_shown))
    by (vm_compute; reflexivity).
  destruct (success_only_on_key_match_or_peer_status (ext := Scenario.toy)
              Scenario.bob Scenario.bob_after_shown 5 0
              Authentication.kAuthSpake2Handshake [x54; x01]
              (Authentication.Value 2) Hrun)
    as (new & Htrace & Honly & _).
  exists new. split; [exact Htrace|].
  intros i Hin. destruct (Honly i Hin) as (_ & [(H & _) | (H & _)]);
    discriminate H.
Defined.

Lemma shown_handshake_then_confirmation_witness :
  Authentication.OnStreamMessage (ext := Scenario.toy) 5 0
    Authentication.kAuthSpake2Confirmation [x01] Scenario.bob_after_shown
  = Some (Authentication.Value 1,
          Authentication.emit
            [Authentication.WriteStatus
               (Authentication.mkStatus Authentication.kAuthenticated);
             Authentication.OnAuthenticationSucceed 5]
            Scenario.bob_after_shown).
Proof.
  assert (Hrun : Authentication.OnStreamMessage (ext := Scenario.toy)
                   (Authentication.instance_id_ Scenario.bob) 0
                   Authentication.kAuthSpake2Handshake [x54; x01] Scenario.bob
                 = Some (Authentication.Value 2, Scenario.bob_after_shown))
    by (vm_compute; reflexivity).
  destruct (shown_handshake_then_confirmation (ext := Scenario.toy)
              Scenario.bob Scenario.bob_after_shown 0 [x54; x01] [x01]
              (mkPC 5 0) 2 1
              (Authentication.mkHandshake (Authentication.mkToken true "T")
                 Authentication.kPskShown [])
              (Authentication.mkConfirmation Scenario.ones64)
              (Authentication.Value 2)
              eq_refl eq_refl ltac:(lia) eq_refl eq_refl eq_refl eq_refl
              ltac:(lia) Hrun)
    as (key & pv & Hkey & _ & _ & _ & _ & Hsame & _).
  apply Hsame.
  assert (Hones : Authentication.ComputeSharedKey (ext := Scenario.toy)
                    (Authentication.ComputePrivateKey (ext := Scenario.toy)
                       (Authentication.fingerprint_ Scenario.bob))
                    (Authentication.public_value
                       (Authentication.mkHandshake
                          (Authentication.mkToken true "T")
                          Authentication.kPskShown []))
                    (Authentication.password
                       (Authentication.auth_data_ Scenario.bob))
                  = Some Scenario.ones64) by (vm_compute; reflexivity).
  rewrite Hones in Hkey. injection Hkey as <-. reflexivity.
Defined.

(** ** The connection factory *)

Section FactoryTableFacts.
Context {V : Type}.

Lemma erase_absent (k : Z) (m : list (Z * V)) :
  StdMap.find k m = None -> StdMap.erase k m = m.
Proof.
  induction m as [|[k' v] m IH]; simpl; [reflexivity|].
  destruct (k =? k'); [discriminate|]. intros Hf. now rewrite IH.
Qed.

Lemma erase_insert_sorted (k : Z) (v : V) (m : list (Z * V)) :
  StdMap.find k m = None -> StdMap.erase k (StdMap.insert_sorted k v m) = m.
Proof.
  induction m as [|[k' v'] m IH]; simpl.
  - now rewrite Z.eqb_refl.
  - destruct (Z.eqb_spec k k') as [_|Hne]; [discriminate|]. intros Hf.
    destruct (k <? k'); simpl.
    + rewrite Z.eqb_refl.
      destruct (Z.eqb_spec k k') as [He|_]; [contradiction|].
      now rewrite erase_absent.
    + destruct (Z.eqb_spec k k') as [He|_]; [contradiction|].
      now rewrite IH.
Qed.

End FactoryTableFacts.

Lemma find_connection_insert_sorted (conn k s : Z)
    (m : list (Z * QuicConnectionFactory.OpenConnection)) :
  QuicConnectionFactory.find_connection conn m = None ->
  QuicConnectionFactory.find_connection conn
    (StdMap.insert_sorted k (QuicConnectionFactory.mkOpen conn s) m)
  = Some (k, QuicConnectionFactory.mkOpen conn s).
Proof.
  induction m as [|[k' v'] m IH]; simpl.
  - now rewrite Z.eqb_refl.
  - destruct (QuicConnectionFactory.connection v' =? conn) eqn:He;
      [discriminate|].
    intros Hf. destruct (k <? k'); simpl.
    + now rewrite Z.eqb_refl.
    + rewrite He. now apply IH.
Qed.

Lemma erase_socket_last (s : Z) (l : list Z) :
  ~ In s l -> QuicConnectionFactory.erase_socket s (l ++ [s]) = l.
Proof.
  induction l as [|x l IH]; simpl; intros Hn.
  - now rewrite Z.eqb_refl.
  - destruct (Z.eqb_spec x s) as [->|_]; [exfalso; auto|].
    rewrite IH; auto.
Qed.

Lemma existsb_last (s : Z) (l : list Z) :
  existsb (fun x => x =? s) (l ++ [s]) = true.
Proof.
  rewrite existsb_app. simpl. now rewrite Z.eqb_refl, orb_true_r.
Qed.

(** X25.  [Connect] followed by [OnConnectionClosed] of the returned
    connection leaves the factory's tables as they were.  For a remote
    endpoint without an open connection, a new socket and a new
    connection, [Connect] registers the connection under the endpoint and
    keeps the socket; [OnConnectionClosed] then removes the entry and
    releases the socket, so that [connections_], [sockets_] and
    [dispatchers_] are what they were before. *)
Theorem factory_connect_close_round_trip (f : QuicConnectionFactory.t)
    (remote s conn : Z) (fingerprint : bool) :
  StdMap.find remote (QuicConnectionFactory.connections_ f) = None ->
  QuicConnectionFactory.find_connection conn
    (QuicConnectionFactory.connections_ f) = None ->
  QuicConnectionFactory.uses_socket s (QuicConnectionFactory.connections_ f)
  = false ->
  ~ In s (QuicConnectionFactory.sockets_ f) ->
  StdMap.find s (QuicConnectionFactory.dispatchers_ f) = None ->
  QuicConnectionFactory.crypto_client_config_ f = true \/ fingerprint = true ->
  exists f1 f2,
    QuicConnectionFactory.Connect remote (Some s) fingerprint conn f
    = (Some conn, f1)
    /\ StdMap.find remote (QuicConnectionFactory.connections_ f1)
       = Some (QuicConnectionFactory.mkOpen conn s)
    /\ In s (QuicConnectionFactory.sockets_ f1)
    /\ QuicConnectionFactory.OnConnectionClosed conn f1 = Some f2
    /\ QuicConnectionFactory.connections_ f2
       = QuicConnectionFactory.connections_ f
    /\ QuicConnectionFactory.sockets_ f2 = QuicConnectionFactory.sockets_ f
    /\ QuicConnectionFactory.dispatchers_ f2
       = QuicConnectionFactory.dispatchers_ f
    /\ QuicConnectionFactory.calls f2 = QuicConnectionFactory.calls f.
Proof.
  intros Hremote Hconn Huse Hsock Hdisp Hcfg.
  assert (Hgo : negb (QuicConnectionFactory.crypto_client_config_ f)
                && negb fingerprint = false).
  { destruct Hcfg as [-> | ->]; [reflexivity | apply andb_false_r]. }
  exists (QuicConnectionFactory.mk
            (QuicConnectionFactory.server_delegate_ f) true
            (StdMap.insert_sorted remote
               (QuicConnectionFactory.mkOpen conn s)
               (QuicConnectionFactory.connections_ f))
            (QuicConnectionFactory.sockets_ f ++ [s])
            (QuicConnectionFactory.dispatchers_ f)
            (QuicConnectionFactory.calls f)).
  exists (QuicConnectionFactory.mk
            (QuicConnectionFactory.server_delegate_ f) true
            (QuicConnectionFactory.connections_ f)
            (QuicConnectionFactory.sockets_ f)
            (QuicConnectionFactory.dispatchers_ f)
            (QuicConnectionFactory.calls f)).
  split.
  { unfold QuicConnectionFactory.Connect. rewrite Hgo.
    unfold StdMap.emplace. now rewrite Hremote. }
  cbn [QuicConnectionFactory.connections_ QuicConnectionFactory.sockets_
       QuicConnectionFactory.dispatchers_ QuicConnectionFactory.calls].
  split; [now apply find_insert_sorted_eq|].
  split; [apply in_or_app; right; now left|].
  split; [|repeat split].
  unfold QuicConnectionFactory.OnConnectionClosed.
  cbn [QuicConnectionFactory.connections_ QuicConnectionFactory.sockets_
       QuicConnectionFactory.dispatchers_ QuicConnectionFactory.calls
       QuicConnectionFactory.server_delegate_
       QuicConnectionFactory.crypto_client_config_].
  rewrite (find_connection_insert_sorted conn remote s _ Hconn).
  cbn [fst snd QuicConnectionFactory.socket].
  rewrite (erase_insert_sorted remote _ _ Hremote), Huse, existsb_last.
  rewrite (erase_socket_last s _ Hsock), (erase_absent s _ Hdisp).
  reflexivity.
Qed.

(** X26.  A second [Connect] to a remote endpoint that already has an open
    connection returns a connection that is not registered: [connections_]
    is unchanged, the new socket is kept, and [OnConnectionClosed] for the
    returned connection aborts on its [OSP_CHECK]. *)
Theorem factory_second_connect_is_not_registered
    (f : QuicConnectionFactory.t) (remote s conn : Z) (fingerprint : bool)
    (first : QuicConnectionFactory.OpenConnection) :
  StdMap.find remote (QuicConnectionFactory.connections_ f) = Some first ->
  QuicConnectionFactory.find_connection conn
    (QuicConnectionFactory.connections_ f) = None ->
  QuicConnectionFactory.crypto_client_config_ f = true \/ fingerprint = true ->
  exists f1,
    QuicConnectionFactory.Connect remote (Some s) fingerprint conn f
    = (Some conn, f1)
    /\ QuicConnectionFactory.connections_ f1
       = QuicConnectionFactory.connections_ f
    /\ QuicConnectionFactory.sockets_ f1
       = QuicConnectionFactory.sockets_ f ++ [s]
    /\ QuicConnectionFactory.OnConnectionClosed conn f1 = None.
Proof.
  intros Hremote Hconn Hcfg.
  unfold QuicConnectionFactory.Connect.
  assert (Hgo : negb (QuicConnectionFactory.crypto_client_config_ f)
                && negb fingerprint = false).
  { destruct Hcfg as [-> | ->]; [reflexivity | apply andb_false_r]. }
  rewrite Hgo. eexists. split; [reflexivity|].
  cbn [QuicConnectionFactory.connections_ QuicConnectionFactory.sockets_].
  unfold StdMap.emplace. rewrite Hremote.
  split; [reflexivity|]. split; [reflexivity|].
  unfold QuicConnectionFactory.OnConnectionClosed.
  cbn [QuicConnectionFactory.connections_]. now rewrite Hconn.
Qed.

Lemma find_emplace_not_None {V : Type} (k : Z) (v : V) (m : list (Z * V)) :
  StdMap.find k (StdMap.emplace k v m) <> None.
Proof.
  unfold StdMap.emplace. destruct (StdMap.find k m) eqn:Hf.
  - rewrite Hf. discriminate.
  - rewrite find_insert_sorted_eq by exact Hf. discriminate.
Qed.

Lemma add_server_sockets_facts (created : list (option Z)) :
  forall f : QuicConnectionFactory.t,
    let f' := QuicConnectionFactory.add_server_sockets created f in
    QuicConnectionFactory.server_delegate_ f'
    = QuicConnectionFactory.server_delegate_ f
    /\ QuicConnectionFactory.connections_ f'
       = QuicConnectionFactory.connections_ f
    /\ forall s,
         (In (Some s) created
          \/ StdMap.find s (QuicConnectionFactory.dispatchers_ f) <> None) ->
         StdMap.find s (QuicConnectionFactory.dispatchers_ f') <> None.
Proof.
  induction created as [|[x|] created IH]; intros f; simpl.
  - split; [reflexivity|]. split; [reflexivity|].
    intros s [[]|H]; exact H.
  - destruct (IH (QuicConnectionFactory.mk
                    (QuicConnectionFactory.server_delegate_ f)
                    (QuicConnectionFactory.crypto_client_config_ f)
                    (QuicConnectionFactory.connections_ f)
                    (QuicConnectionFactory.sockets_ f ++ [x])
                    (StdMap.emplace x x (QuicConnectionFactory.dispatchers_ f))
                    (QuicConnectionFactory.calls f)))
      as (Hd & Hc & Hs).
    split; [exact Hd|]. split; [exact Hc|].
    intros s Hin. apply Hs. destruct Hin as [[H|H]|H].
    + injection H as ->. right. apply find_emplace_not_None.
    + now left.
    + right. simpl. destruct (Z.eq_dec x s) as [->|Hne].
      * apply find_emplace_not_None.
      * now rewrite find_emplace_ne.
  - destruct (IH f) as (Hd & Hc & Hs).
    split; [exact Hd|]. split; [exact Hc|].
    intros s [[H|H]|H]; [discriminate H | apply Hs; now left
                        | apply Hs; now right].
Qed.

(** X27.  [OnRead] of a packet aborts in exactly two cases: no server
    delegate is set, the source has no open connection and the socket has a
    dispatcher; or a server delegate is set, the source has an open
    connection and the socket has no dispatcher.  Setting the server
    delegate and resetting it leaves the dispatchers in place: while the
    delegate is set a packet from an unknown source on a server socket goes
    to the dispatcher, and after the reset the same packet aborts. *)
Theorem factory_read_aborts_after_server_delegate_reset
    (f : QuicConnectionFactory.t) (read_socket source : Z) (data : list Z) :
  (QuicConnectionFactory.OnRead read_socket (Some (source, data)) f = None
   <-> (QuicConnectionFactory.server_delegate_ f = false
        /\ StdMap.find source (QuicConnectionFactory.connections_ f) = None
        /\ StdMap.find read_socket (QuicConnectionFactory.dispatchers_ f)
           <> None)
       \/ (QuicConnectionFactory.server_delegate_ f = true
           /\ StdMap.find source (QuicConnectionFactory.connections_ f)
              <> None
           /\ StdMap.find read_socket (QuicConnectionFactory.dispatchers_ f)
              = None))
  /\ (forall created f1 f2,
        QuicConnectionFactory.server_delegate_ f = false ->
        StdMap.find source (QuicConnectionFactory.connections_ f) = None ->
        In (Some read_socket) created ->
        QuicConnectionFactory.SetServerDelegate true true created f
        = Some f1 ->
        QuicConnectionFactory.SetServerDelegate false true [] f1 = Some f2 ->
        (exists d,
            QuicConnectionFactory.OnRead read_socket (Some (source, data)) f1
            = Some (QuicConnectionFactory.emit
                      [QuicConnectionFactory.Dispatcher_ProcessPacket
                         d source data] f1))
        /\ QuicConnectionFactory.OnRead read_socket (Some (source, data)) f2
           = None).
Proof.
  split.
  - unfold QuicConnectionFactory.OnRead.
    destruct (StdMap.find source (QuicConnectionFactory.connections_ f))
      as [open|];
      destruct (StdMap.find read_socket (QuicConnectionFactory.dispatchers_ f))
        as [d|];
      destruct (QuicConnectionFactory.server_delegate_ f); simpl;
      split; try discriminate; try tauto;
      try (intros [(H1 & H2 & H3) | (H1 & H2 & H3)]; congruence);
      try (intros _; right; repeat split; discriminate);
      try (intros _; left; repeat split; discriminate).
  - intros created f1 f2 Hsd Hsrc Hin Hset Hreset.
    unfold QuicConnectionFactory.SetServerDelegate in Hset, Hreset.
    rewrite Hsd in Hset. simpl in Hset. injection Hset as <-.
    match type of Hreset with
    | context [QuicConnectionFactory.add_server_sockets created ?g] =>
        destruct (add_server_sockets_facts created g) as (Hd & Hc & Hdisp);
        specialize (Hdisp read_socket (or_introl Hin));
        set (f1 := QuicConnectionFactory.add_server_sockets created g) in *
    end.
    simpl in Hd, Hc. rewrite Hd in Hreset. simpl in Hreset.
    injection Hreset as <-.
    unfold QuicConnectionFactory.OnRead. simpl.
    rewrite Hc, Hsrc, Hd.
    destruct (StdMap.find read_socket (QuicConnectionFactory.dispatchers_ f1))
      as [d|]; [|now contradiction Hdisp].
    simpl. split; [exists d; reflexivity | reflexivity].
Qed.

Lemma factory_connect_close_round_trip_witness :
  exists f1 f2,
    QuicConnectionFactory.Connect 9 (Some 32) true 22 Scenario.factory
    = (Some 22, f1)
    /\ QuicConnectionFactory.OnConnectionClosed 22 f1 = Some f2
    /\ QuicConnectionFactory.connections_ f2
       = QuicConnectionFactory.connections_ Scenario.factory
    /\ QuicConnectionFactory.sockets_ f2
       = QuicConnectionFactory.sockets_ Scenario.factory.
Proof.
  destruct (factory_connect_close_round_trip Scenario.factory 9 32 22 true)
    as (f1 & f2 & Hconnect & _ & _ & Hclosed & Hconns & Hsockets & _).
  - reflexivity.
  - reflexivity.
  - reflexivity.
  - simpl. intros [H|[]]. discriminate H.
  - reflexivity.
  - now left.
  - exists f1, f2. split; [exact Hconnect|]. split; [exact Hclosed|].
    split; [exact Hconns | exact Hsockets].
Defined.

Lemma factory_second_connect_is_not_registered_witness :
  exists f1,
    QuicConnectionFactory.Connect 8 (Some 32) true 22 Scenario.factory
    = (Some 22, f1)
    /\ QuicConnectionFactory.connections_ f1
       = QuicConnectionFactory.connections_ Scenario.factory
    /\ QuicConnectionFactory.OnConnectionClosed 22 f1 = None.
Proof.
  destruct (factory_second_connect_is_not_registered Scenario.factory 8 32 22
              true (QuicConnectionFactory.mkOpen 21 31))
    as (f1 & Hconnect & Hconns & _ & Hclosed).
  - reflexivity.
  - reflexivity.
  - now left.
  - exists f1. split; [exact Hconnect|]. split; [exact Hconns | exact Hclosed].
Defined.

(** ** The encode buffer *)

Lemma resize_length (n : Z) (l : list Z) :
  0 <= n -> List.length (CborEncodeBuffer.resize n l) = Z.to_nat n.
Proof.
  intros Hn. unfold CborEncodeBuffer.resize.
  rewrite length_app, length_firstn, repeat_length. lia.
Qed.

Lemma resize_size (n : Z) (b : CborEncodeBuffer.t) :
  0 <= n ->
  CborEncodeBuffer.size
    (CborEncodeBuffer.mk (CborEncodeBuffer.max_size_ b)
       (CborEncodeBuffer.position_ b)
       (CborEncodeBuffer.resize n (CborEncodeBuffer.data_ b))) = n.
Proof.
  intros Hn. unfold CborEncodeBuffer.size. simpl.
  rewrite resize_length by exact Hn. lia.
Qed.

Lemma wrap64_range (x : Z) : 0 <= wrap64 x < two64.
Proof. unfold wrap64, two64. apply Z.mod_pos_bound. lia. Qed.

Lemma wrap64_plus (x : Z) : two64 <= x < 2 * two64 -> wrap64 x = x - two64.
Proof.
  intros Hx. unfold wrap64. symmetry. apply (Z.mod_unique _ _ 1); lia.
Qed.

Lemma wrap64_minus (x : Z) : - two64 <= x < 0 -> wrap64 x = x + two64.
Proof.
  intros Hx. unfold wrap64. symmetry. apply (Z.mod_unique _ _ (-1)); lia.
Qed.

Lemma cbor_step_keeps_bound (o : CborEncodeBuffer.Op) (b : CborEncodeBuffer.t) :
  CborEncodeBuffer.fits o ->
  CborEncodeBuffer.size b <= CborEncodeBuffer.max_size_ b < two64 ->
  CborEncodeBuffer.max_size_ (CborEncodeBuffer.step o b)
  = CborEncodeBuffer.max_size_ b
  /\ CborEncodeBuffer.size (CborEncodeBuffer.step o b)
     <= CborEncodeBuffer.max_size_ b.
Proof.
  assert (H64 : two64 = 2 * 2 ^ 63) by reflexivity.
  assert (Hsz : 0 <= CborEncodeBuffer.size b)
    by (unfold CborEncodeBuffer.size; lia).
  destruct o as [n | delta]; simpl; intros Hfit Hb.
  - unfold CborEncodeBuffer.Append.
    destruct (Z.eqb_spec n 0) as [_|Hn0]; [simpl; lia|].
    destruct (Z.gtb_spec (wrap64 (CborEncodeBuffer.size b + n))
                (CborEncodeBuffer.max_size_ b)) as [Hbig|Hfits]; simpl.
    + rewrite (wrap64_small (CborEncodeBuffer.max_size_ b
                             - CborEncodeBuffer.size b))
        by (unfold is_uint64; lia).
      destruct (Z.eqb_spec (CborEncodeBuffer.max_size_ b
                            - CborEncodeBuffer.size b) 0) as [_|_];
        simpl; [lia|].
      split; [reflexivity|].
      replace (CborEncodeBuffer.size b
               + (CborEncodeBuffer.max_size_ b - CborEncodeBuffer.size b))
        with (CborEncodeBuffer.max_size_ b) by lia.
      rewrite (wrap64_small (CborEncodeBuffer.max_size_ b))
        by (unfold is_uint64; lia).
      unfold CborEncodeBuffer.size at 1. simpl.
      rewrite resize_length by lia. lia.
    + split; [reflexivity|].
      pose proof (wrap64_range (CborEncodeBuffer.size b + n)) as Hr.
      unfold CborEncodeBuffer.size at 1. simpl.
      rewrite resize_length by lia. lia.
  - unfold CborEncodeBuffer.ResizeBy.
    destruct (Z.eqb_spec delta 0) as [_|Hd0]; [simpl; lia|].
    destruct (Z.ltb_spec delta 0) as [Hneg|Hpos]; simpl.
    + rewrite (wrap64_small (- delta)) by (unfold is_uint64; lia).
      destruct (Z.gtb_spec (- delta) (CborEncodeBuffer.size b)) as [_|Hok];
        simpl; [lia|].
      destruct (Z.ltb_spec 0 delta) as [H|_]; [lia|]. simpl.
      split; [reflexivity|].
      rewrite (wrap64_small (CborEncodeBuffer.size b + delta))
        by (unfold is_uint64; lia).
      unfold CborEncodeBuffer.size at 1. simpl.
      rewrite resize_length by lia. lia.
    + destruct (Z.ltb_spec 0 delta) as [_|H]; [|lia]. simpl.
      destruct (Z.gtb_spec (wrap64 (CborEncodeBuffer.size b + delta))
                  (CborEncodeBuffer.max_size_ b)) as [_|Hok]; simpl; [lia|].
      split; [reflexivity|].
      pose proof (wrap64_range (CborEncodeBuffer.size b + delta)) as Hr.
      unfold CborEncodeBuffer.size at 1. simpl.
      rewrite resize_length by lia. lia.
Qed.

(** X28.  The encode buffer never grows beyond [max_size_]: if it holds
    at most [max_size_] bytes, it does so after every sequence of [Append]
    and [ResizeBy] calls, whatever their arguments, and [max_size_] never
    changes. *)
Theorem cbor_buffer_never_exceeds_max_size (ops : list CborEncodeBuffer.Op) :
  forall b : CborEncodeBuffer.t,
    Forall CborEncodeBuffer.fits ops ->
    CborEncodeBuffer.size b <= CborEncodeBuffer.max_size_ b < two64 ->
    CborEncodeBuffer.max_size_ (CborEncodeBuffer.run ops b)
    = CborEncodeBuffer.max_size_ b
    /\ CborEncodeBuffer.size (CborEncodeBuffer.run ops b)
       <= CborEncodeBuffer.max_size_ b.
Proof.
  induction ops as [|o ops IH]; intros b Hfit Hb.
  - simpl. split; [reflexivity | lia].
  - change (CborEncodeBuffer.run (o :: ops) b)
      with (CborEncodeBuffer.run ops (CborEncodeBuffer.step o b)).
    inversion Hfit as [|? ? Ho Hops]; subst.
    destruct (cbor_step_keeps_bound o b Ho Hb) as (Hm & Hs).
    destruct (IH (CborEncodeBuffer.step o b) Hops) as (Hm' & Hs').
    + rewrite Hm. lia.
    + rewrite Hm', Hm. split; [reflexivity|]. rewrite Hm in Hs'. exact Hs'.
Qed.




Lemma cbor_buffer_never_exceeds_max_size_witness :
  CborEncodeBuffer.size
    (CborEncodeBuffer.run
       [CborEncodeBuffer.OpAppend 100; CborEncodeBuffer.OpResizeBy (-20);
        CborEncodeBuffer.OpAppend 64000]
       CborEncodeBuffer.default)
  <= CborEncodeBuffer.max_size_ CborEncodeBuffer.default.
Proof.
  apply (cbor_buffer_never_exceeds_max_size
           [CborEncodeBuffer.OpAppend 100; CborEncodeBuffer.OpResizeBy (-20);
            CborEncodeBuffer.OpAppend 64000]
           CborEncodeBuffer.default).
  - repeat constructor; unfold two64; simpl; lia.
  - unfold two64. vm_compute. split; [discriminate | reflexivity].
Defined.

